(** * Authentication and authorization layer of the Express/PostgreSQL backends

    A shallow embedding of the auth slice of two backend variants:

    - [Dangun]: [dangun_01/server.js] (marketplace clone);
    - [Ecommerce]: the e-commerce [server.js] with Kakao OAuth;

    of the item routes of the to-do application ([TodoApp]), and of the lazy
    initializer of the marketplace variant ([DangunApi]).

    Conventions of the embedding.

    - JavaScript values that reach the handlers from JSON ([req.body], the
      provider's responses) are [JsVal]s.  Numbers are integers (of the
      range JavaScript prints in full).  Objects are key/value lists read by
      first match.  The handlers read properties by fixed names only.
    - A JavaScript string is a [string]; [String.length] stands for
      [.length].  String constants of the source are carried as written.
    - A handler is a function of the request, of the values it obtains from
      its environment ([World]: clocks, salt, the provider's answers) and of
      the store, returning the new store and the response.  Exceptions are the
      [Throw] results of [Res]; [try]/[catch] is [try_catch].
    - The store is the users table with its primary key, its UNIQUE keys, its
      defaults and its id sequence (for the to-do application, the items
      table with its reference to the users table).  It is always reachable:
      driver failures (which the handlers map to status 500) are not part of
      the model, and neither are column widths.  The lazy table creation is
      modelled on its own, in [DangunApi].  No other route of the
      applications writes to the users table.
    - The libraries [bcryptjs], [jsonwebtoken], [pg] (rendering of compound
      parameters) and the built-in [encodeURIComponent] are the fields of the
      class [Libs]; PostgreSQL's readers of INTEGER and BOOLEAN parameters
      are the fields of the class [PgInput]. *)

From Stdlib Require Import Ascii.
From stdpp Require Import base option list strings countable pretty numbers relations sorting.

Set Warnings "-register-all".
Open Scope string_scope.
Open Scope Z_scope.

(** ** JavaScript values *)

Inductive JsVal : Type :=
| JUndefined
| JNull
| JBool (b : bool)
| JNum (n : Z)
| JStr (s : string)
| JArr (xs : list JsVal)
| JObj (fields : list (string * JsVal)).

(** Exceptions that the modelled code can raise. *)
Inductive Exn : Type :=
| TypeError                  (* property read on undefined or null *)
| IllegalArguments           (* bcryptjs on a non-string *)
| PgError (code : string)    (* a database error with its SQLSTATE *)
| URIError                   (* encodeURIComponent *)
| FetchError                 (* fetch or Response.json rejected *)
| JsonWebTokenError.         (* jsonwebtoken: any verification failure *)

Inductive Res (A : Type) : Type :=
| Ok (a : A)
| Throw (e : Exn).
Arguments Ok {A} a.
Arguments Throw {A} e.

(** [!v] is [negb (truthy v)]. *)
Definition truthy (v : JsVal) : bool :=
  match v with
  | JUndefined | JNull => false
  | JBool b => b
  | JNum n => negb (n =? 0)
  | JStr s => negb (String.eqb s "")
  | JArr _ | JObj _ => true
  end.

(** [a || b] *)
Definition js_or (a b : JsVal) : JsVal := if truthy a then a else b.

Definition nullish (v : JsVal) : bool :=
  match v with
  | JUndefined | JNull => true
  | _ => false
  end.

Fixpoint assoc (k : string) (fs : list (string * JsVal)) : option JsVal :=
  match fs with
  | [] => None
  | (k', v) :: rest => if String.eqb k k' then Some v else assoc k rest
  end.

(** [v.k] for a fixed property name [k]. *)
Definition get (v : JsVal) (k : string) : Res JsVal :=
  match v with
  | JUndefined | JNull => Throw TypeError
  | JObj fs => Ok (default JUndefined (assoc k fs))
  | JStr s => Ok (if String.eqb k "length" then JNum (Z.of_nat (String.length s)) else JUndefined)
  | JArr xs => Ok (if String.eqb k "length" then JNum (Z.of_nat (length xs)) else JUndefined)
  | JBool _ | JNum _ => Ok JUndefined
  end.

(** [v?.k] *)
Definition get_opt (v : JsVal) (k : string) : JsVal :=
  match get v k with
  | Ok x => x
  | Throw _ => JUndefined
  end.

(** [String(v)] *)
Fixpoint js_String (v : JsVal) : string :=
  match v with
  | JUndefined => "undefined"
  | JNull => "null"
  | JBool true => "true"
  | JBool false => "false"
  | JNum n => pretty n
  | JStr s => s
  | JArr xs =>
      (fix join (l : list JsVal) : string :=
         match l with
         | [] => ""
         | x :: rest =>
             let sx := if nullish x then "" else js_String x in
             match rest with
             | [] => sx
             | _ :: _ => sx +:+ "," +:+ join rest
             end
         end) xs
  | JObj _ => "[object Object]"
  end.

(** What [JSON.stringify] lets through: properties whose value is
    [undefined] are dropped, [undefined] array elements become [null]. *)
Fixpoint json_wire (v : JsVal) : JsVal :=
  match v with
  | JArr xs =>
      JArr (map (fun x => match x with JUndefined => JNull | _ => json_wire x end) xs)
  | JObj fs =>
      JObj ((fix go (l : list (string * JsVal)) : list (string * JsVal) :=
               match l with
               | [] => []
               | (k, x) :: rest =>
                   match x with
                   | JUndefined => go rest
                   | _ => (k, json_wire x) :: go rest
                   end
               end) fs)
  | _ => v
  end.

(** [s.split(c)] for a one-character separator. *)
Fixpoint split (c : ascii) (s : string) : list string :=
  match s with
  | EmptyString => [EmptyString]
  | String a rest =>
      if Ascii.eqb a c then EmptyString :: split c rest
      else match split c rest with
           | h :: t => String a h :: t
           | [] => [String a EmptyString]
           end
  end.

(** [s.startsWith(p)] *)
Definition startsWith (s p : string) : bool := String.prefix p s.

Definition opt_js (o : option string) : JsVal :=
  match o with
  | Some s => JStr s
  | None => JNull
  end.

(** ** Responses *)

Inductive Response : Type :=
| ResJson (status : Z) (body : JsVal)
| ResRedirect (location : string).

(** [res.status(st).json(obj)] *)
Definition res_json (st : Z) (obj : JsVal) : Response := ResJson st (json_wire obj).

(** [res.status(st).json({ success: false, message: msg })] *)
Definition fail (st : Z) (msg : string) : Response :=
  res_json st (JObj [("success", JBool false); ("message", JStr msg)]).

(** [res.json({ success: true, data })] *)
Definition success (data : JsVal) : Response :=
  res_json 200 (JObj [("success", JBool true); ("data", data)]).

Definition status_of (r : Response) : option Z :=
  match r with
  | ResJson st _ => Some st
  | ResRedirect _ => None
  end.

(** The [data] member of a JSON response, when it has one. *)
Definition data_of (r : Response) : option JsVal :=
  match r with
  | ResJson _ (JObj fs) => assoc "data" fs
  | _ => None
  end.

Definition message_of (r : Response) : option JsVal :=
  match r with
  | ResJson _ (JObj fs) => assoc "message" fs
  | _ => None
  end.

(** ** Bearer credentials *)

(** The claims the servers sign.  [c_provider] is [None] where the payload has
    no such key (the dangun variant). *)
Record Claims : Type := mkClaims {
  c_id : Z;
  c_username : option string;
  c_nickname : string;
  c_provider : option string
}.

(** The signed part of a token: the claims with the issue and expiry times
    (seconds) that [jsonwebtoken] adds; also what [jwt.verify] returns. *)
Record Payload : Type := mkPayload {
  p_claims : Claims;
  p_iat : Z;
  p_exp : Z
}.

Record Token : Type := mkToken {
  tk_payload : Payload;
  tk_sig : string
}.

(** ** Libraries *)

Class Libs : Type := {
  (** [bcrypt.hash(s, 10)] on strings, with the salt it draws *)
  bcrypt_hash : string -> string -> string;
  (** [bcrypt.compare(s, hash)] on strings *)
  bcrypt_compare : string -> string -> bool;
  (** the signature [jsonwebtoken] computes with a secret over a payload *)
  jwt_mac : string -> Payload -> string;
  (** compact serialization of a token and its parser *)
  jwt_render : Token -> string;
  jwt_parse : string -> option Token;
  jwt_parse_render : forall t, jwt_parse (jwt_render t) = Some t;
  (** [pg]'s text for an array or object parameter *)
  pg_compound : JsVal -> string;
  (** [ToNumber(s) < n] on a string *)
  js_string_lt : string -> Z -> bool;
  (** [encodeURIComponent(s)]; [None] when it raises [URIError] *)
  encodeURIComponent : string -> option string
}.

(** [v < n], [n] a number. *)
Definition js_lt `{Libs} (v : JsVal) (n : Z) : bool :=
  match v with
  | JUndefined => false
  | JNull => 0 <? n
  | JBool b => (if b then 1 else 0) <? n
  | JNum m => m <? n
  | JStr s => js_string_lt s n
  | JArr _ | JObj _ => js_string_lt (js_String v) n
  end.

(** [pg]'s [prepareValue]: the text sent for a query parameter, [None] for
    SQL NULL. *)
Definition prepareValue `{Libs} (v : JsVal) : option string :=
  match v with
  | JUndefined | JNull => None
  | JArr _ | JObj _ => Some (pg_compound v)
  | _ => Some (js_String v)
  end.

(** [bcrypt.hash(v, 10)] *)
Definition hash `{Libs} (v : JsVal) (salt : string) : Res string :=
  match v with
  | JStr s => Ok (bcrypt_hash s salt)
  | _ => Throw IllegalArguments
  end.

(** [bcrypt.compare(v, h)], [h] a column value *)
Definition compare `{Libs} (v : JsVal) (h : option string) : Res bool :=
  match v, h with
  | JStr s, Some hs => Ok (bcrypt_compare s hs)
  | _, _ => Throw IllegalArguments
  end.

(** ** Token issuer and verifier *)

Inductive JwtFailure : Type :=
| Malformed
| InvalidSignature
| Expired.

Definition seconds_7d : Z := 7 * 24 * 60 * 60.

(** Modelled from the spec: [jwt.sign] and [jwt.verify] belong to the
    [jsonwebtoken] package, which is not among the sources.  The spec (4.2):
    [issue(claims, secret, ttl)] signs claims and expiry with the secret;
    [verify(token, secret)] fails when the token is structurally malformed,
    when the signature does not match, or when the encoded expiry has
    passed.  Times are [Date.now()] in milliseconds, floored to seconds. *)
Definition jwt_sign `{Libs} (c : Claims) (secret : string) (expiresIn : Z) (now_ms : Z) : string :=
  let iat := now_ms / 1000 in
  let p := mkPayload c iat (iat + expiresIn) in
  jwt_render (mkToken p (jwt_mac secret p)).

(** Modelled from the spec: see [jwt_sign]. *)
Definition jwt_check `{Libs} (tok : string) (secret : string) (now_ms : Z) : JwtFailure + Payload :=
  match jwt_parse tok with
  | None => inl Malformed
  | Some t =>
      if negb (String.eqb (tk_sig t) (jwt_mac secret (tk_payload t))) then inl InvalidSignature
      else if p_exp (tk_payload t) <=? now_ms / 1000 then inl Expired
      else inr (tk_payload t)
  end.

(** [jwt.verify(tok, secret)], [tok] possibly [undefined]. *)
Definition jwt_verify `{Libs} (tok : option string) (secret : string) (now_ms : Z) : Res Payload :=
  match tok with
  | None => Throw JsonWebTokenError
  | Some t =>
      match jwt_check t secret now_ms with
      | inl _ => Throw JsonWebTokenError
      | inr p => Ok p
      end
  end.

(** [process.env.JWT_SECRET || fallback] *)
Definition secret_or (env_secret : option string) (fallback : string) : string :=
  match env_secret with
  | Some s => if String.eqb s "" then fallback else s
  | None => fallback
  end.

(** ** Requests and the authorization gate *)

Record Request : Type := mkRequest {
  authorization : option string;   (* req.headers.authorization *)
  body : JsVal;                    (* req.body *)
  query : JsVal;                   (* req.query *)
  user : option Payload            (* req.user *)
}.

Definition set_user (req : Request) (p : Payload) : Request :=
  mkRequest (authorization req) (body req) (query req) (Some p).

(** What a middleware does: answer, or call [next()] with the request. *)
Inductive Outcome : Type :=
| Respond (r : Response)
| Next (req : Request).

Definition msg_login_required : string := "로그인이 필요합니다".
Definition msg_invalid_token : string := "유효하지 않은 토큰입니다".

(** [auth(req, res, next)]; the same text in both variants. *)
Definition auth `{Libs} (JWT_SECRET : string) (now_ms : Z) (req : Request) : Outcome :=
  match authorization req with
  | None => Respond (fail 401 msg_login_required)
  | Some header =>
      if String.eqb header "" || negb (startsWith header "Bearer ")
      then Respond (fail 401 msg_login_required)
      else
        match jwt_verify (split " "%char header !! 1%nat) JWT_SECRET now_ms with
        | Ok p => Next (set_user req p)
        | Throw _ => Respond (fail 401 msg_invalid_token)
        end
  end.

(** A route [app.METHOD(path, auth, handler)]. *)
Definition protected `{Libs} {S : Type} (JWT_SECRET : string) (now_ms : Z)
    (handler : Request -> S -> S * Response) (req : Request) (st : S) : S * Response :=
  match auth JWT_SECRET now_ms req with
  | Respond r => (st, r)
  | Next req' => handler req' st
  end.

(** ** Handlers: store passing with exceptions *)

Definition M (S A : Type) : Type := S -> S * Res A.

Definition ret {S A} (a : A) : M S A := fun s => (s, Ok a).

Definition bind {S A B} (m : M S A) (k : A -> M S B) : M S B :=
  fun s =>
    match m s with
    | (s', Ok a) => k a s'
    | (s', Throw e) => (s', Throw e)
    end.

Definition lift {S A} (r : Res A) : M S A := fun s => (s, r).

Notation "'do' x <- m ; k" := (bind m (fun x => k))
  (at level 10, x name, m at level 100, k at level 200).

(** [try { m } catch (err) { h(err) }] around a whole handler: the [catch]
    blocks of the handlers only build a response. *)
Definition try_catch {S} (m : M S Response) (h : Exn -> Response) : S -> S * Response :=
  fun s =>
    match m s with
    | (s', Ok r) => (s', r)
    | (s', Throw e) => (s', h e)
    end.

(** [expiresIn: '7d'], in seconds *)
Definition expiresIn_7d : Z := seconds_7d.

Definition msg_server_error : string := "서버 오류".
Definition msg_fields_required : string := "아이디, 비밀번호, 닉네임을 모두 입력해주세요".
Definition msg_username_taken : string := "이미 존재하는 아이디입니다".
Definition msg_credentials_required : string := "아이디와 비밀번호를 입력해주세요".
Definition msg_bad_credentials : string := "아이디 또는 비밀번호가 틀렸습니다".
Definition msg_user_not_found : string := "사용자를 찾을 수 없습니다".

(** [COALESCE(p, col)] on a NOT NULL column and on a nullable one *)
Definition coalesce (p : option string) (col : string) : string :=
  match p with
  | Some s => s
  | None => col
  end.

Definition coalesce_null (p col : option string) : option string :=
  match p with
  | Some s => Some s
  | None => col
  end.

(** The [catch] block of register: SQLSTATE 23505 is a unique violation. *)
Definition register_catch (e : Exn) : Response :=
  match e with
  | PgError code =>
      if String.eqb code "23505" then fail 409 msg_username_taken
      else fail 500 msg_server_error
  | _ => fail 500 msg_server_error
  end.

Definition server_error (_ : Exn) : Response := fail 500 msg_server_error.

(** ** The marketplace variant ([dangun_01/server.js]) *)

Module Dangun.

(** A row of [dangun_01_users]. *)
Record User : Type := mkUser {
  id : Z;
  username : string;
  password : string;
  nickname : string;
  location : option string;
  profile_image : option string;
  created_at : Z
}.

Record DB : Type := mkDB {
  users : list User;
  users_id_seq : Z          (* next value of the SERIAL sequence *)
}.

(** What a request obtains from its environment. *)
Record World : Type := mkWorld {
  env_JWT_SECRET : option string;   (* process.env.JWT_SECRET *)
  now_ms : Z;                       (* Date.now() *)
  db_now : Z;                       (* NOW() *)
  salt : string                     (* the salt bcrypt draws *)
}.

Definition JWT_SECRET (w : World) : string :=
  secret_or (env_JWT_SECRET w) "dangun-01-secret-key".

Definition default_location : string := "서울시 강남구".

(** [INSERT INTO dangun_01_users (username, password, nickname) VALUES
    ($1, $2, $3)], returning the new row.  The sequence value is consumed
    also when the insert fails. *)
Definition insert_user (w : World) (uname : option string) (pw : string)
    (nick : option string) : M DB User :=
  fun db =>
    let new_id := users_id_seq db in
    let db1 := mkDB (users db) (new_id + 1) in
    match uname, nick with
    | Some un, Some ni =>
        if existsb (fun u => (id u =? new_id) || String.eqb (username u) un) (users db)
        then (db1, Throw (PgError "23505"))
        else
          let row := mkUser new_id un pw ni (Some default_location) None (db_now w) in
          (mkDB (users db ++ [row]) (new_id + 1), Ok row)
    | _, _ => (db1, Throw (PgError "23502"))
    end.

(** [SELECT ... WHERE username = $1] *)
Definition select_by_username (uname : option string) : M DB (list User) :=
  fun db =>
    (db, Ok (List.filter (fun u => match uname with
                              | Some un => String.eqb (username u) un
                              | None => false
                              end) (users db))).

(** [SELECT ... WHERE id = $1] *)
Definition select_by_id (uid : Z) : M DB (list User) :=
  fun db => (db, Ok (List.filter (fun u => id u =? uid) (users db))).

Definition set_profile (nick loc : option string) (u : User) : User :=
  mkUser (id u) (username u) (password u) (coalesce nick (nickname u))
    (coalesce_null loc (location u)) (profile_image u) (created_at u).

(** [UPDATE dangun_01_users SET nickname = COALESCE($1, nickname),
    location = COALESCE($2, location) WHERE id = $3 RETURNING ...] *)
Definition update_profile (nick loc : option string) (uid : Z) : M DB (list User) :=
  fun db =>
    let users' := map (fun u => if id u =? uid then set_profile nick loc u else u) (users db) in
    (mkDB users' (users_id_seq db), Ok (List.filter (fun u => id u =? uid) users')).

(** [RETURNING id, username, nickname, location] *)
Definition row_register (u : User) : JsVal :=
  JObj [("id", JNum (id u)); ("username", JStr (username u));
        ("nickname", JStr (nickname u)); ("location", opt_js (location u))].

(** [{ id, username, nickname, location, profile_image }], also the
    RETURNING list of the profile update *)
Definition row_public (u : User) : JsVal :=
  JObj [("id", JNum (id u)); ("username", JStr (username u));
        ("nickname", JStr (nickname u)); ("location", opt_js (location u));
        ("profile_image", opt_js (profile_image u))].

(** [SELECT id, username, nickname, location, profile_image, created_at] *)
Definition row_me (u : User) : JsVal :=
  JObj [("id", JNum (id u)); ("username", JStr (username u));
        ("nickname", JStr (nickname u)); ("location", opt_js (location u));
        ("profile_image", opt_js (profile_image u)); ("created_at", JNum (created_at u))].

(** [jwt.sign({ id, username, nickname }, JWT_SECRET, { expiresIn: '7d' })] *)
Definition sign_user `{Libs} (w : World) (u : User) : string :=
  jwt_sign (mkClaims (id u) (Some (username u)) (nickname u) None)
    (JWT_SECRET w) expiresIn_7d (now_ms w).

(** [app.post('/api/auth/register', ...)] *)
Definition post_auth_register `{Libs} (w : World) (req : Request) : DB -> DB * Response :=
  try_catch
    (do username <- lift (get (body req) "username") ;
     do password <- lift (get (body req) "password") ;
     do nickname <- lift (get (body req) "nickname") ;
     if negb (truthy username) || negb (truthy password) || negb (truthy nickname)
     then ret (fail 400 msg_fields_required)
     else
       do hashed <- lift (hash password (salt w)) ;
       do user <- insert_user w (prepareValue username) hashed (prepareValue nickname) ;
       let token := sign_user w user in
       ret (success (JObj [("token", JStr token); ("user", row_register user)])))
    register_catch.

(** [app.post('/api/auth/login', ...)] *)
Definition post_auth_login `{Libs} (w : World) (req : Request) : DB -> DB * Response :=
  try_catch
    (do username <- lift (get (body req) "username") ;
     do password <- lift (get (body req) "password") ;
     if negb (truthy username) || negb (truthy password)
     then ret (fail 400 msg_credentials_required)
     else
       do rows <- select_by_username (prepareValue username) ;
       match rows with
       | [] => ret (fail 401 msg_bad_credentials)
       | user :: _ =>
           do valid <- lift (compare password (Some (Dangun.password user))) ;
           if negb valid then ret (fail 401 msg_bad_credentials)
           else
             let token := sign_user w user in
             ret (success (JObj [("token", JStr token); ("user", row_public user)]))
       end)
    server_error.

(** [req.user.id] *)
Definition user_id (req : Request) : Res Z :=
  match user req with
  | Some p => Ok (c_id (p_claims p))
  | None => Throw TypeError
  end.

(** The handler of [app.get('/api/auth/me', auth, ...)] *)
Definition me_handler (req : Request) : DB -> DB * Response :=
  try_catch
    (do uid <- lift (user_id req) ;
     do rows <- select_by_id uid ;
     match rows with
     | [] => ret (fail 404 msg_user_not_found)
     | row :: _ => ret (success (row_me row))
     end)
    server_error.

(** [result.rows[0]] where the row may be missing *)
Definition first_row (f : User -> JsVal) (rows : list User) : JsVal :=
  match rows with
  | [] => JUndefined
  | row :: _ => f row
  end.

(** The handler of [app.put('/api/auth/profile', auth, ...)] *)
Definition profile_handler `{Libs} (req : Request) : DB -> DB * Response :=
  try_catch
    (do nickname <- lift (get (body req) "nickname") ;
     do location <- lift (get (body req) "location") ;
     do uid <- lift (user_id req) ;
     do rows <- update_profile (prepareValue nickname) (prepareValue location) uid ;
     ret (success (first_row row_public rows)))
    server_error.

Definition get_auth_me `{Libs} (w : World) : Request -> DB -> DB * Response :=
  protected (JWT_SECRET w) (now_ms w) me_handler.

Definition put_auth_profile `{Libs} (w : World) : Request -> DB -> DB * Response :=
  protected (JWT_SECRET w) (now_ms w) profile_handler.

(** The auth routes of the application. *)
Inductive Route : Type := Register | Login | Me | Profile.

Definition handle `{Libs} (r : Route) (w : World) (req : Request) : DB -> DB * Response :=
  match r with
  | Register => post_auth_register w req
  | Login => post_auth_login w req
  | Me => get_auth_me w req
  | Profile => put_auth_profile w req
  end.

(** The store after a sequence of requests. *)
Fixpoint run `{Libs} (evs : list (Route * World * Request)) (db : DB) : DB :=
  match evs with
  | [] => db
  | (r, w, req) :: rest => run rest (fst (handle r w req db))
  end.

Definition empty_db : DB := mkDB [] 1.

End Dangun.

(** ** The e-commerce variant with Kakao OAuth *)

Module Ecommerce.

(** A row of [ecommerce_01_users]. *)
Record User : Type := mkUser {
  id : Z;
  username : option string;
  password : option string;
  nickname : string;
  email : option string;
  phone : option string;
  profile_image : option string;
  kakao_id : option string;
  provider : string;
  created_at : Z
}.

Record DB : Type := mkDB {
  users : list User;
  users_id_seq : Z
}.

Record World : Type := mkWorld {
  env_JWT_SECRET : option string;   (* process.env.JWT_SECRET *)
  now_ms : Z;                       (* Date.now() *)
  db_now : Z;                       (* NOW() *)
  salt : string;                    (* the salt bcrypt draws *)
  kakao_token : Res JsVal;          (* POST kauth.kakao.com/oauth/token, then .json() *)
  kakao_profile : Res JsVal         (* GET kapi.kakao.com/v2/user/me, then .json() *)
}.

Definition JWT_SECRET (w : World) : string :=
  secret_or (env_JWT_SECRET w) "lueur-ecommerce-secret-key".

Definition msg_password_too_short : string := "비밀번호는 6자 이상이어야 합니다".
Definition msg_kakao_auth_failed : string := "카카오 인증에 실패했습니다".
Definition msg_kakao_token_failed : string := "카카오 토큰 발급에 실패했습니다".
Definition msg_kakao_login_error : string := "카카오 로그인 처리 중 오류가 발생했습니다".
Definition kakao_default_nickname : string := "카카오 사용자".

Definition same_key (col : option string) (v : string) : bool :=
  match col with
  | Some c => String.eqb c v
  | None => false
  end.

(** Would [row] break the primary key or a UNIQUE key of the table?  NULLs
    never collide. *)
Definition violates_unique (row : User) (rows : list User) : bool :=
  existsb (fun u =>
             (id u =? id row)
             || match username row with Some un => same_key (username u) un | None => false end
             || match kakao_id row with Some k => same_key (kakao_id u) k | None => false end)
          rows.

(** An INSERT of one row whose id comes from the sequence; [nick] is the
    parameter for the NOT NULL column.  The sequence value is consumed also
    when the insert fails. *)
Definition insert_row (mk : Z -> string -> User) (nick : option string) : M DB User :=
  fun db =>
    let new_id := users_id_seq db in
    let db1 := mkDB (users db) (new_id + 1) in
    match nick with
    | None => (db1, Throw (PgError "23502"))
    | Some ni =>
        let row := mk new_id ni in
        if violates_unique row (users db) then (db1, Throw (PgError "23505"))
        else (mkDB (users db ++ [row]) (new_id + 1), Ok row)
    end.

(** [INSERT INTO ecommerce_01_users (username, password, nickname, email,
    phone, provider) VALUES ($1, $2, $3, $4, $5, 'local') RETURNING *] *)
Definition insert_local (w : World) (uname : option string) (pw : string)
    (nick mail ph : option string) : M DB User :=
  insert_row (fun new_id ni => mkUser new_id uname (Some pw) ni mail ph None None "local" (db_now w)) nick.

(** [INSERT INTO ecommerce_01_users (nickname, email, profile_image,
    kakao_id, provider) VALUES ($1, $2, $3, $4, 'kakao') RETURNING *] *)
Definition insert_kakao (w : World) (nick mail img : option string) (kid : string) : M DB User :=
  insert_row (fun new_id ni => mkUser new_id None None ni mail None img (Some kid) "kakao" (db_now w)) nick.

(** [SELECT * ... WHERE username = $1 AND provider = $2] *)
Definition select_local (uname : option string) (prov : string) : M DB (list User) :=
  fun db =>
    (db, Ok (List.filter (fun u => match uname with
                                   | Some un => same_key (username u) un && String.eqb (provider u) prov
                                   | None => false
                                   end) (users db))).

(** [SELECT * ... WHERE kakao_id = $1] *)
Definition select_by_kakao_id (kid : string) : M DB (list User) :=
  fun db => (db, Ok (List.filter (fun u => same_key (kakao_id u) kid) (users db))).

(** [SELECT * ... WHERE id = $1] *)
Definition select_by_id (uid : Z) : M DB (list User) :=
  fun db => (db, Ok (List.filter (fun u => id u =? uid) (users db))).

Definition set_kakao (nick : string) (img mail : option string) (u : User) : User :=
  mkUser (id u) (username u) (password u) nick (coalesce_null mail (email u)) (phone u)
    (coalesce_null img (profile_image u)) (kakao_id u) (provider u) (created_at u).

(** [UPDATE ecommerce_01_users SET nickname = $1, profile_image =
    COALESCE($2, profile_image), email = COALESCE($3, email) WHERE
    kakao_id = $4 RETURNING *] *)
Definition update_kakao (nick img mail : option string) (kid : string) : M DB (list User) :=
  fun db =>
    match nick with
    | None =>
        if existsb (fun u => same_key (kakao_id u) kid) (users db)
        then (db, Throw (PgError "23502"))
        else (db, Ok [])
    | Some ni =>
        let users' := map (fun u => if same_key (kakao_id u) kid then set_kakao ni img mail u else u)
                          (users db) in
        (mkDB users' (users_id_seq db),
         Ok (List.filter (fun u => same_key (kakao_id u) kid) users'))
    end.

Definition set_profile (nick mail ph : option string) (u : User) : User :=
  mkUser (id u) (username u) (password u) (coalesce nick (nickname u))
    (coalesce_null mail (email u)) (coalesce_null ph (phone u))
    (profile_image u) (kakao_id u) (provider u) (created_at u).

(** [UPDATE ecommerce_01_users SET nickname = COALESCE($1, nickname),
    email = COALESCE($2, email), phone = COALESCE($3, phone) WHERE id = $4
    RETURNING *] *)
Definition update_profile (nick mail ph : option string) (uid : Z) : M DB (list User) :=
  fun db =>
    let users' := map (fun u => if id u =? uid then set_profile nick mail ph u else u) (users db) in
    (mkDB users' (users_id_seq db), Ok (List.filter (fun u => id u =? uid) users')).

(** [generateToken(user)]; [user] is [undefined] when a result had no row. *)
Definition generateToken `{Libs} (w : World) (user : option User) : Res string :=
  match user with
  | None => Throw TypeError
  | Some u =>
      Ok (jwt_sign (mkClaims (id u) (username u) (nickname u) (Some (provider u)))
            (JWT_SECRET w) expiresIn_7d (now_ms w))
  end.

(** [sanitizeUser(user)] *)
Definition sanitizeUser (user : option User) : Res JsVal :=
  match user with
  | None => Throw TypeError
  | Some u =>
      Ok (JObj [("id", JNum (id u));
                ("username", opt_js (username u));
                ("nickname", JStr (nickname u));
                ("email", opt_js (email u));
                ("phone", opt_js (phone u));
                ("profile_image", opt_js (profile_image u));
                ("provider", JStr (provider u));
                ("created_at", JNum (created_at u))])
  end.

(** [app.post('/api/auth/register', ...)] *)
Definition post_auth_register `{Libs} (w : World) (req : Request) : DB -> DB * Response :=
  try_catch
    (do username <- lift (get (body req) "username") ;
     do password <- lift (get (body req) "password") ;
     do nickname <- lift (get (body req) "nickname") ;
     do email <- lift (get (body req) "email") ;
     do phone <- lift (get (body req) "phone") ;
     if negb (truthy username) || negb (truthy password) || negb (truthy nickname)
     then ret (fail 400 msg_fields_required)
     else
       do len <- lift (get password "length") ;
       if js_lt len 6 then ret (fail 400 msg_password_too_short)
       else
         do hashed <- lift (hash password (salt w)) ;
         do user <- insert_local w (prepareValue username) hashed (prepareValue nickname)
                      (prepareValue (js_or email JNull)) (prepareValue (js_or phone JNull)) ;
         do token <- lift (generateToken w (Some user)) ;
         do view <- lift (sanitizeUser (Some user)) ;
         ret (success (JObj [("token", JStr token); ("user", view)])))
    register_catch.

(** [app.post('/api/auth/login', ...)] *)
Definition post_auth_login `{Libs} (w : World) (req : Request) : DB -> DB * Response :=
  try_catch
    (do username <- lift (get (body req) "username") ;
     do password <- lift (get (body req) "password") ;
     if negb (truthy username) || negb (truthy password)
     then ret (fail 400 msg_credentials_required)
     else
       do rows <- select_local (prepareValue username) "local" ;
       match rows with
       | [] => ret (fail 401 msg_bad_credentials)
       | user :: _ =>
           do valid <- lift (compare password (Ecommerce.password user)) ;
           if negb valid then ret (fail 401 msg_bad_credentials)
           else
             do token <- lift (generateToken w (Some user)) ;
             do view <- lift (sanitizeUser (Some user)) ;
             ret (success (JObj [("token", JStr token); ("user", view)]))
       end)
    server_error.

Definition login_error (msg : string) : Response := ResRedirect ("/#/login?error=" +:+ msg).

(** [encodeURIComponent(v)] *)
Definition encode `{Libs} (v : JsVal) : Res string :=
  match encodeURIComponent (js_String v) with
  | Some s => Ok s
  | None => Throw URIError
  end.

(** [app.get('/api/auth/kakao/callback', ...)] *)
Definition get_auth_kakao_callback `{Libs} (w : World) (req : Request) : DB -> DB * Response :=
  try_catch
    (do code <- lift (get (query req) "code") ;
     if negb (truthy code) then ret (login_error msg_kakao_auth_failed)
     else
       do tokenData <- lift (kakao_token w) ;
       do access_token <- lift (get tokenData "access_token") ;
       if negb (truthy access_token) then
         do error_description <- lift (get tokenData "error_description") ;
         do encoded <- lift (encode (js_or error_description (JStr msg_kakao_token_failed))) ;
         ret (login_error encoded)
       else
         do kakaoUser <- lift (kakao_profile w) ;
         do kakaoUser_id <- lift (get kakaoUser "id") ;
         let kakaoId := js_String kakaoUser_id in
         do properties <- lift (get kakaoUser "properties") ;
         do kakao_account <- lift (get kakaoUser "kakao_account") ;
         let kakaoNickname := js_or (get_opt properties "nickname") (JStr kakao_default_nickname) in
         let kakaoEmail := js_or (get_opt kakao_account "email") JNull in
         let kakaoProfileImage := js_or (get_opt properties "profile_image") JNull in
         do found <- select_by_kakao_id kakaoId ;
         do user <-
           match found with
           | _ :: _ =>
               do updated <- update_kakao (prepareValue kakaoNickname)
                               (prepareValue kakaoProfileImage) (prepareValue kakaoEmail) kakaoId ;
               ret (head updated)
           | [] =>
               do inserted <- insert_kakao w (prepareValue kakaoNickname) (prepareValue kakaoEmail)
                                (prepareValue kakaoProfileImage) kakaoId ;
               ret (Some inserted)
           end ;
         do jwtToken <- lift (generateToken w user) ;
         ret (ResRedirect ("/#/kakao-callback?token=" +:+ jwtToken)))
    (fun _ => login_error msg_kakao_login_error).

(** [req.user.id] *)
Definition user_id (req : Request) : Res Z :=
  match user req with
  | Some p => Ok (c_id (p_claims p))
  | None => Throw TypeError
  end.

(** The handler of [app.get('/api/auth/me', auth, ...)] *)
Definition me_handler (req : Request) : DB -> DB * Response :=
  try_catch
    (do uid <- lift (user_id req) ;
     do rows <- select_by_id uid ;
     match rows with
     | [] => ret (fail 404 msg_user_not_found)
     | _ :: _ =>
         do view <- lift (sanitizeUser (head rows)) ;
         ret (success view)
     end)
    server_error.

(** The handler of [app.put('/api/auth/profile', auth, ...)] *)
Definition profile_handler `{Libs} (req : Request) : DB -> DB * Response :=
  try_catch
    (do nickname <- lift (get (body req) "nickname") ;
     do email <- lift (get (body req) "email") ;
     do phone <- lift (get (body req) "phone") ;
     do uid <- lift (user_id req) ;
     do rows <- update_profile (prepareValue nickname) (prepareValue email) (prepareValue phone) uid ;
     do view <- lift (sanitizeUser (head rows)) ;
     ret (success view))
    server_error.

Definition get_auth_me `{Libs} (w : World) : Request -> DB -> DB * Response :=
  protected (JWT_SECRET w) (now_ms w) me_handler.

Definition put_auth_profile `{Libs} (w : World) : Request -> DB -> DB * Response :=
  protected (JWT_SECRET w) (now_ms w) profile_handler.

(** The auth routes of the application. *)
Inductive Route : Type := Register | Login | KakaoCallback | Me | Profile.

Definition handle `{Libs} (r : Route) (w : World) (req : Request) : DB -> DB * Response :=
  match r with
  | Register => post_auth_register w req
  | Login => post_auth_login w req
  | KakaoCallback => get_auth_kakao_callback w req
  | Me => get_auth_me w req
  | Profile => put_auth_profile w req
  end.

(** The store after a sequence of requests. *)
Fixpoint run `{Libs} (evs : list (Route * World * Request)) (db : DB) : DB :=
  match evs with
  | [] => db
  | (r, w, req) :: rest => run rest (fst (handle r w req db))
  end.

Definition empty_db : DB := mkDB [] 1.

End Ecommerce.

(** ** A concrete instance of the libraries

    Used to run the handlers on examples.  Tokens are rendered as the bits of
    the code stdpp's [Countable] assigns to them. *)

Module Sample.

#[global] Instance Claims_eq_dec : EqDecision Claims.
Proof. solve_decision. Defined.

#[global] Instance Payload_eq_dec : EqDecision Payload.
Proof. solve_decision. Defined.

#[global] Instance Token_eq_dec : EqDecision Token.
Proof. solve_decision. Defined.

#[global] Instance Claims_countable : Countable Claims.
Proof.
  refine (inj_countable'
            (fun c => (c_id c, c_username c, c_nickname c, c_provider c))
            (fun '(i, u, n, p) => mkClaims i u n p) _).
  intros []; reflexivity.
Defined.

#[global] Instance Payload_countable : Countable Payload.
Proof.
  refine (inj_countable'
            (fun p => (p_claims p, p_iat p, p_exp p))
            (fun '(c, i, e) => mkPayload c i e) _).
  intros []; reflexivity.
Defined.

#[global] Instance Token_countable : Countable Token.
Proof.
  refine (inj_countable'
            (fun t => (tk_payload t, tk_sig t))
            (fun '(p, s) => mkToken p s) _).
  intros []; reflexivity.
Defined.

Fixpoint pos_bits (p : positive) : string :=
  match p with
  | xH => ""
  | xO q => String "0"%char (pos_bits q)
  | xI q => String "1"%char (pos_bits q)
  end.

Fixpoint bits_pos (s : string) : option positive :=
  match s with
  | EmptyString => Some xH
  | String c r =>
      if Ascii.eqb c "0"%char then xO <$> bits_pos r
      else if Ascii.eqb c "1"%char then xI <$> bits_pos r
      else None
  end.

Definition render (t : Token) : string := String "j"%char (pos_bits (encode t)).

Definition parse (s : string) : option Token :=
  match s with
  | String c r => if Ascii.eqb c "j"%char then bits_pos r ≫= decode else None
  | EmptyString => None
  end.

Lemma bits_pos_bits p : bits_pos (pos_bits p) = Some p.
Proof. induction p as [q IH | q IH |]; simpl; rewrite ?IH; reflexivity. Qed.

Lemma parse_render t : parse (render t) = Some t.
Proof.
  unfold parse, render. simpl. rewrite bits_pos_bits. simpl. apply decode_encode.
Qed.

#[global] Instance libs : Libs := {|
  bcrypt_hash s salt := salt +:+ "$" +:+ s;
  bcrypt_compare s h := String.eqb h ("salt$" +:+ s);
  jwt_mac secret p := secret +:+ "/" +:+ pretty (p_exp p);
  jwt_render := render;
  jwt_parse := parse;
  jwt_parse_render := parse_render;
  pg_compound := js_String;
  js_string_lt _ _ := false;
  encodeURIComponent s := Some s
|}.

End Sample.

(** * Properties *)

(** ** Strings and values *)

Lemma prefix_app (p s : string) :
  String.prefix p s = true -> exists r, s = p +:+ r.
Proof.
  revert s. induction p as [| a p IH]; intros s Hp.
  - exists s. reflexivity.
  - destruct s as [| b s]; simpl in Hp; [discriminate |].
    destruct (ascii_dec a b) as [-> | _]; [| discriminate].
    destruct (IH s Hp) as [r ->]. exists r. reflexivity.
Qed.

Lemma split_cons (c : ascii) (s : string) : exists h t, split c s = h :: t.
Proof.
  induction s as [| a s IH]; simpl.
  - eauto.
  - destruct (Ascii.eqb a c); [eauto |].
    destruct IH as (h & t & ->). eauto.
Qed.

(** A header in the Bearer scheme always presents a token: the text between
    the first and the second space. *)
Lemma bearer_presents (header : string) :
  startsWith header "Bearer " = true ->
  exists tok, split " " header !! 1%nat = Some tok.
Proof.
  intros Hp. apply prefix_app in Hp as [r ->].
  destruct (split_cons " " r) as (h & t & Hs).
  exists h. cbv [String.append]. simpl. rewrite Hs. reflexivity.
Qed.

Lemma startsWith_nonempty (header : string) :
  startsWith header "Bearer " = true -> String.eqb header "" = false.
Proof. destruct header; [discriminate | reflexivity]. Qed.

(** ** The authorization gate *)

Section Gate.
Context `{Libs} {S : Type}.
Variables (JWT_SECRET : string) (now_ms : Z).

(** The gate answers [r] itself: whatever the downstream handler is, the
    route's result is [r] on an untouched store. *)
Definition rejects (req : Request) (r : Response) : Prop :=
  auth JWT_SECRET now_ms req = Respond r /\
  forall (handler : Request -> S -> S * Response) (st : S),
    protected JWT_SECRET now_ms handler req st = (st, r).

(** The gate hands [req'] to the downstream handler. *)
Definition passes (req req' : Request) : Prop :=
  auth JWT_SECRET now_ms req = Next req' /\
  forall (handler : Request -> S -> S * Response) (st : S),
    protected JWT_SECRET now_ms handler req st = handler req' st.

Lemma rejects_intro req r : auth JWT_SECRET now_ms req = Respond r -> rejects req r.
Proof. intros Ha. split; [exact Ha |]. intros h st. unfold protected. rewrite Ha. reflexivity. Qed.

Lemma passes_intro req req' : auth JWT_SECRET now_ms req = Next req' -> passes req req'.
Proof. intros Ha. split; [exact Ha |]. intros h st. unfold protected. rewrite Ha. reflexivity. Qed.

Lemma auth_no_header req :
  authorization req = None -> auth JWT_SECRET now_ms req = Respond (fail 401 msg_login_required).
Proof. intros Hh. unfold auth. rewrite Hh. reflexivity. Qed.

Lemma auth_other_scheme req header :
  authorization req = Some header -> startsWith header "Bearer " = false ->
  auth JWT_SECRET now_ms req = Respond (fail 401 msg_login_required).
Proof.
  intros Hh Hs. unfold auth. rewrite Hh, Hs. simpl. rewrite orb_true_r. reflexivity.
Qed.

Lemma auth_bearer req header :
  authorization req = Some header -> startsWith header "Bearer " = true ->
  auth JWT_SECRET now_ms req =
    match jwt_verify (split " " header !! 1%nat) JWT_SECRET now_ms with
    | Ok p => Next (set_user req p)
    | Throw _ => Respond (fail 401 msg_invalid_token)
    end.
Proof.
  intros Hh Hs. unfold auth. rewrite Hh, Hs, (startsWith_nonempty _ Hs). reflexivity.
Qed.


End Gate.

(** ** The token issuer and verifier *)

Definition day_ms : Z := 24 * 60 * 60 * 1000.

Section Tokens.
Context `{Libs}.

Lemma seconds_after (T days : Z) : (T + days * day_ms) / 1000 = T / 1000 + days * 86400.
Proof.
  unfold day_ms.
  replace (T + days * (24 * 60 * 60 * 1000)) with (T + (days * 86400) * 1000) by lia.
  apply Z.div_add. lia.
Qed.

(** Verification of a freshly signed token only depends on the clock. *)
Lemma jwt_check_sign (c : Claims) (secret : string) (ttl T now : Z) :
  jwt_check (jwt_sign c secret ttl T) secret now =
    if T / 1000 + ttl <=? now / 1000 then inl Expired
    else inr (mkPayload c (T / 1000) (T / 1000 + ttl)).
Proof.
  unfold jwt_check, jwt_sign. rewrite jwt_parse_render. simpl.
  rewrite String.eqb_refl. reflexivity.
Qed.

Lemma jwt_verify_malformed (s secret : string) (now : Z) :
  jwt_parse s = None -> jwt_verify (Some s) secret now = Throw JsonWebTokenError.
Proof. intros Hp. unfold jwt_verify, jwt_check. rewrite Hp. reflexivity. Qed.

Lemma jwt_verify_bad_signature (s secret : string) (t : Token) (now : Z) :
  jwt_parse s = Some t -> tk_sig t <> jwt_mac secret (tk_payload t) ->
  jwt_verify (Some s) secret now = Throw JsonWebTokenError.
Proof.
  intros Hp Hs. unfold jwt_verify, jwt_check. rewrite Hp.
  apply String.eqb_neq in Hs. rewrite Hs. reflexivity.
Qed.

(** C5.  Tokens carry a fixed window of 7 days: a token issued at [T] (by
    [jwt.sign] with [expiresIn: '7d'], as [generateToken] and the dangun
    handlers do) expires 7 days after its issue time; [verify] accepts it
    at [T] + 6 days and rejects it at [T] + 8 days, where the gate answers
    401; [verify] also fails on a malformed token and on a signature that
    does not match the secret. *)
Theorem token_validity_window (secret : string) (c : Claims) (T : Z) :
  let tok := jwt_sign c secret expiresIn_7d T in
  let p := mkPayload c (T / 1000) (T / 1000 + 7 * 24 * 60 * 60) in
  jwt_parse tok = Some (mkToken p (jwt_mac secret p)) /\
  jwt_verify (Some tok) secret (T + 6 * day_ms) = Ok p /\
  jwt_verify (Some tok) secret (T + 8 * day_ms) = Throw JsonWebTokenError /\
  (forall req header,
      authorization req = Some header -> startsWith header "Bearer " = true ->
      split " " header !! 1%nat = Some tok ->
      auth secret (T + 8 * day_ms) req = Respond (fail 401 msg_invalid_token)) /\
  (forall s now, jwt_parse s = None -> jwt_verify (Some s) secret now = Throw JsonWebTokenError) /\
  (forall s t now,
      jwt_parse s = Some t -> tk_sig t <> jwt_mac secret (tk_payload t) ->
      jwt_verify (Some s) secret now = Throw JsonWebTokenError) /\
  (forall w u,
      Dangun.sign_user w u =
        jwt_sign (mkClaims (Dangun.id u) (Some (Dangun.username u)) (Dangun.nickname u) None)
          (Dangun.JWT_SECRET w) expiresIn_7d (Dangun.now_ms w)) /\
  (forall w u,
      Ecommerce.generateToken w (Some u) =
        Ok (jwt_sign (mkClaims (Ecommerce.id u) (Ecommerce.username u) (Ecommerce.nickname u)
                        (Some (Ecommerce.provider u)))
              (Ecommerce.JWT_SECRET w) expiresIn_7d (Ecommerce.now_ms w))).
Proof.
  intros tok p.
  assert (H6 : jwt_verify (Some tok) secret (T + 6 * day_ms) = Ok p).
  { unfold jwt_verify, tok. rewrite jwt_check_sign, seconds_after.
    unfold expiresIn_7d, seconds_7d.
    destruct (Z.leb_spec (T / 1000 + 7 * 24 * 60 * 60) (T / 1000 + 6 * 86400)); [lia | reflexivity]. }
  assert (H8 : jwt_verify (Some tok) secret (T + 8 * day_ms) = Throw JsonWebTokenError).
  { unfold jwt_verify, tok. rewrite jwt_check_sign, seconds_after.
    unfold expiresIn_7d, seconds_7d.
    destruct (Z.leb_spec (T / 1000 + 7 * 24 * 60 * 60) (T / 1000 + 8 * 86400)); [reflexivity | lia]. }
  repeat split.
  - unfold tok, jwt_sign. rewrite jwt_parse_render. reflexivity.
  - exact H6.
  - exact H8.
  - intros req header Hh Hs Htok.
    rewrite (auth_bearer _ _ _ _ Hh Hs), Htok, H8. reflexivity.
  - intros s now. apply jwt_verify_malformed.
  - intros s t now. apply jwt_verify_bad_signature.
Qed.

End Tokens.

(** ** Login *)

Lemma filter_nil {A} (f : A -> bool) (l : list A) :
  (forall x, In x l -> f x = false) -> List.filter f l = [].
Proof.
  intros Hf. destruct (List.filter f l) as [| x rest] eqn:E; [reflexivity |].
  assert (Hx : In x (List.filter f l)) by (rewrite E; left; reflexivity).
  apply filter_In in Hx as [Hin Hfx]. rewrite (Hf x Hin) in Hfx. discriminate.
Qed.

Lemma filter_head {A} (f : A -> bool) (l : list A) (x : A) (rest : list A) :
  List.filter f l = x :: rest -> In x l /\ f x = true.
Proof.
  intros E. apply filter_In. rewrite E. left. reflexivity.
Qed.

Lemma filter_cons_of {A} (f : A -> bool) (l : list A) (x : A) :
  In x l -> f x = true -> exists y rest, List.filter f l = y :: rest.
Proof.
  intros Hin Hfx. destruct (List.filter f l) as [| y rest] eqn:E; [| eauto].
  assert (Hx : In x (List.filter f l)) by (apply filter_In; auto).
  rewrite E in Hx. destruct Hx.
Qed.

(** The request carries both credentials. *)
Definition credentials (req : Request) (username password : JsVal) : Prop :=
  get (body req) "username" = Ok username /\
  get (body req) "password" = Ok password /\
  truthy username = true /\ truthy password = true.

Section Login.
Context `{Libs}.

Lemma Dangun_login_unknown (w : Dangun.World) (db : Dangun.DB) req un pw name :
  credentials req un pw -> prepareValue un = Some name ->
  (forall r, In r (Dangun.users db) -> Dangun.username r <> name) ->
  Dangun.post_auth_login w req db = (db, fail 401 msg_bad_credentials).
Proof.
  intros (Hu & Hp & Htu & Htp) Hname Hnone.
  unfold Dangun.post_auth_login, try_catch, bind, lift, ret.
  rewrite Hu, Hp, Htu, Htp, Hname. simpl.
  rewrite filter_nil; [reflexivity |].
  intros r Hin. apply String.eqb_neq. auto.
Qed.

Lemma Dangun_login_wrong_password (w : Dangun.World) (db : Dangun.DB) req un pw name :
  credentials req un pw -> prepareValue un = Some name ->
  (exists r, In r (Dangun.users db) /\ Dangun.username r = name) ->
  (forall r, In r (Dangun.users db) -> Dangun.username r = name ->
             compare pw (Some (Dangun.password r)) = Ok false) ->
  Dangun.post_auth_login w req db = (db, fail 401 msg_bad_credentials).
Proof.
  intros (Hu & Hp & Htu & Htp) Hname (r0 & Hin0 & Hr0) Hbad.
  unfold Dangun.post_auth_login, try_catch, bind, lift, ret.
  rewrite Hu, Hp, Htu, Htp, Hname. simpl.
  destruct (filter_cons_of (fun u => String.eqb (Dangun.username u) name) (Dangun.users db) r0 Hin0)
    as (y & rest & E).
  { apply String.eqb_eq. exact Hr0. }
  rewrite E. apply filter_head in E as [Hin Hy]. apply String.eqb_eq in Hy.
  rewrite (Hbad y Hin Hy). reflexivity.
Qed.

Definition local_account (name : string) (r : Ecommerce.User) : Prop :=
  Ecommerce.username r = Some name /\ Ecommerce.provider r = "local".

Lemma local_account_spec name r :
  Ecommerce.same_key (Ecommerce.username r) name && String.eqb (Ecommerce.provider r) "local" = true
  <-> local_account name r.
Proof.
  unfold local_account, Ecommerce.same_key. rewrite andb_true_iff, String.eqb_eq.
  destruct (Ecommerce.username r) as [u |].
  - rewrite String.eqb_eq. split; intros [A B]; split; congruence.
  - split; intros [A B]; discriminate.
Qed.

Lemma Ecommerce_login_unknown (w : Ecommerce.World) (db : Ecommerce.DB) req un pw name :
  credentials req un pw -> prepareValue un = Some name ->
  (forall r, In r (Ecommerce.users db) -> ~ local_account name r) ->
  Ecommerce.post_auth_login w req db = (db, fail 401 msg_bad_credentials).
Proof.
  intros (Hu & Hp & Htu & Htp) Hname Hnone.
  unfold Ecommerce.post_auth_login, try_catch, bind, lift, ret.
  rewrite Hu, Hp, Htu, Htp, Hname. simpl.
  rewrite filter_nil; [reflexivity |].
  intros r Hin. apply not_true_is_false. rewrite local_account_spec. auto.
Qed.

Lemma Ecommerce_login_wrong_password (w : Ecommerce.World) (db : Ecommerce.DB) req un pw name :
  credentials req un pw -> prepareValue un = Some name ->
  (exists r, In r (Ecommerce.users db) /\ local_account name r) ->
  (forall r, In r (Ecommerce.users db) -> local_account name r ->
             compare pw (Ecommerce.password r) = Ok false) ->
  Ecommerce.post_auth_login w req db = (db, fail 401 msg_bad_credentials).
Proof.
  intros (Hu & Hp & Htu & Htp) Hname (r0 & Hin0 & Hr0) Hbad.
  unfold Ecommerce.post_auth_login, try_catch, bind, lift, ret.
  rewrite Hu, Hp, Htu, Htp, Hname. simpl.
  destruct (filter_cons_of
              (fun u => Ecommerce.same_key (Ecommerce.username u) name
                        && String.eqb (Ecommerce.provider u) "local")
              (Ecommerce.users db) r0 Hin0) as (y & rest & E).
  { apply local_account_spec. exact Hr0. }
  rewrite E. apply filter_head in E as [Hin Hy]. apply local_account_spec in Hy.
  rewrite (Hbad y Hin Hy). reflexivity.
Qed.


End Login.

(** ** Registration *)

(** [req.body.k], for a body that was parsed. *)
Definition field (req : Request) (k : string) : JsVal := get_opt (body req) k.

Lemma get_parsed (v : JsVal) (k : string) :
  nullish v = false -> get v k = Ok (get_opt v k).
Proof. destruct v; try discriminate; reflexivity. Qed.

Lemma prepareValue_truthy `{Libs} (v : JsVal) :
  truthy v = true -> exists s, prepareValue v = Some s.
Proof. destruct v; try discriminate; simpl; eauto. Qed.

(** The three required fields are all present. *)
Definition required_present (req : Request) : bool :=
  truthy (field req "username") && truthy (field req "password") && truthy (field req "nickname").

Lemma required_absent_guard (req : Request) :
  required_present req = false ->
  negb (truthy (field req "username")) || negb (truthy (field req "password"))
  || negb (truthy (field req "nickname")) = true.
Proof.
  unfold required_present.
  destruct (truthy (field req "username")), (truthy (field req "password")),
    (truthy (field req "nickname")); simpl; congruence.
Qed.

Lemma required_present_guard (req : Request) :
  required_present req = true ->
  truthy (field req "username") = true /\ truthy (field req "password") = true /\
  truthy (field req "nickname") = true.
Proof.
  unfold required_present. rewrite !andb_true_iff. tauto.
Qed.

(** The claim as stated, read on the dangun variant: a password shorter than
    6 characters is refused with status 400. *)
Definition dangun_refuses_short_passwords : Prop :=
  forall (L : Libs) (w : Dangun.World) (req : Request) (db : Dangun.DB) (pw : string),
    field req "password" = JStr pw -> (String.length pw < 6)%nat ->
    status_of (snd (Dangun.post_auth_register w req db)) = Some 400.


Section Register.
Context `{Libs}.

Lemma Ecommerce_register_missing (w : Ecommerce.World) req db :
  nullish (body req) = false -> required_present req = false ->
  Ecommerce.post_auth_register w req db = (db, fail 400 msg_fields_required).
Proof.
  intros Hb Hm. apply required_absent_guard in Hm.
  unfold Ecommerce.post_auth_register, try_catch, bind, lift, ret.
  rewrite !(get_parsed _ _ Hb). fold (field req "username") (field req "password") (field req "nickname").
  rewrite Hm. reflexivity.
Qed.

Lemma Ecommerce_register_short (w : Ecommerce.World) req db pw :
  nullish (body req) = false -> required_present req = true ->
  field req "password" = JStr pw -> (String.length pw < 6)%nat ->
  Ecommerce.post_auth_register w req db = (db, fail 400 Ecommerce.msg_password_too_short).
Proof.
  intros Hb Hp Hpw Hlen. apply required_present_guard in Hp as (Hu & Hp & Hn).
  unfold Ecommerce.post_auth_register, try_catch, bind, lift, ret.
  rewrite !(get_parsed _ _ Hb). fold (field req "username") (field req "password") (field req "nickname").
  rewrite Hu, Hp, Hn, Hpw. simpl.
  destruct (Z.ltb_spec (Z.of_nat (String.length pw)) 6); [reflexivity | lia].
Qed.

(** Whatever the request, a store that differs afterwards means that both
    checks were passed, by a string password. *)
Lemma Ecommerce_register_proceeds (w : Ecommerce.World) req db :
  fst (Ecommerce.post_auth_register w req db) <> db ->
  required_present req = true /\
  exists pw, field req "password" = JStr pw /\ (6 <= String.length pw)%nat.
Proof.
  intros Hd.
  destruct (nullish (body req)) eqn:Hb.
  { exfalso. apply Hd. unfold Ecommerce.post_auth_register, try_catch, bind, lift.
    destruct (body req); try discriminate; reflexivity. }
  destruct (required_present req) eqn:Hp.
  2:{ exfalso. apply Hd. rewrite Ecommerce_register_missing; auto. }
  split; [reflexivity |].
  destruct (field req "password") as [| | b | n | pw | xs | fs] eqn:Hpw.
  1-4,6-7: exfalso; apply Hd;
    apply required_present_guard in Hp as (Hu & Hp & Hn);
    unfold Ecommerce.post_auth_register, try_catch, bind, lift, ret;
    rewrite !(get_parsed _ _ Hb);
    fold (field req "username") (field req "password") (field req "nickname");
    rewrite Hu, Hp, Hn, Hpw; simpl;
    repeat match goal with |- context [if ?c then _ else _] => destruct c end; reflexivity.
  exists pw. split; [reflexivity |].
  destruct (Nat.lt_ge_cases (String.length pw) 6) as [Hlt | Hge]; [| exact Hge].
  exfalso. apply Hd. rewrite (Ecommerce_register_short w req db pw); auto.
Qed.

Lemma Dangun_register_missing (w : Dangun.World) req db :
  nullish (body req) = false -> required_present req = false ->
  Dangun.post_auth_register w req db = (db, fail 400 msg_fields_required).
Proof.
  intros Hb Hm. apply required_absent_guard in Hm.
  unfold Dangun.post_auth_register, try_catch, bind, lift, ret.
  rewrite !(get_parsed _ _ Hb). fold (field req "username") (field req "password") (field req "nickname").
  rewrite Hm. reflexivity.
Qed.

(** In the dangun variant a string password of any length is hashed and the
    user stored, when the username and the next id are free. *)
Lemma Dangun_register_stores (w : Dangun.World) req db pw name nick :
  nullish (body req) = false -> required_present req = true ->
  field req "password" = JStr pw ->
  prepareValue (field req "username") = Some name ->
  prepareValue (field req "nickname") = Some nick ->
  (forall r, In r (Dangun.users db) ->
             Dangun.id r <> Dangun.users_id_seq db /\ Dangun.username r <> name) ->
  let row := Dangun.mkUser (Dangun.users_id_seq db) name (bcrypt_hash pw (Dangun.salt w)) nick
               (Some Dangun.default_location) None (Dangun.db_now w) in
  Dangun.post_auth_register w req db =
    (Dangun.mkDB (Dangun.users db ++ [row]) (Dangun.users_id_seq db + 1),
     success (JObj [("token", JStr (Dangun.sign_user w row)); ("user", Dangun.row_register row)])).
Proof.
  intros Hb Hp Hpw Hname Hnick Hfree row.
  apply required_present_guard in Hp as (Hu & Hp & Hn).
  unfold Dangun.post_auth_register, try_catch, bind, lift, ret.
  rewrite !(get_parsed _ _ Hb). fold (field req "username") (field req "password") (field req "nickname").
  rewrite Hu, Hp, Hn, Hpw. simpl. unfold Dangun.insert_user. rewrite Hname, Hnick.
  replace (existsb _ (Dangun.users db)) with false; [reflexivity |].
  symmetry. apply not_true_is_false. intros Hex.
  apply existsb_exists in Hex as (r & Hin & Hr).
  destruct (Hfree r Hin) as [Hid Hun].
  apply orb_true_iff in Hr as [Hr | Hr].
  - apply Z.eqb_eq in Hr. contradiction.
  - apply String.eqb_eq in Hr. contradiction.
Qed.


End Register.

(** ** A program logic for handlers

    [hoare I m Q]: from a store satisfying [I], [m] leaves a store satisfying
    [I] and, when it does not raise, a result satisfying [Q]. *)

Section Hoare.
Context {S : Type}.

Definition hoare {A} (I : S -> Prop) (m : M S A) (Q : A -> Prop) : Prop :=
  forall s, I s ->
    I (fst (m s)) /\ match snd (m s) with Ok a => Q a | Throw _ => True end.

(** The same for a whole handler, which always answers. *)
Definition answers (I : S -> Prop) (h : S -> S * Response) (Q : Response -> Prop) : Prop :=
  forall s, I s -> I (fst (h s)) /\ Q (snd (h s)).

Lemma hoare_ret {A} (I : S -> Prop) (a : A) (Q : A -> Prop) : Q a -> hoare I (ret a) Q.
Proof. intros Ha s Hs. simpl. auto. Qed.

Lemma hoare_lift {A} (I : S -> Prop) (r : Res A) (Q : A -> Prop) :
  (forall a, r = Ok a -> Q a) -> hoare I (lift r) Q.
Proof. intros Hr s Hs. simpl. split; [exact Hs |]. destruct r; auto. Qed.

Lemma hoare_bind {A B} (I : S -> Prop) (m : M S A) (k : A -> M S B) (P : A -> Prop) (Q : B -> Prop) :
  hoare I m P -> (forall a, P a -> hoare I (k a) Q) -> hoare I (bind m k) Q.
Proof.
  intros Hm Hk s Hs. unfold bind. specialize (Hm s Hs).
  destruct (m s) as [s' [a | e]]; simpl in *.
  - destruct Hm as [Hs' Ha]. exact (Hk a Ha s' Hs').
  - tauto.
Qed.

Lemma answers_try_catch (I : S -> Prop) (m : M S Response) (h : Exn -> Response) (Q : Response -> Prop) :
  hoare I m Q -> (forall e, Q (h e)) -> answers I (try_catch m h) Q.
Proof.
  intros Hm Hh s Hs. unfold try_catch. specialize (Hm s Hs).
  destruct (m s) as [s' [r | e]]; simpl in *; intuition.
Qed.

Lemma answers_protected `{Libs} (I : S -> Prop) secret now (h : Request -> S -> S * Response)
    (req : Request) (Q : Response -> Prop) :
  Q (fail 401 msg_login_required) -> Q (fail 401 msg_invalid_token) ->
  (forall req', answers I (h req') Q) -> answers I (protected secret now h req) Q.
Proof.
  intros Q1 Q2 Hh s Hs. unfold protected, auth.
  destruct (authorization req) as [header |]; [| simpl; auto].
  destruct (String.eqb header "" || negb (startsWith header "Bearer ")); [simpl; auto |].
  destruct (jwt_verify _ _ _); [apply Hh, Hs | simpl; auto].
Qed.

End Hoare.

(** ** No password hash in responses *)

(** Does a member named [k] occur in [v], at any depth? *)
Fixpoint has_member (k : string) (v : JsVal) : bool :=
  match v with
  | JObj fs =>
      (fix go (l : list (string * JsVal)) : bool :=
         match l with
         | [] => false
         | (k', x) :: rest => String.eqb k k' || has_member k x || go rest
         end) fs
  | JArr xs =>
      (fix go (l : list JsVal) : bool :=
         match l with
         | [] => false
         | x :: rest => has_member k x || go rest
         end) xs
  | _ => false
  end.

Definition exposes_password (r : Response) : bool :=
  match r with
  | ResJson _ b => has_member "password" b
  | ResRedirect _ => false
  end.

Definition discreet (r : Response) : Prop := exposes_password r = false.

Lemma discreet_fail st msg : discreet (fail st msg).
Proof. reflexivity. Qed.

Lemma opt_js_cases (o : option string) : (exists s, opt_js o = JStr s) \/ opt_js o = JNull.
Proof. destruct o; simpl; eauto. Qed.

Ltac opt_js_split :=
  repeat match goal with
         | |- context [opt_js ?o] =>
             let s := fresh "s" in
             let E := fresh "E" in
             destruct (opt_js_cases o) as [[s E] | E]; rewrite E
         end.

Lemma Dangun_register_discreet `{Libs} w (u : Dangun.User) :
  discreet (success (JObj [("token", JStr (Dangun.sign_user w u)); ("user", Dangun.row_register u)])).
Proof. unfold discreet, Dangun.row_register. opt_js_split; reflexivity. Qed.

Lemma Dangun_login_discreet `{Libs} w (u : Dangun.User) :
  discreet (success (JObj [("token", JStr (Dangun.sign_user w u)); ("user", Dangun.row_public u)])).
Proof. unfold discreet, Dangun.row_public. opt_js_split; reflexivity. Qed.

Lemma Dangun_me_discreet (u : Dangun.User) : discreet (success (Dangun.row_me u)).
Proof. unfold discreet, Dangun.row_me. opt_js_split; reflexivity. Qed.

Lemma Dangun_profile_discreet (rows : list Dangun.User) :
  discreet (success (Dangun.first_row Dangun.row_public rows)).
Proof.
  destruct rows as [| u rest]; [reflexivity |].
  unfold discreet, Dangun.first_row, Dangun.row_public. opt_js_split; reflexivity.
Qed.

Lemma Ecommerce_view_discreet (u : Ecommerce.User) (view : JsVal) :
  Ecommerce.sanitizeUser (Some u) = Ok view ->
  discreet (success view) /\
  forall tok, discreet (success (JObj [("token", JStr tok); ("user", view)])).
Proof.
  intros E. injection E as <-. unfold discreet.
  split; [| intros tok]; opt_js_split; reflexivity.
Qed.

Lemma Ecommerce_sanitize_some (o : option Ecommerce.User) (view : JsVal) :
  Ecommerce.sanitizeUser o = Ok view -> exists u, o = Some u.
Proof. destruct o; [eauto | discriminate]. Qed.

Lemma hoare_true {S A} (m : M S A) : hoare (fun _ => True) m (fun _ => True).
Proof. intros s _. split; [exact I |]. destruct (snd (m s)); exact I. Qed.

(** A step whose result is not looked at. *)
Ltac hoare_skip := eapply hoare_bind; [apply hoare_true | intros ? _].
Ltac hoare_skip_as x := eapply hoare_bind; [apply hoare_true | intros x _].

Lemma register_catch_discreet (e : Exn) : discreet (register_catch e).
Proof.
  destruct e; try apply discreet_fail.
  unfold register_catch. destruct (String.eqb code "23505"); apply discreet_fail.
Qed.

(** The stored hash replaced by [h]. *)
Definition Dangun_rehash (h : string) (u : Dangun.User) : Dangun.User :=
  Dangun.mkUser (Dangun.id u) (Dangun.username u) h (Dangun.nickname u) (Dangun.location u)
    (Dangun.profile_image u) (Dangun.created_at u).

Definition Ecommerce_rehash (h : option string) (u : Ecommerce.User) : Ecommerce.User :=
  Ecommerce.mkUser (Ecommerce.id u) (Ecommerce.username u) h (Ecommerce.nickname u)
    (Ecommerce.email u) (Ecommerce.phone u) (Ecommerce.profile_image u) (Ecommerce.kakao_id u)
    (Ecommerce.provider u) (Ecommerce.created_at u).

Section Views.
Context `{Libs}.

Lemma Dangun_handle_discreet route w req :
  answers (fun _ : Dangun.DB => True) (Dangun.handle route w req) discreet.
Proof.
  destruct route; simpl.
  - apply answers_try_catch; [| apply register_catch_discreet].
    do 3 hoare_skip.
    match goal with |- hoare _ (if ?c then _ else _) _ => destruct c end.
    { apply hoare_ret, discreet_fail. }
    do 2 hoare_skip. apply hoare_ret, Dangun_register_discreet.
  - apply answers_try_catch; [| intros e; apply discreet_fail].
    do 2 hoare_skip.
    match goal with |- hoare _ (if ?c then _ else _) _ => destruct c end.
    { apply hoare_ret, discreet_fail. }
    hoare_skip_as rows. destruct rows as [| user rest]; [apply hoare_ret, discreet_fail |].
    hoare_skip_as valid. destruct (negb valid); [apply hoare_ret, discreet_fail |].
    apply hoare_ret, Dangun_login_discreet.
  - apply answers_protected; try apply discreet_fail. intros req'.
    apply answers_try_catch; [| intros e; apply discreet_fail].
    hoare_skip. hoare_skip_as rows. destruct rows as [| row rest]; apply hoare_ret.
    + apply discreet_fail.
    + apply Dangun_me_discreet.
  - apply answers_protected; try apply discreet_fail. intros req'.
    apply answers_try_catch; [| intros e; apply discreet_fail].
    do 4 hoare_skip. apply hoare_ret, Dangun_profile_discreet.
Qed.

Lemma hoare_sanitize {S} (o : option Ecommerce.User) (k : JsVal -> M S Response) :
  (forall u view, Ecommerce.sanitizeUser (Some u) = Ok view ->
                  hoare (fun _ => True) (k view) discreet) ->
  hoare (fun _ => True) (bind (lift (Ecommerce.sanitizeUser o)) k) discreet.
Proof.
  intros Hk. eapply hoare_bind.
  - apply hoare_lift with (Q := fun view => exists u, Ecommerce.sanitizeUser (Some u) = Ok view).
    intros view E. destruct (Ecommerce_sanitize_some _ _ E) as [u ->]. eauto.
  - intros view [u E]. eauto.
Qed.

Lemma Ecommerce_handle_discreet route w req :
  answers (fun _ : Ecommerce.DB => True) (Ecommerce.handle route w req) discreet.
Proof.
  destruct route; simpl.
  - apply answers_try_catch; [| apply register_catch_discreet].
    do 5 hoare_skip.
    match goal with |- hoare _ (if ?c then _ else _) _ => destruct c end.
    { apply hoare_ret, discreet_fail. }
    hoare_skip.
    match goal with |- hoare _ (if ?c then _ else _) _ => destruct c end.
    { apply hoare_ret, discreet_fail. }
    do 3 hoare_skip. apply hoare_sanitize. intros u view E.
    apply hoare_ret, (Ecommerce_view_discreet u view E).
  - apply answers_try_catch; [| intros e; apply discreet_fail].
    do 2 hoare_skip.
    match goal with |- hoare _ (if ?c then _ else _) _ => destruct c end.
    { apply hoare_ret, discreet_fail. }
    hoare_skip_as rows. destruct rows as [| user rest]; [apply hoare_ret, discreet_fail |].
    hoare_skip_as valid. destruct (negb valid); [apply hoare_ret, discreet_fail |].
    hoare_skip. apply hoare_sanitize. intros u view E.
    apply hoare_ret, (Ecommerce_view_discreet u view E).
  - (* the callback only ever redirects *)
    intros db _. split; [exact I |].
    unfold Ecommerce.get_auth_kakao_callback, try_catch.
    match goal with |- discreet (snd (let (_, _) := ?m db in _)) => destruct (m db) as [db' [r | e]] eqn:E end;
      [| reflexivity].
    simpl. revert E. unfold bind, lift, ret.
    repeat match goal with
           | |- context [match ?x with _ => _ end] => destruct x eqn:?
           end; intros E; inversion E; reflexivity.
  - apply answers_protected; try apply discreet_fail. intros req'.
    apply answers_try_catch; [| intros e; apply discreet_fail].
    hoare_skip. hoare_skip_as rows. destruct rows as [| row rest]; [apply hoare_ret, discreet_fail |].
    apply hoare_sanitize. intros u view E.
    apply hoare_ret, (Ecommerce_view_discreet u view E).
  - apply answers_protected; try apply discreet_fail. intros req'.
    apply answers_try_catch; [| intros e; apply discreet_fail].
    do 5 hoare_skip. apply hoare_sanitize. intros u view E.
    apply hoare_ret, (Ecommerce_view_discreet u view E).
Qed.

(** C4.  No response of the auth routes (register, login, profile read and
    update, and the federated callback), successful or not, has a member
    named [password] at any depth; and the user views are computed without
    reading the password column. *)
Theorem responses_hide_password :
  (forall route w req db, exposes_password (snd (Dangun.handle route w req db)) = false) /\
  (forall route w req db, exposes_password (snd (Ecommerce.handle route w req db)) = false) /\
  (forall h u,
      Dangun.row_register (Dangun_rehash h u) = Dangun.row_register u /\
      Dangun.row_public (Dangun_rehash h u) = Dangun.row_public u /\
      Dangun.row_me (Dangun_rehash h u) = Dangun.row_me u) /\
  (forall h u,
      Ecommerce.sanitizeUser (Some (Ecommerce_rehash h u)) = Ecommerce.sanitizeUser (Some u)).
Proof.
  split; [| split; [| split]].
  - intros route w req db. apply (Dangun_handle_discreet route w req db I).
  - intros route w req db. apply (Ecommerce_handle_discreet route w req db I).
  - intros h u. repeat split.
  - intros h u. reflexivity.
Qed.

End Views.

(** ** Profile update *)

Lemma Forall2_map_self {A} (R : A -> A -> Prop) (g : A -> A) (l : list A) :
  (forall x, R x (g x)) -> Forall2 R l (map g l).
Proof. intros Hg. induction l; simpl; constructor; auto. Qed.

Lemma filter_map_stable {A} (f : A -> bool) (g : A -> A) (l : list A) :
  (forall x, f (g x) = f x) -> List.filter f (map g l) = map g (List.filter f l).
Proof.
  intros Hfg. induction l as [| x l IH]; simpl; [reflexivity |].
  rewrite Hfg. destruct (f x); simpl; rewrite IH; reflexivity.
Qed.

Lemma map_untouched {A} (f : A -> bool) (g : A -> A) (l : list A) :
  (forall x, In x l -> f x = false) -> map (fun x => if f x then g x else x) l = l.
Proof.
  intros Hf. induction l as [| x l IH]; simpl; [reflexivity |].
  rewrite (Hf x) by (left; reflexivity). f_equal. apply IH. intros y Hy. apply Hf. right. exact Hy.
Qed.

(** The row [u] with its nickname replaced by [x]. *)
Definition Dangun_with_nickname (x : string) (u : Dangun.User) : Dangun.User :=
  Dangun.mkUser (Dangun.id u) (Dangun.username u) (Dangun.password u) x (Dangun.location u)
    (Dangun.profile_image u) (Dangun.created_at u).

Definition Ecommerce_with_nickname (x : string) (u : Ecommerce.User) : Ecommerce.User :=
  Ecommerce.mkUser (Ecommerce.id u) (Ecommerce.username u) (Ecommerce.password u) x
    (Ecommerce.email u) (Ecommerce.phone u) (Ecommerce.profile_image u) (Ecommerce.kakao_id u)
    (Ecommerce.provider u) (Ecommerce.created_at u).

(** What the update may do to one row, in the dangun variant: nothing to a
    row of another user; on the caller's row, each of nickname and location
    takes the supplied value, or keeps its own when the parameter is NULL;
    no other column changes. *)
Definition Dangun_coalesced (uid : Z) (nick loc : option string) (u u' : Dangun.User) : Prop :=
  Dangun.id u' = Dangun.id u /\ Dangun.username u' = Dangun.username u /\
  Dangun.password u' = Dangun.password u /\ Dangun.profile_image u' = Dangun.profile_image u /\
  Dangun.created_at u' = Dangun.created_at u /\
  (Dangun.id u <> uid -> u' = u) /\
  (Dangun.id u = uid ->
   Dangun.nickname u' = match nick with Some x => x | None => Dangun.nickname u end /\
   Dangun.location u' = match loc with Some x => Some x | None => Dangun.location u end).

Definition Ecommerce_coalesced (uid : Z) (nick mail ph : option string)
    (u u' : Ecommerce.User) : Prop :=
  Ecommerce.id u' = Ecommerce.id u /\ Ecommerce.username u' = Ecommerce.username u /\
  Ecommerce.password u' = Ecommerce.password u /\
  Ecommerce.profile_image u' = Ecommerce.profile_image u /\
  Ecommerce.kakao_id u' = Ecommerce.kakao_id u /\ Ecommerce.provider u' = Ecommerce.provider u /\
  Ecommerce.created_at u' = Ecommerce.created_at u /\
  (Ecommerce.id u <> uid -> u' = u) /\
  (Ecommerce.id u = uid ->
   Ecommerce.nickname u' = match nick with Some x => x | None => Ecommerce.nickname u end /\
   Ecommerce.email u' = match mail with Some x => Some x | None => Ecommerce.email u end /\
   Ecommerce.phone u' = match ph with Some x => Some x | None => Ecommerce.phone u end).

Lemma prepareValue_nullish `{Libs} (v : JsVal) : nullish v = true -> prepareValue v = None.
Proof. destruct v; try discriminate; reflexivity. Qed.

Section Profile.
Context `{Libs}.

Lemma Dangun_profile_run req db p :
  nullish (body req) = false -> user req = Some p ->
  let uid := c_id (p_claims p) in
  let nick := prepareValue (field req "nickname") in
  let loc := prepareValue (field req "location") in
  let users' := map (fun u => if Dangun.id u =? uid then Dangun.set_profile nick loc u else u)
                    (Dangun.users db) in
  Dangun.profile_handler req db =
    (Dangun.mkDB users' (Dangun.users_id_seq db),
     success (Dangun.first_row Dangun.row_public
                (map (Dangun.set_profile nick loc)
                     (List.filter (fun u => Dangun.id u =? uid) (Dangun.users db))))).
Proof.
  intros Hb Hu uid nick loc users'.
  unfold Dangun.profile_handler, try_catch, bind, lift, ret, Dangun.user_id, Dangun.update_profile.
  rewrite !(get_parsed _ _ Hb), Hu. simpl. fold uid.
  fold (field req "nickname") (field req "location"). fold nick loc. fold users'.
  do 3 f_equal. unfold users'.
  rewrite filter_map_stable.
  - apply map_ext_in. intros u Hin. apply filter_In in Hin as [_ Hid]. rewrite Hid. reflexivity.
  - intros u. destruct (Dangun.id u =? uid) eqn:E; simpl; rewrite ?E; reflexivity.
Qed.

Lemma Ecommerce_profile_run req db p :
  nullish (body req) = false -> user req = Some p ->
  let uid := c_id (p_claims p) in
  let nick := prepareValue (field req "nickname") in
  let mail := prepareValue (field req "email") in
  let ph := prepareValue (field req "phone") in
  let users' := map (fun u => if Ecommerce.id u =? uid then Ecommerce.set_profile nick mail ph u else u)
                    (Ecommerce.users db) in
  Ecommerce.profile_handler req db =
    (Ecommerce.mkDB users' (Ecommerce.users_id_seq db),
     match Ecommerce.sanitizeUser
             (head (map (Ecommerce.set_profile nick mail ph)
                        (List.filter (fun u => Ecommerce.id u =? uid) (Ecommerce.users db)))) with
     | Ok view => success view
     | Throw e => server_error e
     end).
Proof.
  intros Hb Hu uid nick mail ph users'.
  unfold Ecommerce.profile_handler, try_catch, bind, lift, ret, Ecommerce.user_id,
    Ecommerce.update_profile.
  rewrite !(get_parsed _ _ Hb), Hu. simpl. fold uid.
  fold (field req "nickname") (field req "email") (field req "phone"). fold nick mail ph. fold users'.
  replace (List.filter (fun u => Ecommerce.id u =? uid) users')
    with (map (Ecommerce.set_profile nick mail ph)
              (List.filter (fun u => Ecommerce.id u =? uid) (Ecommerce.users db))).
  - destruct (Ecommerce.sanitizeUser _); reflexivity.
  - unfold users'. rewrite filter_map_stable.
    + apply map_ext_in. intros u Hin. apply filter_In in Hin as [_ Hid]. rewrite Hid. reflexivity.
    + intros u. destruct (Ecommerce.id u =? uid) eqn:E; simpl; rewrite ?E; reflexivity.
Qed.

End Profile.

Section ProfileClaims.
Context `{Libs}.

Lemma Dangun_profile_coalesced req db p :
  nullish (body req) = false -> user req = Some p ->
  Forall2 (Dangun_coalesced (c_id (p_claims p)) (prepareValue (field req "nickname"))
             (prepareValue (field req "location")))
    (Dangun.users db) (Dangun.users (fst (Dangun.profile_handler req db))).
Proof.
  intros Hb Hu. rewrite (Dangun_profile_run req db p Hb Hu). simpl.
  apply Forall2_map_self. intros u. unfold Dangun_coalesced.
  destruct (Z.eqb_spec (Dangun.id u) (c_id (p_claims p))) as [E | E]; simpl.
  - repeat split; try reflexivity; contradiction.
  - repeat split; try reflexivity; contradiction.
Qed.

Lemma Ecommerce_profile_coalesced req db p :
  nullish (body req) = false -> user req = Some p ->
  Forall2 (Ecommerce_coalesced (c_id (p_claims p)) (prepareValue (field req "nickname"))
             (prepareValue (field req "email")) (prepareValue (field req "phone")))
    (Ecommerce.users db) (Ecommerce.users (fst (Ecommerce.profile_handler req db))).
Proof.
  intros Hb Hu. rewrite (Ecommerce_profile_run req db p Hb Hu). simpl.
  apply Forall2_map_self. intros u. unfold Ecommerce_coalesced.
  destruct (Z.eqb_spec (Ecommerce.id u) (c_id (p_claims p))) as [E | E]; simpl.
  - repeat split; try reflexivity; contradiction.
  - repeat split; try reflexivity; contradiction.
Qed.

Lemma Dangun_profile_nickname_only req db p x :
  nullish (body req) = false -> user req = Some p ->
  field req "nickname" = JStr x -> nullish (field req "location") = true ->
  Dangun.users (fst (Dangun.profile_handler req db)) =
    map (fun u => if Dangun.id u =? c_id (p_claims p) then Dangun_with_nickname x u else u)
        (Dangun.users db) /\
  forall u, In u (Dangun.users db) -> Dangun.id u = c_id (p_claims p) ->
    exists u0, In u0 (Dangun.users db) /\ Dangun.id u0 = c_id (p_claims p) /\
               snd (Dangun.profile_handler req db) =
                 success (Dangun.row_public (Dangun_with_nickname x u0)).
Proof.
  intros Hb Hu Hn Hl. rewrite (Dangun_profile_run req db p Hb Hu). simpl.
  rewrite Hn, (prepareValue_nullish _ Hl). simpl. split; [reflexivity |].
  intros u Hin Hid.
  destruct (filter_cons_of (fun u => Dangun.id u =? c_id (p_claims p)) (Dangun.users db) u Hin)
    as (u0 & rest & E); [apply Z.eqb_eq, Hid |].
  rewrite E. apply filter_head in E as [Hin0 Hid0]. apply Z.eqb_eq in Hid0.
  exists u0. repeat split; assumption.
Qed.

Lemma Ecommerce_profile_nickname_only req db p x :
  nullish (body req) = false -> user req = Some p ->
  field req "nickname" = JStr x ->
  nullish (field req "email") = true -> nullish (field req "phone") = true ->
  Ecommerce.users (fst (Ecommerce.profile_handler req db)) =
    map (fun u => if Ecommerce.id u =? c_id (p_claims p) then Ecommerce_with_nickname x u else u)
        (Ecommerce.users db) /\
  forall u, In u (Ecommerce.users db) -> Ecommerce.id u = c_id (p_claims p) ->
    exists u0 view, In u0 (Ecommerce.users db) /\ Ecommerce.id u0 = c_id (p_claims p) /\
                    Ecommerce.sanitizeUser (Some (Ecommerce_with_nickname x u0)) = Ok view /\
                    snd (Ecommerce.profile_handler req db) = success view.
Proof.
  intros Hb Hu Hn Hm Hp. rewrite (Ecommerce_profile_run req db p Hb Hu). simpl.
  rewrite Hn, (prepareValue_nullish _ Hm), (prepareValue_nullish _ Hp). simpl.
  split; [reflexivity |].
  intros u Hin Hid.
  destruct (filter_cons_of (fun u => Ecommerce.id u =? c_id (p_claims p)) (Ecommerce.users db) u Hin)
    as (u0 & rest & E); [apply Z.eqb_eq, Hid |].
  rewrite E. apply filter_head in E as [Hin0 Hid0]. apply Z.eqb_eq in Hid0.
  exists u0. eexists. repeat split; try eassumption; reflexivity.
Qed.


Lemma Dangun_profile_unknown req db p :
  nullish (body req) = false -> user req = Some p ->
  (forall u, In u (Dangun.users db) -> Dangun.id u <> c_id (p_claims p)) ->
  Dangun.profile_handler req db = (db, ResJson 200 (JObj [("success", JBool true)])).
Proof.
  intros Hb Hu Hnone. rewrite (Dangun_profile_run req db p Hb Hu). simpl.
  rewrite filter_nil, map_untouched.
  - destruct db; reflexivity.
  - intros u Hin. apply Z.eqb_neq. auto.
  - intros u Hin. apply Z.eqb_neq. auto.
Qed.

Lemma Ecommerce_profile_unknown req db p :
  nullish (body req) = false -> user req = Some p ->
  (forall u, In u (Ecommerce.users db) -> Ecommerce.id u <> c_id (p_claims p)) ->
  Ecommerce.profile_handler req db = (db, fail 500 msg_server_error).
Proof.
  intros Hb Hu Hnone. rewrite (Ecommerce_profile_run req db p Hb Hu). simpl.
  rewrite filter_nil, map_untouched.
  - destruct db; reflexivity.
  - intros u Hin. apply Z.eqb_neq. auto.
  - intros u Hin. apply Z.eqb_neq. auto.
Qed.


End ProfileClaims.

(** ** Usernames stay taken *)

Definition Dangun_has_username (name : string) (db : Dangun.DB) : Prop :=
  exists u, In u (Dangun.users db) /\ Dangun.username u = name.

Definition Ecommerce_has_username (name : string) (db : Ecommerce.DB) : Prop :=
  exists u, In u (Ecommerce.users db) /\ Ecommerce.username u = Some name.

Lemma hoare_state {S A} (I : S -> Prop) (m : M S A) :
  (forall s, I s -> I (fst (m s))) -> hoare I m (fun _ => True).
Proof. intros Hm s Hs. split; [auto |]. destruct (snd (m s)); exact Logic.I. Qed.

Lemma hoare_lift_any {S A} (I : S -> Prop) (r : Res A) : hoare I (lift r) (fun _ => True).
Proof. apply hoare_state. intros s Hs. exact Hs. Qed.

Lemma Dangun_insert_keeps name w un pw ni :
  hoare (Dangun_has_username name) (Dangun.insert_user w un pw ni) (fun _ => True).
Proof.
  apply hoare_state. intros db (u & Hin & Hu). unfold Dangun.insert_user.
  destruct un, ni; simpl; try (exists u; auto; fail).
  destruct (existsb _ _); simpl; exists u; split; auto. apply in_or_app. auto.
Qed.

Lemma Dangun_select_username_keeps name un :
  hoare (Dangun_has_username name) (Dangun.select_by_username un) (fun _ => True).
Proof. apply hoare_state. intros db Hdb. exact Hdb. Qed.

Lemma Dangun_select_id_keeps name uid :
  hoare (Dangun_has_username name) (Dangun.select_by_id uid) (fun _ => True).
Proof. apply hoare_state. intros db Hdb. exact Hdb. Qed.

Lemma Dangun_update_keeps name nick loc uid :
  hoare (Dangun_has_username name) (Dangun.update_profile nick loc uid) (fun _ => True).
Proof.
  apply hoare_state. intros db (u & Hin & Hu). simpl.
  exists (if Dangun.id u =? uid then Dangun.set_profile nick loc u else u). split.
  - apply (in_map (fun u => if Dangun.id u =? uid then Dangun.set_profile nick loc u else u)), Hin.
  - destruct (Dangun.id u =? uid); exact Hu.
Qed.

Lemma Ecommerce_insert_keeps name mk ni :
  hoare (Ecommerce_has_username name) (Ecommerce.insert_row mk ni) (fun _ => True).
Proof.
  apply hoare_state. intros db (u & Hin & Hu). unfold Ecommerce.insert_row.
  destruct ni; simpl; try (exists u; auto; fail).
  destruct (Ecommerce.violates_unique _ _); simpl; exists u; split; auto. apply in_or_app. auto.
Qed.

Lemma Ecommerce_select_local_keeps name un prov :
  hoare (Ecommerce_has_username name) (Ecommerce.select_local un prov) (fun _ => True).
Proof. apply hoare_state. intros db Hdb. exact Hdb. Qed.

Lemma Ecommerce_select_kakao_keeps name kid :
  hoare (Ecommerce_has_username name) (Ecommerce.select_by_kakao_id kid) (fun _ => True).
Proof. apply hoare_state. intros db Hdb. exact Hdb. Qed.

Lemma Ecommerce_select_id_keeps name uid :
  hoare (Ecommerce_has_username name) (Ecommerce.select_by_id uid) (fun _ => True).
Proof. apply hoare_state. intros db Hdb. exact Hdb. Qed.

Lemma Ecommerce_update_profile_keeps name nick mail ph uid :
  hoare (Ecommerce_has_username name) (Ecommerce.update_profile nick mail ph uid) (fun _ => True).
Proof.
  apply hoare_state. intros db (u & Hin & Hu). simpl.
  exists (if Ecommerce.id u =? uid then Ecommerce.set_profile nick mail ph u else u). split.
  - apply (in_map (fun u => if Ecommerce.id u =? uid then Ecommerce.set_profile nick mail ph u else u)), Hin.
  - destruct (Ecommerce.id u =? uid); exact Hu.
Qed.

Lemma Ecommerce_update_kakao_keeps name nick img mail kid :
  hoare (Ecommerce_has_username name) (Ecommerce.update_kakao nick img mail kid) (fun _ => True).
Proof.
  apply hoare_state. intros db (u & Hin & Hu). unfold Ecommerce.update_kakao.
  destruct nick as [ni |].
  - simpl.
    exists (if Ecommerce.same_key (Ecommerce.kakao_id u) kid then Ecommerce.set_kakao ni img mail u else u).
    split.
    + apply (in_map (fun u => if Ecommerce.same_key (Ecommerce.kakao_id u) kid
                              then Ecommerce.set_kakao ni img mail u else u)), Hin.
    + destruct (Ecommerce.same_key _ _); exact Hu.
  - destruct (existsb _ _); simpl; exists u; auto.
Qed.

(** One step through a handler that keeps the invariant. *)
Ltac keep_step :=
  first
    [ apply hoare_ret; exact I
    | apply hoare_lift_any
    | apply Dangun_insert_keeps | apply Dangun_select_username_keeps
    | apply Dangun_select_id_keeps | apply Dangun_update_keeps
    | apply Ecommerce_insert_keeps | apply Ecommerce_select_local_keeps
    | apply Ecommerce_select_kakao_keeps | apply Ecommerce_select_id_keeps
    | apply Ecommerce_update_profile_keeps | apply Ecommerce_update_kakao_keeps
    | eapply hoare_bind with (P := fun _ => True); [| intros ? _]
    | match goal with
      | |- hoare _ (if ?c then _ else _) _ => destruct c
      | |- hoare _ (match ?x with _ => _ end) _ => destruct x
      end ].

Section Usernames.
Context `{Libs}.

Lemma Dangun_handle_keeps name route w req :
  answers (Dangun_has_username name) (Dangun.handle route w req) (fun _ => True).
Proof.
  destruct route; simpl.
  - apply answers_try_catch; [| intros; exact I]. repeat keep_step.
  - apply answers_try_catch; [| intros; exact I]. repeat keep_step.
  - apply answers_protected; try exact I. intros req'.
    apply answers_try_catch; [| intros; exact I]. repeat keep_step.
  - apply answers_protected; try exact I. intros req'.
    apply answers_try_catch; [| intros; exact I]. repeat keep_step.
Qed.

Lemma Ecommerce_handle_keeps name route w req :
  answers (Ecommerce_has_username name) (Ecommerce.handle route w req) (fun _ => True).
Proof.
  destruct route; simpl.
  - apply answers_try_catch; [| intros; exact I]. repeat keep_step.
  - apply answers_try_catch; [| intros; exact I]. repeat keep_step.
  - apply answers_try_catch; [| intros; exact I]. repeat keep_step.
  - apply answers_protected; try exact I. intros req'.
    apply answers_try_catch; [| intros; exact I]. repeat keep_step.
  - apply answers_protected; try exact I. intros req'.
    apply answers_try_catch; [| intros; exact I]. repeat keep_step.
Qed.

Lemma Dangun_run_keeps name evs db :
  Dangun_has_username name db -> Dangun_has_username name (Dangun.run evs db).
Proof.
  revert db. induction evs as [| [[route w] req] evs IH]; intros db Hdb; simpl; [exact Hdb |].
  apply IH. apply (Dangun_handle_keeps name route w req db Hdb).
Qed.

Lemma Ecommerce_run_keeps name evs db :
  Ecommerce_has_username name db -> Ecommerce_has_username name (Ecommerce.run evs db).
Proof.
  revert db. induction evs as [| [[route w] req] evs IH]; intros db Hdb; simpl; [exact Hdb |].
  apply IH. apply (Ecommerce_handle_keeps name route w req db Hdb).
Qed.

End Usernames.

(** ** Registering a taken username *)

Section Conflict.
Context `{Libs}.

Lemma Dangun_register_unparsed w req db :
  nullish (body req) = true ->
  Dangun.post_auth_register w req db = (db, fail 500 msg_server_error).
Proof.
  intros Hb. unfold Dangun.post_auth_register, try_catch, bind, lift.
  destruct (body req); try discriminate; reflexivity.
Qed.

Lemma Ecommerce_register_unparsed w req db :
  nullish (body req) = true ->
  Ecommerce.post_auth_register w req db = (db, fail 500 msg_server_error).
Proof.
  intros Hb. unfold Ecommerce.post_auth_register, try_catch, bind, lift.
  destruct (body req); try discriminate; reflexivity.
Qed.

(** The dangun register on a parsed body whose required fields are present. *)
Lemma Dangun_register_run w req db :
  nullish (body req) = false -> required_present req = true ->
  Dangun.post_auth_register w req db =
    match hash (field req "password") (Dangun.salt w) with
    | Throw e => (db, register_catch e)
    | Ok hashed =>
        match Dangun.insert_user w (prepareValue (field req "username")) hashed
                (prepareValue (field req "nickname")) db with
        | (db', Ok user) =>
            (db', success (JObj [("token", JStr (Dangun.sign_user w user));
                                 ("user", Dangun.row_register user)]))
        | (db', Throw e) => (db', register_catch e)
        end
    end.
Proof.
  intros Hb Hp. apply required_present_guard in Hp as (Hu & Hp & Hn).
  unfold Dangun.post_auth_register, try_catch, bind, lift, ret.
  rewrite !(get_parsed _ _ Hb). fold (field req "username") (field req "password") (field req "nickname").
  rewrite Hu, Hp, Hn. simpl.
  destruct (hash _ _); [| reflexivity].
  destruct (Dangun.insert_user _ _ _ _ db) as [db' [user | e]]; reflexivity.
Qed.

(** The e-commerce register on a parsed body whose required fields are
    present. *)
Lemma Ecommerce_register_run w req db :
  nullish (body req) = false -> required_present req = true ->
  Ecommerce.post_auth_register w req db =
    if js_lt (get_opt (field req "password") "length") 6
    then (db, fail 400 Ecommerce.msg_password_too_short)
    else
      match hash (field req "password") (Ecommerce.salt w) with
      | Throw e => (db, register_catch e)
      | Ok hashed =>
          match Ecommerce.insert_local w (prepareValue (field req "username")) hashed
                  (prepareValue (field req "nickname"))
                  (prepareValue (js_or (field req "email") JNull))
                  (prepareValue (js_or (field req "phone") JNull)) db with
          | (db', Ok user) =>
              (db', match Ecommerce.generateToken w (Some user), Ecommerce.sanitizeUser (Some user) with
                    | Ok token, Ok view => success (JObj [("token", JStr token); ("user", view)])
                    | _, _ => fail 500 msg_server_error
                    end)
          | (db', Throw e) => (db', register_catch e)
          end
      end.
Proof.
  intros Hb Hp. apply required_present_guard in Hp as (Hu & Hp & Hn).
  unfold Ecommerce.post_auth_register, try_catch, bind, lift, ret.
  rewrite !(get_parsed _ _ Hb).
  fold (field req "username") (field req "password") (field req "nickname")
    (field req "email") (field req "phone").
  rewrite Hu, Hp, Hn. simpl.
  rewrite (get_parsed (field req "password") "length").
  2:{ destruct (field req "password"); try discriminate; reflexivity. }
  destruct (js_lt _ 6); [reflexivity |].
  destruct (hash _ _); [| reflexivity].
  destruct (Ecommerce.insert_local _ _ _ _ _ _ db) as [db' [user | e]]; reflexivity.
Qed.

Lemma status_register_catch (e : Exn) :
  status_of (register_catch e) = Some 409 \/ status_of (register_catch e) = Some 500.
Proof.
  destruct e; simpl; auto. destruct (String.eqb code "23505"); simpl; auto.
Qed.

Lemma Dangun_insert_ok w un pw ni db db' user :
  Dangun.insert_user w un pw ni db = (db', Ok user) ->
  un = Some (Dangun.username user) /\ In user (Dangun.users db').
Proof.
  unfold Dangun.insert_user. destruct un, ni; try discriminate.
  destruct (existsb _ _); [discriminate |].
  intros E. injection E as <- <-. simpl. split; [reflexivity |].
  apply in_or_app. right. left. reflexivity.
Qed.

Lemma Ecommerce_insert_local_ok w un pw ni mail ph db db' user :
  Ecommerce.insert_local w un pw ni mail ph db = (db', Ok user) ->
  un = Ecommerce.username user /\ In user (Ecommerce.users db').
Proof.
  unfold Ecommerce.insert_local, Ecommerce.insert_row. destruct ni; try discriminate.
  destruct (Ecommerce.violates_unique _ _); [discriminate |].
  intros E. injection E as <- <-. simpl. split; [reflexivity |].
  apply in_or_app. right. left. reflexivity.
Qed.

(** A register that answers 200 has stored a row under the username it was
    given. *)
Lemma Dangun_register_success w req db :
  status_of (snd (Dangun.post_auth_register w req db)) = Some 200 ->
  exists name, prepareValue (field req "username") = Some name /\
               Dangun_has_username name (fst (Dangun.post_auth_register w req db)).
Proof.
  destruct (nullish (body req)) eqn:Hb.
  { rewrite Dangun_register_unparsed by exact Hb. discriminate. }
  destruct (required_present req) eqn:Hp.
  2:{ rewrite Dangun_register_missing by assumption. discriminate. }
  rewrite Dangun_register_run by assumption.
  destruct (hash _ _) as [hashed | e].
  2:{ simpl. destruct (status_register_catch e) as [-> | ->]; discriminate. }
  destruct (Dangun.insert_user _ _ _ _ db) as [db' [user | e]] eqn:E.
  2:{ simpl. destruct (status_register_catch e) as [-> | ->]; discriminate. }
  intros _. apply Dangun_insert_ok in E as [Hun Hin].
  exists (Dangun.username user). split; [exact Hun |]. exists user. auto.
Qed.

Lemma Ecommerce_register_success w req db :
  status_of (snd (Ecommerce.post_auth_register w req db)) = Some 200 ->
  exists name, prepareValue (field req "username") = Some name /\
               Ecommerce_has_username name (fst (Ecommerce.post_auth_register w req db)).
Proof.
  destruct (nullish (body req)) eqn:Hb.
  { rewrite Ecommerce_register_unparsed by exact Hb. discriminate. }
  destruct (required_present req) eqn:Hp.
  2:{ rewrite Ecommerce_register_missing by assumption. discriminate. }
  rewrite Ecommerce_register_run by assumption.
  destruct (js_lt _ 6); [discriminate |].
  destruct (hash _ _) as [hashed | e].
  2:{ simpl. destruct (status_register_catch e) as [-> | ->]; discriminate. }
  destruct (Ecommerce.insert_local _ _ _ _ _ _ db) as [db' [user | e]] eqn:E.
  2:{ simpl. destruct (status_register_catch e) as [-> | ->]; discriminate. }
  intros _. apply Ecommerce_insert_local_ok in E as [Hun Hin].
  destruct (prepareValue_truthy (field req "username")) as [name Hname].
  { apply required_present_guard in Hp. tauto. }
  exists name. split; [exact Hname |]. exists user. split; [exact Hin |]. congruence.
Qed.

End Conflict.

(** The claim as stated, read on the e-commerce variant: once a register has
    succeeded, every later register with the same username answers 409,
    whatever its other fields. *)
Definition every_later_register_conflicts : Prop :=
  forall (L : Libs) (w1 w2 : Ecommerce.World) (req1 req2 : Request) (db0 : Ecommerce.DB),
    let out1 := Ecommerce.post_auth_register w1 req1 db0 in
    status_of (snd out1) = Some 200 ->
    field req2 "username" = field req1 "username" ->
    status_of (snd (Ecommerce.post_auth_register w2 req2 (fst out1))) = Some 409.


Section ConflictClaims.
Context `{Libs}.

Lemma Dangun_insert_taken w name pw ni db :
  Dangun_has_username name db ->
  Dangun.insert_user w (Some name) pw ni db =
    (Dangun.mkDB (Dangun.users db) (Dangun.users_id_seq db + 1),
     Throw (PgError (match ni with Some _ => "23505" | None => "23502" end))).
Proof.
  intros (u & Hin & Hu). unfold Dangun.insert_user. destruct ni; [| reflexivity].
  replace (existsb _ (Dangun.users db)) with true; [reflexivity |].
  symmetry. apply existsb_exists. exists u. split; [exact Hin |].
  apply orb_true_iff. right. apply String.eqb_eq. exact Hu.
Qed.

Lemma Ecommerce_insert_taken w name pw ni mail ph db :
  Ecommerce_has_username name db ->
  Ecommerce.insert_local w (Some name) pw ni mail ph db =
    (Ecommerce.mkDB (Ecommerce.users db) (Ecommerce.users_id_seq db + 1),
     Throw (PgError (match ni with Some _ => "23505" | None => "23502" end))).
Proof.
  intros (u & Hin & Hu). unfold Ecommerce.insert_local, Ecommerce.insert_row.
  destruct ni; [| reflexivity].
  replace (Ecommerce.violates_unique _ (Ecommerce.users db)) with true; [reflexivity |].
  symmetry. apply existsb_exists. exists u. split; [exact Hin |]. simpl.
  apply orb_true_iff. left. apply orb_true_iff. right.
  rewrite Hu. simpl. apply String.eqb_refl.
Qed.

Definition fails_400_409_500 (r : Response) : Prop :=
  status_of r = Some 400 \/ status_of r = Some 409 \/ status_of r = Some 500.

Lemma fails_register_catch e : fails_400_409_500 (register_catch e).
Proof. destruct (status_register_catch e); unfold fails_400_409_500; auto. Qed.

Lemma Dangun_register_taken w req db name :
  Dangun_has_username name db -> prepareValue (field req "username") = Some name ->
  let out := Dangun.post_auth_register w req db in
  Dangun.users (fst out) = Dangun.users db /\
  fails_400_409_500 (snd out) /\
  (nullish (body req) = false -> required_present req = true ->
   forall pw, field req "password" = JStr pw -> snd out = fail 409 msg_username_taken).
Proof.
  intros Hdb Hname out. unfold out.
  destruct (nullish (body req)) eqn:Hb.
  { rewrite Dangun_register_unparsed by exact Hb.
    repeat split; [right; right; reflexivity | discriminate]. }
  destruct (required_present req) eqn:Hp.
  2:{ rewrite Dangun_register_missing by assumption.
      repeat split; [left; reflexivity | discriminate]. }
  rewrite Dangun_register_run by assumption. rewrite Hname.
  destruct (field req "password") eqn:Hpw; unfold hash;
    try (simpl; repeat split; [right; right; reflexivity | intros; discriminate]).
  rewrite (Dangun_insert_taken w name _ _ db Hdb). cbn [fst snd Dangun.users].
  split; [reflexivity |]. split; [apply fails_register_catch |].
  intros _ _ pw _.
  destruct (prepareValue_truthy (field req "nickname")) as [ni ->]; [| reflexivity].
  apply required_present_guard in Hp. tauto.
Qed.

Lemma Ecommerce_register_taken w req db name :
  Ecommerce_has_username name db -> prepareValue (field req "username") = Some name ->
  let out := Ecommerce.post_auth_register w req db in
  Ecommerce.users (fst out) = Ecommerce.users db /\
  fails_400_409_500 (snd out) /\
  (nullish (body req) = false -> required_present req = true ->
   forall pw, field req "password" = JStr pw -> (6 <= String.length pw)%nat ->
              snd out = fail 409 msg_username_taken).
Proof.
  intros Hdb Hname out. unfold out.
  destruct (nullish (body req)) eqn:Hb.
  { rewrite Ecommerce_register_unparsed by exact Hb.
    repeat split; [right; right; reflexivity | discriminate]. }
  destruct (required_present req) eqn:Hp.
  2:{ rewrite Ecommerce_register_missing by assumption.
      repeat split; [left; reflexivity | discriminate]. }
  rewrite Ecommerce_register_run by assumption. rewrite Hname.
  destruct (js_lt _ 6) eqn:Hlt.
  { repeat split; [left; reflexivity |].
    intros _ _ pw Hpw Hlen. rewrite Hpw in Hlt. simpl in Hlt.
    apply Z.ltb_lt in Hlt. lia. }
  destruct (field req "password") eqn:Hpw; unfold hash;
    try (simpl; repeat split; [right; right; reflexivity | intros; discriminate]).
  rewrite (Ecommerce_insert_taken w name _ _ _ _ db Hdb). cbn [fst snd Ecommerce.users].
  split; [reflexivity |]. split; [apply fails_register_catch |].
  intros _ _ pw _ _.
  destruct (prepareValue_truthy (field req "nickname")) as [ni ->]; [| reflexivity].
  apply required_present_guard in Hp. tauto.
Qed.


End ConflictClaims.

(** ** The federated-login callback *)

(** The constants the callback computes from the provider's profile. *)
Definition kakaoId (kakaoUser : JsVal) : string := js_String (get_opt kakaoUser "id").

Definition kakaoNickname (kakaoUser : JsVal) : JsVal :=
  js_or (get_opt (get_opt kakaoUser "properties") "nickname") (JStr Ecommerce.kakao_default_nickname).

Definition kakaoEmail (kakaoUser : JsVal) : JsVal :=
  js_or (get_opt (get_opt kakaoUser "kakao_account") "email") JNull.

Definition kakaoProfileImage (kakaoUser : JsVal) : JsVal :=
  js_or (get_opt (get_opt kakaoUser "properties") "profile_image") JNull.

(** The callback was given a code, the provider granted an access token and
    answered the profile request with [kakaoUser]. *)
Definition provider_answers (w : Ecommerce.World) (req : Request) (kakaoUser : JsVal) : Prop :=
  truthy (get_opt (query req) "code") = true /\
  (exists tokenData,
      Ecommerce.kakao_token w = Ok tokenData /\
      truthy (get_opt tokenData "access_token") = true) /\
  Ecommerce.kakao_profile w = Ok kakaoUser /\
  nullish kakaoUser = false.

Definition success_redirect (token : string) : Response :=
  ResRedirect ("/#/kakao-callback?token=" +:+ token).

(** What a federated login may do to one stored row: nothing to a row of
    another provider identifier; on a row of identifier [kid] the nickname
    becomes [nick], profile image and email take the provider's value or
    keep their own when the provider gives none; no other column changes. *)
Definition refreshed (kid nick : string) (img mail : option string) (u u' : Ecommerce.User) : Prop :=
  Ecommerce.id u' = Ecommerce.id u /\ Ecommerce.provider u' = Ecommerce.provider u /\
  Ecommerce.username u' = Ecommerce.username u /\ Ecommerce.password u' = Ecommerce.password u /\
  Ecommerce.phone u' = Ecommerce.phone u /\ Ecommerce.kakao_id u' = Ecommerce.kakao_id u /\
  Ecommerce.created_at u' = Ecommerce.created_at u /\
  (Ecommerce.kakao_id u <> Some kid -> u' = u) /\
  (Ecommerce.kakao_id u = Some kid ->
   Ecommerce.nickname u' = nick /\
   Ecommerce.profile_image u' = match img with Some x => Some x | None => Ecommerce.profile_image u end /\
   Ecommerce.email u' = match mail with Some x => Some x | None => Ecommerce.email u end).

Lemma get_opt_truthy (v : JsVal) (k : string) :
  truthy (get_opt v k) = true -> get v k = Ok (get_opt v k).
Proof. destruct v; try discriminate; reflexivity. Qed.

Lemma same_key_spec (col : option string) (v : string) :
  Ecommerce.same_key col v = true <-> col = Some v.
Proof.
  destruct col as [c |]; simpl.
  - rewrite String.eqb_eq. split; congruence.
  - split; discriminate.
Qed.

Section Callback.
Context `{Libs}.

Lemma kakaoNickname_truthy ku : truthy (kakaoNickname ku) = true.
Proof.
  unfold kakaoNickname, js_or.
  destruct (truthy (get_opt (get_opt ku "properties") "nickname")) eqn:E; [exact E | reflexivity].
Qed.

(** The callback, once the provider has answered. *)
Lemma callback_run w req db ku :
  provider_answers w req ku ->
  Ecommerce.get_auth_kakao_callback w req db =
    match List.filter (fun u => Ecommerce.same_key (Ecommerce.kakao_id u) (kakaoId ku))
                      (Ecommerce.users db) with
    | _ :: _ =>
        match Ecommerce.update_kakao (prepareValue (kakaoNickname ku))
                (prepareValue (kakaoProfileImage ku)) (prepareValue (kakaoEmail ku))
                (kakaoId ku) db with
        | (db', Ok updated) =>
            (db', match Ecommerce.generateToken w (head updated) with
                  | Ok token => success_redirect token
                  | Throw _ => Ecommerce.login_error Ecommerce.msg_kakao_login_error
                  end)
        | (db', Throw _) => (db', Ecommerce.login_error Ecommerce.msg_kakao_login_error)
        end
    | [] =>
        match Ecommerce.insert_kakao w (prepareValue (kakaoNickname ku))
                (prepareValue (kakaoEmail ku)) (prepareValue (kakaoProfileImage ku))
                (kakaoId ku) db with
        | (db', Ok inserted) =>
            (db', match Ecommerce.generateToken w (Some inserted) with
                  | Ok token => success_redirect token
                  | Throw _ => Ecommerce.login_error Ecommerce.msg_kakao_login_error
                  end)
        | (db', Throw _) => (db', Ecommerce.login_error Ecommerce.msg_kakao_login_error)
        end
    end.
Proof.
  intros (Hcode & (tokenData & Htok & Hacc) & Hprof & Hku).
  unfold Ecommerce.get_auth_kakao_callback, try_catch, bind, lift, ret.
  rewrite (get_opt_truthy _ _ Hcode), Hcode, Htok, (get_opt_truthy _ _ Hacc), Hacc, Hprof.
  rewrite !(get_parsed _ _ Hku). cbn [negb].
  fold (kakaoId ku) (kakaoNickname ku) (kakaoEmail ku) (kakaoProfileImage ku).
  unfold Ecommerce.select_by_kakao_id.
  destruct (List.filter _ (Ecommerce.users db)) as [| u0 rest].
  - destruct (Ecommerce.insert_kakao _ _ _ _ _ db) as [db' [inserted | e]]; [| reflexivity].
    destruct (Ecommerce.generateToken w (Some inserted)); reflexivity.
  - destruct (Ecommerce.update_kakao _ _ _ _ db) as [db' [updated | e]]; [| reflexivity].
    destruct (Ecommerce.generateToken w (head updated)); reflexivity.
Qed.

End Callback.

(** The provider's answer to a profile request it refuses. *)
Definition kakao_refusal : JsVal :=
  JObj [("msg", JStr "this access token does not exist"); ("code", JNum (-401))].

Section CallbackClaims.
Context `{Libs}.

Lemma update_kakao_run nick img mail kid db :
  Ecommerce.update_kakao (Some nick) img mail kid db =
    (Ecommerce.mkDB
       (map (fun u => if Ecommerce.same_key (Ecommerce.kakao_id u) kid
                      then Ecommerce.set_kakao nick img mail u else u) (Ecommerce.users db))
       (Ecommerce.users_id_seq db),
     Ok (map (Ecommerce.set_kakao nick img mail)
           (List.filter (fun u => Ecommerce.same_key (Ecommerce.kakao_id u) kid) (Ecommerce.users db)))).
Proof.
  unfold Ecommerce.update_kakao. do 2 f_equal.
  rewrite filter_map_stable.
  - apply map_ext_in. intros u Hin. apply filter_In in Hin as [_ Hk]. rewrite Hk. reflexivity.
  - intros u. destruct (Ecommerce.same_key (Ecommerce.kakao_id u) kid) eqn:E; simpl; rewrite ?E; reflexivity.
Qed.

Lemma callback_known w req db ku nick :
  provider_answers w req ku -> prepareValue (kakaoNickname ku) = Some nick ->
  (exists u, In u (Ecommerce.users db) /\ Ecommerce.kakao_id u = Some (kakaoId ku)) ->
  let img := prepareValue (kakaoProfileImage ku) in
  let mail := prepareValue (kakaoEmail ku) in
  let out := Ecommerce.get_auth_kakao_callback w req db in
  Forall2 (refreshed (kakaoId ku) nick img mail) (Ecommerce.users db) (Ecommerce.users (fst out)) /\
  exists u0 token,
    In u0 (Ecommerce.users db) /\ Ecommerce.kakao_id u0 = Some (kakaoId ku) /\
    Ecommerce.generateToken w (Some (Ecommerce.set_kakao nick img mail u0)) = Ok token /\
    snd out = success_redirect token.
Proof.
  intros Hpa Hnick (u & Hin & Hk) img mail out. unfold out.
  rewrite (callback_run w req db ku Hpa), Hnick, update_kakao_run. fold img mail.
  destruct (filter_cons_of (fun u => Ecommerce.same_key (Ecommerce.kakao_id u) (kakaoId ku))
              (Ecommerce.users db) u Hin) as (u0 & rest & E); [apply same_key_spec, Hk |].
  rewrite E. cbn [fst snd map head Ecommerce.users Ecommerce.generateToken]. split.
  - apply Forall2_map_self. intros x. unfold refreshed.
    destruct (Ecommerce.same_key (Ecommerce.kakao_id x) (kakaoId ku)) eqn:Ex.
    + apply same_key_spec in Ex. repeat split; try reflexivity. contradiction.
    + assert (Hne : Ecommerce.kakao_id x <> Some (kakaoId ku))
        by (intros Hx; apply same_key_spec in Hx; congruence).
      repeat split; try reflexivity; contradiction.
  - apply filter_head in E as [Hin0 Hk0]. apply same_key_spec in Hk0.
    exists u0. eexists. repeat split; try eassumption; reflexivity.
Qed.

Lemma callback_unknown w req db ku nick :
  provider_answers w req ku -> prepareValue (kakaoNickname ku) = Some nick ->
  (forall u, In u (Ecommerce.users db) ->
             Ecommerce.kakao_id u <> Some (kakaoId ku) /\ Ecommerce.id u <> Ecommerce.users_id_seq db) ->
  let row := Ecommerce.mkUser (Ecommerce.users_id_seq db) None None nick
               (prepareValue (kakaoEmail ku)) None (prepareValue (kakaoProfileImage ku))
               (Some (kakaoId ku)) "kakao" (Ecommerce.db_now w) in
  exists token,
    Ecommerce.generateToken w (Some row) = Ok token /\
    Ecommerce.get_auth_kakao_callback w req db =
      (Ecommerce.mkDB (Ecommerce.users db ++ [row]) (Ecommerce.users_id_seq db + 1),
       success_redirect token).
Proof.
  intros Hpa Hnick Hfresh row.
  rewrite (callback_run w req db ku Hpa), Hnick.
  rewrite filter_nil.
  2:{ intros u Hin. apply not_true_is_false. rewrite same_key_spec. apply (Hfresh u Hin). }
  unfold Ecommerce.insert_kakao, Ecommerce.insert_row. fold row.
  replace (Ecommerce.violates_unique row (Ecommerce.users db)) with false.
  - eexists. split; reflexivity.
  - symmetry. apply not_true_is_false. intros Hex.
    apply existsb_exists in Hex as (u & Hin & Hu). destruct (Hfresh u Hin) as [Hk Hid].
    simpl in Hu. rewrite orb_false_r in Hu. apply orb_true_iff in Hu as [Hu | Hu].
    + apply Z.eqb_eq in Hu. contradiction.
    + apply same_key_spec in Hu. contradiction.
Qed.

(** C8.  When the provider answers the callback with a profile: if its
    identifier already has a stored user, that row's nickname becomes the
    provider's (or the fallback), its profile image and email take the
    provider's values where given, and its id, provider tag and every other
    column are kept; no other row changes; the user agent is redirected with
    a token for the refreshed row.  If no row has the identifier (and the
    next id is free), a row with provider "kakao", NULL username and
    password and that nickname is created.  The nickname is the fallback
    whenever the provider supplies none. *)
Theorem federated_login_refreshes_or_creates (w : Ecommerce.World) req db ku nick :
  provider_answers w req ku -> prepareValue (kakaoNickname ku) = Some nick ->
  let img := prepareValue (kakaoProfileImage ku) in
  let mail := prepareValue (kakaoEmail ku) in
  let out := Ecommerce.get_auth_kakao_callback w req db in
  ((exists u, In u (Ecommerce.users db) /\ Ecommerce.kakao_id u = Some (kakaoId ku)) ->
   Forall2 (refreshed (kakaoId ku) nick img mail) (Ecommerce.users db) (Ecommerce.users (fst out)) /\
   exists u0 token,
     In u0 (Ecommerce.users db) /\ Ecommerce.kakao_id u0 = Some (kakaoId ku) /\
     Ecommerce.generateToken w (Some (Ecommerce.set_kakao nick img mail u0)) = Ok token /\
     snd out = success_redirect token) /\
  ((forall u, In u (Ecommerce.users db) ->
              Ecommerce.kakao_id u <> Some (kakaoId ku) /\ Ecommerce.id u <> Ecommerce.users_id_seq db) ->
   let row := Ecommerce.mkUser (Ecommerce.users_id_seq db) None None nick mail None img
                (Some (kakaoId ku)) "kakao" (Ecommerce.db_now w) in
   exists token,
     Ecommerce.generateToken w (Some row) = Ok token /\
     out = (Ecommerce.mkDB (Ecommerce.users db ++ [row]) (Ecommerce.users_id_seq db + 1),
            success_redirect token)) /\
  (truthy (get_opt (get_opt ku "properties") "nickname") = false ->
   nick = Ecommerce.kakao_default_nickname) /\
  (forall s, get_opt (get_opt ku "properties") "nickname" = JStr s -> s <> "" -> nick = s) /\
  (forall s, get_opt (get_opt ku "properties") "profile_image" = JStr s -> s <> "" -> img = Some s) /\
  (forall s, get_opt (get_opt ku "kakao_account") "email" = JStr s -> s <> "" -> mail = Some s).
Proof.
  intros Hpa Hnick img mail out. split; [| split; [| split; [| split; [| split]]]].
  - intros Hknown. apply callback_known; assumption.
  - intros Hfresh. apply callback_unknown; assumption.
  - intros Hnone. unfold kakaoNickname, js_or in Hnick. rewrite Hnone in Hnick.
    simpl in Hnick. congruence.
  - intros s Hs Hne. unfold kakaoNickname, js_or in Hnick. rewrite Hs in Hnick. simpl in Hnick.
    apply String.eqb_neq in Hne. rewrite Hne in Hnick. simpl in Hnick. congruence.
  - intros s Hs Hne. unfold img, kakaoProfileImage, js_or. rewrite Hs. simpl.
    apply String.eqb_neq in Hne. rewrite Hne. reflexivity.
  - intros s Hs Hne. unfold mail, kakaoEmail, js_or. rewrite Hs. simpl.
    apply String.eqb_neq in Hne. rewrite Hne. reflexivity.
Qed.

(** What the callback does get right: it only ever redirects; without a
    code, when the token exchange is refused, and when a call to the
    provider raises, it redirects to the login route with a message. *)
Lemma callback_only_redirects w req db :
  exists location, snd (Ecommerce.get_auth_kakao_callback w req db) = ResRedirect location.
Proof.
  unfold Ecommerce.get_auth_kakao_callback, try_catch.
  match goal with |- context [let (_, _) := ?m db in _] => destruct (m db) as [db' [r | e]] eqn:E end;
    [| simpl; eauto].
  simpl. revert E. unfold bind, lift, ret, Ecommerce.login_error.
  repeat match goal with
         | |- context [match ?x with _ => _ end] => destruct x eqn:?
         end; intros E; inversion E; eauto.
Qed.

Lemma callback_without_code w req db :
  nullish (query req) = false -> truthy (get_opt (query req) "code") = false ->
  Ecommerce.get_auth_kakao_callback w req db =
    (db, Ecommerce.login_error Ecommerce.msg_kakao_auth_failed).
Proof.
  intros Hq Hc. unfold Ecommerce.get_auth_kakao_callback, try_catch, bind, lift, ret.
  rewrite (get_parsed _ _ Hq), Hc. reflexivity.
Qed.

Lemma callback_token_refused w req db tokenData :
  truthy (get_opt (query req) "code") = true ->
  Ecommerce.kakao_token w = Ok tokenData -> nullish tokenData = false ->
  truthy (get_opt tokenData "access_token") = false ->
  Ecommerce.get_auth_kakao_callback w req db =
    (db, match Ecommerce.encode (js_or (get_opt tokenData "error_description")
                                   (JStr Ecommerce.msg_kakao_token_failed)) with
         | Ok encoded => Ecommerce.login_error encoded
         | Throw _ => Ecommerce.login_error Ecommerce.msg_kakao_login_error
         end).
Proof.
  intros Hc Ht Hn Ha. unfold Ecommerce.get_auth_kakao_callback, try_catch, bind, lift, ret.
  rewrite (get_opt_truthy _ _ Hc), Hc, Ht, !(get_parsed _ _ Hn), Ha. simpl.
  destruct (Ecommerce.encode _); reflexivity.
Qed.

Lemma callback_provider_raises w req db :
  truthy (get_opt (query req) "code") = true ->
  (exists e, Ecommerce.kakao_token w = Throw e) \/
  (exists tokenData e,
      Ecommerce.kakao_token w = Ok tokenData /\ truthy (get_opt tokenData "access_token") = true /\
      Ecommerce.kakao_profile w = Throw e) ->
  Ecommerce.get_auth_kakao_callback w req db =
    (db, Ecommerce.login_error Ecommerce.msg_kakao_login_error).
Proof.
  intros Hc Hraise. unfold Ecommerce.get_auth_kakao_callback, try_catch, bind, lift, ret.
  rewrite (get_opt_truthy _ _ Hc), Hc.
  destruct Hraise as [[e ->] | (tokenData & e & -> & Ha & ->)]; [reflexivity |].
  rewrite (get_opt_truthy _ _ Ha), Ha. reflexivity.
Qed.

(** C9 does not hold where the provider refuses the profile request with an
    error body: the body has no [id], [String(undefined)] is taken as the
    provider identifier, a user is created under it and the user agent is
    redirected to the success route with a token. *)
Theorem callback_accepts_refused_profile :
  let w := Ecommerce.mkWorld None 0 0 "salt"
             (Ok (JObj [("access_token", JStr "granted")])) (Ok kakao_refusal) in
  let req := mkRequest None JUndefined (JObj [("code", JStr "abc")]) None in
  let row := Ecommerce.mkUser 1 None None Ecommerce.kakao_default_nickname None None None
               (Some "undefined") "kakao" 0 in
  exists token,
    Ecommerce.generateToken w (Some row) = Ok token /\
    Ecommerce.get_auth_kakao_callback w req Ecommerce.empty_db =
      (Ecommerce.mkDB [row] 2, success_redirect token).
Proof.
  intros w req row.
  assert (Hpa : provider_answers w req kakao_refusal).
  { split; [reflexivity |]. split; [| split; reflexivity].
    eexists. split; reflexivity. }
  destruct (callback_unknown w req Ecommerce.empty_db kakao_refusal Ecommerce.kakao_default_nickname
              Hpa eq_refl) as (token & Htok & Hrun).
  { intros u []. }
  exists token. split; [exact Htok | exact Hrun].
Qed.

End CallbackClaims.

(** * The properties at work on sample requests

    All of these run the handlers with the libraries of [Sample]. *)

Module Examples.

Definition secret : string := "dangun-01-secret-key".

Definition alice_claims : Claims := mkClaims 1 (Some "alice") "Alice" None.

(** A token issued to alice at time 0. *)
Definition alice_token : string := jwt_sign alice_claims secret expiresIn_7d 0.

Definition alice_payload : Payload := mkPayload alice_claims 0 604800.

Definition request (header : option string) (b : JsVal) : Request :=
  mkRequest header b (JObj []) None.

Definition bearer (tok : string) : option string := Some ("Bearer " +:+ tok).

Definition credentials_body (u p : string) : JsVal :=
  JObj [("username", JStr u); ("password", JStr p)].

Definition register_body (u p n : string) : JsVal :=
  JObj [("username", JStr u); ("password", JStr p); ("nickname", JStr n)].

Definition dangun_world (now : Z) : Dangun.World := Dangun.mkWorld None now 0 "salt".

Definition dangun_alice : Dangun.User :=
  Dangun.mkUser 1 "alice" "salt$secret1" "A" (Some "Seoul") None 0.

Definition dangun_db : Dangun.DB := Dangun.mkDB [dangun_alice] 2.

Definition shop_world (now : Z) : Ecommerce.World :=
  Ecommerce.mkWorld None now 0 "salt" (Throw FetchError) (Throw FetchError).

Definition shop_alice : Ecommerce.User :=
  Ecommerce.mkUser 1 (Some "alice") (Some "salt$secret1") "A" (Some "a@example.com") None None None
    "local" 0.

Definition shop_db : Ecommerce.DB := Ecommerce.mkDB [shop_alice] 2.

(** A profile as the provider sends it. *)
Definition kakao_profile_of (kid : Z) (nick : string) : JsVal :=
  JObj [("id", JNum kid);
        ("properties", JObj [("nickname", JStr nick); ("profile_image", JStr "http://img/1")]);
        ("kakao_account", JObj [("email", JStr "k@example.com")])].

Definition kakao_world (profile : JsVal) : Ecommerce.World :=
  Ecommerce.mkWorld None 0 7 "salt" (Ok (JObj [("access_token", JStr "granted")])) (Ok profile).

Definition callback_request : Request :=
  mkRequest None JUndefined (JObj [("code", JStr "abc")]) None.

Definition shop_kakao_user : Ecommerce.User :=
  Ecommerce.mkUser 1 None None "Old" None (Some "010") None (Some "4242") "kakao" 0.

Definition shop_kakao_db : Ecommerce.DB := Ecommerce.mkDB [shop_kakao_user] 2.


(** C5 at work: the token of alice at 6 and at 8 days, a malformed token,
    and a token signed with another secret. *)
Lemma token_validity_window_witness :
  jwt_verify (Some alice_token) secret (6 * day_ms) = Ok alice_payload /\
  jwt_verify (Some alice_token) secret (8 * day_ms) = Throw JsonWebTokenError /\
  auth secret (8 * day_ms) (request (bearer alice_token) JUndefined)
    = Respond (fail 401 msg_invalid_token) /\
  jwt_verify (Some "not.a.token") secret 0 = Throw JsonWebTokenError /\
  jwt_verify (Some (jwt_sign alice_claims "another secret" expiresIn_7d 0)) secret 0
    = Throw JsonWebTokenError.
Proof.
  destruct (token_validity_window secret alice_claims 0)
    as (_ & H6 & H8 & Hgate & Hmal & Hsig & _).
  split; [exact H6 |]. split; [exact H8 |]. split; [| split].
  - apply (Hgate (request (bearer alice_token) JUndefined) ("Bearer " +:+ alice_token)).
    + reflexivity.
    + reflexivity.
    + vm_compute. reflexivity.
  - apply Hmal. reflexivity.
  - apply (Hsig _ (mkToken alice_payload (jwt_mac "another secret" alice_payload))).
    + vm_compute. reflexivity.
    + vm_compute. discriminate.
Defined.

Ltac only_row := let r := fresh "r" in intros r [<- | []].




Definition nickname_only (x : string) : Request :=
  mkRequest None (JObj [("nickname", JStr x)]) (JObj []) (Some alice_payload).


Lemma provider_answers_sample (profile : JsVal) :
  nullish profile = false -> provider_answers (kakao_world profile) callback_request profile.
Proof.
  intros Hp. split; [reflexivity |]. split; [| split; [reflexivity | exact Hp]].
  eexists. split; reflexivity.
Qed.

(** C8 at work: a second login of provider identifier 4242 refreshes the
    stored row and keeps its id and provider; identifier 777 is new. *)
Lemma federated_login_witness :
  Ecommerce.users (fst (Ecommerce.get_auth_kakao_callback (kakao_world (kakao_profile_of 4242 "Fresh"))
                          callback_request shop_kakao_db))
  = [Ecommerce.mkUser 1 None None "Fresh" (Some "k@example.com") (Some "010") (Some "http://img/1")
       (Some "4242") "kakao" 0] /\
  Ecommerce.users (fst (Ecommerce.get_auth_kakao_callback
                          (kakao_world (JObj [("id", JNum 777)])) callback_request shop_kakao_db))
  = [shop_kakao_user;
     Ecommerce.mkUser 2 None None Ecommerce.kakao_default_nickname None None None (Some "777")
       "kakao" 7].
Proof.
  split.
  - destruct (proj1 (federated_login_refreshes_or_creates
                       (kakao_world (kakao_profile_of 4242 "Fresh")) callback_request shop_kakao_db
                       (kakao_profile_of 4242 "Fresh") "Fresh"
                       (provider_answers_sample (kakao_profile_of 4242 "Fresh") eq_refl) eq_refl))
      as [Hrows _].
    + exists shop_kakao_user. split; [left |]; reflexivity.
    + apply Forall2_cons_inv_l in Hrows as (u' & rest & Hrow & Hrest & ->).
      apply Forall2_nil_inv_l in Hrest as ->.
      destruct u'. unfold refreshed in Hrow. simpl in Hrow.
      destruct Hrow as (-> & -> & -> & -> & -> & -> & -> & _ & Hnew).
      destruct (Hnew eq_refl) as (-> & -> & ->). reflexivity.
  - destruct (proj1 (proj2 (federated_login_refreshes_or_creates
                              (kakao_world (JObj [("id", JNum 777)])) callback_request shop_kakao_db
                              (JObj [("id", JNum 777)]) Ecommerce.kakao_default_nickname
                              (provider_answers_sample (JObj [("id", JNum 777)]) eq_refl) eq_refl)))
      as (token & _ & Hrun).
    + only_row. split; discriminate.
    + rewrite Hrun. reflexivity.
Defined.

Definition shop_secret : string := "lueur-ecommerce-secret-key".

Definition ghost_claims : Claims := mkClaims 9 (Some "ghost") "Ghost" (Some "local").

Definition ghost_payload : Payload := mkPayload ghost_claims 0 604800.


End Examples.

(** * The stores as transition systems

    Every request moves the users table by one of four moves: nothing; a
    failed INSERT, which only consumes a sequence value; an INSERT of a row
    whose keys are free; an UPDATE that rewrites rows without touching their
    keys, password or creation time. *)

Definition Dangun_keeps_keys (f : Dangun.User -> Dangun.User) : Prop :=
  forall u, Dangun.id (f u) = Dangun.id u /\ Dangun.username (f u) = Dangun.username u /\
            Dangun.password (f u) = Dangun.password u /\
            Dangun.created_at (f u) = Dangun.created_at u.

Inductive Dangun_step (db : Dangun.DB) : Dangun.DB -> Prop :=
| Dangun_step_same : Dangun_step db db
| Dangun_step_burn :
    Dangun_step db (Dangun.mkDB (Dangun.users db) (Dangun.users_id_seq db + 1))
| Dangun_step_insert (row : Dangun.User) :
    Dangun.id row = Dangun.users_id_seq db ->
    (forall u, In u (Dangun.users db) ->
               Dangun.id u <> Dangun.id row /\ Dangun.username u <> Dangun.username row) ->
    Dangun_step db (Dangun.mkDB (Dangun.users db ++ [row]) (Dangun.users_id_seq db + 1))
| Dangun_step_update (f : Dangun.User -> Dangun.User) :
    Dangun_keeps_keys f ->
    Dangun_step db (Dangun.mkDB (map f (Dangun.users db)) (Dangun.users_id_seq db)).

Definition Ecommerce_keeps_keys (f : Ecommerce.User -> Ecommerce.User) : Prop :=
  forall u, Ecommerce.id (f u) = Ecommerce.id u /\ Ecommerce.username (f u) = Ecommerce.username u /\
            Ecommerce.password (f u) = Ecommerce.password u /\
            Ecommerce.kakao_id (f u) = Ecommerce.kakao_id u /\
            Ecommerce.provider (f u) = Ecommerce.provider u /\
            Ecommerce.created_at (f u) = Ecommerce.created_at u.

Inductive Ecommerce_step (db : Ecommerce.DB) : Ecommerce.DB -> Prop :=
| Ecommerce_step_same : Ecommerce_step db db
| Ecommerce_step_burn :
    Ecommerce_step db (Ecommerce.mkDB (Ecommerce.users db) (Ecommerce.users_id_seq db + 1))
| Ecommerce_step_insert (row : Ecommerce.User) :
    Ecommerce.id row = Ecommerce.users_id_seq db ->
    (forall u, In u (Ecommerce.users db) ->
               Ecommerce.id u <> Ecommerce.id row /\
               (forall n, Ecommerce.username row = Some n -> Ecommerce.username u <> Some n) /\
               (forall k, Ecommerce.kakao_id row = Some k -> Ecommerce.kakao_id u <> Some k)) ->
    Ecommerce_step db (Ecommerce.mkDB (Ecommerce.users db ++ [row]) (Ecommerce.users_id_seq db + 1))
| Ecommerce_step_update (f : Ecommerce.User -> Ecommerce.User) :
    Ecommerce_keeps_keys f ->
    Ecommerce_step db (Ecommerce.mkDB (map f (Ecommerce.users db)) (Ecommerce.users_id_seq db)).

Lemma hoare_moves {S A} (R : S -> S -> Prop) (s0 : S) (m : M S A) :
  (forall s, R s (fst (m s))) -> hoare (rtc R s0) m (fun _ => True).
Proof.
  intros Hm. apply hoare_state. intros s Hs. eapply rtc_r; [exact Hs | apply Hm].
Qed.

Lemma hoare_reads {S A} (I : S -> Prop) (m : M S A) :
  (forall s, fst (m s) = s) -> hoare I m (fun _ => True).
Proof. intros Hm. apply hoare_state. intros s Hs. rewrite Hm. exact Hs. Qed.

Lemma Dangun_db_eta (db : Dangun.DB) : Dangun.mkDB (Dangun.users db) (Dangun.users_id_seq db) = db.
Proof. destruct db; reflexivity. Qed.

Lemma Ecommerce_db_eta (db : Ecommerce.DB) :
  Ecommerce.mkDB (Ecommerce.users db) (Ecommerce.users_id_seq db) = db.
Proof. destruct db; reflexivity. Qed.

Lemma Dangun_insert_moves w un pw ni db :
  Dangun_step db (fst (Dangun.insert_user w un pw ni db)).
Proof.
  unfold Dangun.insert_user. destruct un as [un |], ni as [ni |]; simpl; try apply Dangun_step_burn.
  destruct (existsb _ _) eqn:E; simpl; [apply Dangun_step_burn |].
  apply Dangun_step_insert; [reflexivity |].
  intros u Hin. simpl.
  assert (Hu : (Dangun.id u =? Dangun.users_id_seq db) || String.eqb (Dangun.username u) un = false).
  { apply not_true_is_false. intros Hu. apply not_true_iff_false in E. apply E.
    apply existsb_exists. eauto. }
  apply orb_false_iff in Hu as [Hid Hun].
  split; [apply Z.eqb_neq, Hid | apply String.eqb_neq, Hun].
Qed.

Lemma Dangun_update_moves nick loc uid db :
  Dangun_step db (fst (Dangun.update_profile nick loc uid db)).
Proof.
  simpl. apply Dangun_step_update. intros u. destruct (Dangun.id u =? uid); repeat split.
Qed.

Lemma Ecommerce_insert_moves mk ni db :
  (forall i n, Ecommerce.id (mk i n) = i) ->
  Ecommerce_step db (fst (Ecommerce.insert_row mk ni db)).
Proof.
  intros Hmk. unfold Ecommerce.insert_row. destruct ni as [ni |]; simpl; [| apply Ecommerce_step_burn].
  destruct (Ecommerce.violates_unique _ _) eqn:E; simpl; [apply Ecommerce_step_burn |].
  apply Ecommerce_step_insert; [apply Hmk |].
  intros u Hin.
  assert (Hu : (Ecommerce.id u =? Ecommerce.id (mk (Ecommerce.users_id_seq db) ni))
               || match Ecommerce.username (mk (Ecommerce.users_id_seq db) ni) with
                  | Some un => Ecommerce.same_key (Ecommerce.username u) un
                  | None => false
                  end
               || match Ecommerce.kakao_id (mk (Ecommerce.users_id_seq db) ni) with
                  | Some k => Ecommerce.same_key (Ecommerce.kakao_id u) k
                  | None => false
                  end = false).
  { apply not_true_is_false. intros Hu. apply not_true_iff_false in E. apply E.
    apply existsb_exists. eauto. }
  apply orb_false_iff in Hu as [Hu Hk]. apply orb_false_iff in Hu as [Hid Hun].
  split; [apply Z.eqb_neq, Hid |]. split.
  - intros n Hn. rewrite Hn in Hun. intros Hc. apply same_key_spec in Hc. congruence.
  - intros k Hk'. rewrite Hk' in Hk. intros Hc. apply same_key_spec in Hc. congruence.
Qed.

Lemma Ecommerce_update_profile_moves nick mail ph uid db :
  Ecommerce_step db (fst (Ecommerce.update_profile nick mail ph uid db)).
Proof.
  simpl. apply Ecommerce_step_update. intros u. destruct (Ecommerce.id u =? uid); repeat split.
Qed.

Lemma Ecommerce_update_kakao_moves nick img mail kid db :
  Ecommerce_step db (fst (Ecommerce.update_kakao nick img mail kid db)).
Proof.
  unfold Ecommerce.update_kakao. destruct nick as [ni |].
  - simpl. apply Ecommerce_step_update. intros u.
    destruct (Ecommerce.same_key (Ecommerce.kakao_id u) kid); repeat split.
  - destruct (existsb _ _); apply Ecommerce_step_same.
Qed.

(** One step through a handler, for the transition systems. *)
Ltac move_step :=
  first
    [ apply hoare_ret; exact I
    | apply hoare_lift_any
    | apply hoare_reads; intros ?; reflexivity
    | apply hoare_moves; intros ?;
      first [ apply Dangun_insert_moves | apply Dangun_update_moves
            | apply Ecommerce_insert_moves; intros; reflexivity
            | apply Ecommerce_update_profile_moves | apply Ecommerce_update_kakao_moves ]
    | eapply hoare_bind with (P := fun _ => True); [| intros ? _]
    | match goal with
      | |- hoare _ (if ?c then _ else _) _ => destruct c
      | |- hoare _ (match ?x with _ => _ end) _ => destruct x
      end ].

Section Moves.
Context `{Libs}.

Lemma Dangun_handle_moves db0 route w req :
  answers (rtc Dangun_step db0) (Dangun.handle route w req) (fun _ => True).
Proof.
  destruct route; simpl.
  - apply answers_try_catch; [| intros; exact I]. repeat move_step.
  - apply answers_try_catch; [| intros; exact I]. repeat move_step.
  - apply answers_protected; try exact I. intros req'.
    apply answers_try_catch; [| intros; exact I]. repeat move_step.
  - apply answers_protected; try exact I. intros req'.
    apply answers_try_catch; [| intros; exact I]. repeat move_step.
Qed.

Lemma Ecommerce_handle_moves db0 route w req :
  answers (rtc Ecommerce_step db0) (Ecommerce.handle route w req) (fun _ => True).
Proof.
  destruct route; simpl.
  - apply answers_try_catch; [| intros; exact I]. repeat move_step.
  - apply answers_try_catch; [| intros; exact I]. repeat move_step.
  - apply answers_try_catch; [| intros; exact I]. repeat move_step.
  - apply answers_protected; try exact I. intros req'.
    apply answers_try_catch; [| intros; exact I]. repeat move_step.
  - apply answers_protected; try exact I. intros req'.
    apply answers_try_catch; [| intros; exact I]. repeat move_step.
Qed.

Lemma Dangun_run_moves evs db : rtc Dangun_step db (Dangun.run evs db).
Proof.
  revert db. induction evs as [| [[route w] req] evs IH]; intros db; simpl; [apply rtc_refl |].
  eapply rtc_trans; [| apply IH].
  apply (Dangun_handle_moves db route w req db). apply rtc_refl.
Qed.

Lemma Ecommerce_run_moves evs db : rtc Ecommerce_step db (Ecommerce.run evs db).
Proof.
  revert db. induction evs as [| [[route w] req] evs IH]; intros db; simpl; [apply rtc_refl |].
  eapply rtc_trans; [| apply IH].
  apply (Ecommerce_handle_moves db route w req db). apply rtc_refl.
Qed.

End Moves.

(** * Invariants of the stores *)

(** Primary key and UNIQUE key hold, and the sequence is ahead of every id. *)
Definition Dangun_wf (db : Dangun.DB) : Prop :=
  NoDup (map Dangun.id (Dangun.users db)) /\
  NoDup (map Dangun.username (Dangun.users db)) /\
  Forall (fun u => Dangun.id u < Dangun.users_id_seq db) (Dangun.users db).

Definition Ecommerce_wf (db : Ecommerce.DB) : Prop :=
  NoDup (map Ecommerce.id (Ecommerce.users db)) /\
  NoDup (omap Ecommerce.username (Ecommerce.users db)) /\
  NoDup (omap Ecommerce.kakao_id (Ecommerce.users db)) /\
  Forall (fun u => Ecommerce.id u < Ecommerce.users_id_seq db) (Ecommerce.users db).

(** The row [u'] is the row [u] as far as identity and credentials go. *)
Definition Dangun_same_account (u u' : Dangun.User) : Prop :=
  Dangun.id u' = Dangun.id u /\ Dangun.username u' = Dangun.username u /\
  Dangun.password u' = Dangun.password u /\ Dangun.created_at u' = Dangun.created_at u.

Definition Ecommerce_same_account (u u' : Ecommerce.User) : Prop :=
  Ecommerce.id u' = Ecommerce.id u /\ Ecommerce.username u' = Ecommerce.username u /\
  Ecommerce.password u' = Ecommerce.password u /\ Ecommerce.kakao_id u' = Ecommerce.kakao_id u /\
  Ecommerce.provider u' = Ecommerce.provider u /\ Ecommerce.created_at u' = Ecommerce.created_at u.

(** [db'] still has every account of [db], in place, followed by the
    accounts created since; the sequence has not gone back. *)
Definition Dangun_kept (db db' : Dangun.DB) : Prop :=
  Dangun.users_id_seq db <= Dangun.users_id_seq db' /\
  exists older newer,
    Dangun.users db' = (older ++ newer)%list /\ Forall2 Dangun_same_account (Dangun.users db) older.

Definition Ecommerce_kept (db db' : Ecommerce.DB) : Prop :=
  Ecommerce.users_id_seq db <= Ecommerce.users_id_seq db' /\
  exists older newer,
    Ecommerce.users db' = (older ++ newer)%list /\
    Forall2 Ecommerce_same_account (Ecommerce.users db) older.

Lemma map_map_keep {A B} (g : A -> B) (f : A -> A) (l : list A) :
  (forall x, g (f x) = g x) -> map g (map f l) = map g l.
Proof. intros Hf. rewrite map_map. apply map_ext. exact Hf. Qed.

Lemma omap_map_keep {A B} (g : A -> option B) (f : A -> A) (l : list A) :
  (forall x, g (f x) = g x) -> omap g (map f l) = omap g l.
Proof.
  intros Hf. induction l as [| x l IH]; [reflexivity |].
  change (omap g (map f (x :: l)))
    with (match g (f x) with Some y => y :: omap g (map f l) | None => omap g (map f l) end).
  change (omap g (x :: l))
    with (match g x with Some y => y :: omap g l | None => omap g l end).
  rewrite Hf, IH. reflexivity.
Qed.

Lemma Forall_map_keep {A} (P : A -> Prop) (f : A -> A) (l : list A) :
  (forall x, P x -> P (f x)) -> Forall P l -> Forall P (map f l).
Proof. intros Hf Hl. induction Hl; simpl; constructor; auto. Qed.

Lemma Forall2_map_keep {A} (R : A -> A -> Prop) (f : A -> A) (l k : list A) :
  (forall x y, R x y -> R x (f y)) -> Forall2 R l k -> Forall2 R l (map f k).
Proof. intros Hf Hl. induction Hl; simpl; constructor; auto. Qed.

Lemma Forall2_refl_on {A} (R : A -> A -> Prop) (l : list A) :
  (forall x, R x x) -> Forall2 R l l.
Proof. intros HR. induction l; constructor; auto. Qed.

Lemma NoDup_snoc {A} (l : list A) (x : A) : NoDup l -> ~ In x l -> NoDup ((l ++ [x])%list).
Proof.
  intros Hl Hx. apply NoDup_app. split; [exact Hl |]. split.
  - intros y Hy Hyx. apply list_elem_of_In in Hy. apply list_elem_of_In in Hyx.
    destruct Hyx as [<- | []]. contradiction.
  - apply NoDup_singleton.
Qed.

Lemma in_omap {A B} (g : A -> option B) (l : list A) (b : B) :
  In b (omap g l) -> exists x, In x l /\ g x = Some b.
Proof.
  intros Hb. apply list_elem_of_In in Hb. apply list_elem_of_omap in Hb as (x & Hx & Hg).
  exists x. split; [apply list_elem_of_In, Hx | exact Hg].
Qed.

Lemma Dangun_step_wf db db' : Dangun_step db db' -> Dangun_wf db -> Dangun_wf db'.
Proof.
  intros Hstep (Hid & Hun & Hseq). destruct Hstep as [| | row Hrow Hfree | f Hf].
  - repeat split; assumption.
  - repeat split; try assumption. simpl. eapply Forall_impl; [exact Hseq |]. simpl. intros u Hu. lia.
  - unfold Dangun_wf. simpl. rewrite !map_app. simpl. split; [| split].
    + apply NoDup_snoc; [exact Hid |]. intros Hin. apply in_map_iff in Hin as (u & Hu & Hin).
      destruct (Hfree u Hin) as [Hne _]. congruence.
    + apply NoDup_snoc; [exact Hun |]. intros Hin. apply in_map_iff in Hin as (u & Hu & Hin).
      destruct (Hfree u Hin) as [_ Hne]. congruence.
    + apply Forall_app. split.
      * eapply Forall_impl; [exact Hseq |]. simpl. intros u Hu. lia.
      * constructor; [lia | constructor].
  - unfold Dangun_wf. simpl. rewrite !map_map_keep by (intros u; apply (Hf u)).
    repeat split; try assumption.
    apply Forall_map_keep; [| exact Hseq]. intros u Hu. destruct (Hf u) as [-> _]. exact Hu.
Qed.

Lemma Ecommerce_step_wf db db' : Ecommerce_step db db' -> Ecommerce_wf db -> Ecommerce_wf db'.
Proof.
  intros Hstep (Hid & Hun & Hk & Hseq). destruct Hstep as [| | row Hrow Hfree | f Hf].
  - repeat split; assumption.
  - repeat split; try assumption. simpl. eapply Forall_impl; [exact Hseq |]. simpl. intros u Hu. lia.
  - unfold Ecommerce_wf. simpl. rewrite map_app, !omap_app. simpl. split; [| split; [| split]].
    + apply NoDup_snoc; [exact Hid |]. intros Hin. apply in_map_iff in Hin as (u & Hu & Hin).
      destruct (Hfree u Hin) as [Hne _]. congruence.
    + destruct (Ecommerce.username row) as [n |] eqn:En; simpl; [| rewrite app_nil_r; exact Hun].
      apply NoDup_snoc; [exact Hun |]. intros Hin. apply in_omap in Hin as (u & Hin & Hu).
      destruct (Hfree u Hin) as (_ & Hne & _). apply (Hne n); [reflexivity | exact Hu].
    + destruct (Ecommerce.kakao_id row) as [k |] eqn:Ek; simpl; [| rewrite app_nil_r; exact Hk].
      apply NoDup_snoc; [exact Hk |]. intros Hin. apply in_omap in Hin as (u & Hin & Hu).
      destruct (Hfree u Hin) as (_ & _ & Hne). apply (Hne k); [reflexivity | exact Hu].
    + apply Forall_app. split.
      * eapply Forall_impl; [exact Hseq |]. simpl. intros u Hu. lia.
      * constructor; [lia | constructor].
  - unfold Ecommerce_wf. simpl.
    rewrite map_map_keep by (intros u; apply (Hf u)).
    rewrite !omap_map_keep by (intros u; apply (Hf u)).
    repeat split; try assumption.
    apply Forall_map_keep; [| exact Hseq]. intros u Hu. destruct (Hf u) as [-> _]. exact Hu.
Qed.

Lemma Dangun_step_kept db0 db db' : Dangun_kept db0 db -> Dangun_step db db' -> Dangun_kept db0 db'.
Proof.
  intros (Hseq & older & newer & Husers & Hold) Hstep.
  destruct Hstep as [| | row Hrow Hfree | f Hf].
  - split; [exact Hseq |]. eauto.
  - split; [simpl; lia |]. simpl. eauto.
  - split; [simpl; lia |]. simpl. exists older, ((newer ++ [row])%list).
    rewrite Husers, app_assoc. auto.
  - split; [exact Hseq |]. simpl. exists (map f older), (map f newer).
    rewrite Husers, map_app. split; [reflexivity |].
    apply Forall2_map_keep; [| exact Hold].
    intros x y (A & B & C & D). destruct (Hf y) as (A' & B' & C' & D').
    unfold Dangun_same_account. repeat split; congruence.
Qed.

Lemma Ecommerce_step_kept db0 db db' :
  Ecommerce_kept db0 db -> Ecommerce_step db db' -> Ecommerce_kept db0 db'.
Proof.
  intros (Hseq & older & newer & Husers & Hold) Hstep.
  destruct Hstep as [| | row Hrow Hfree | f Hf].
  - split; [exact Hseq |]. eauto.
  - split; [simpl; lia |]. simpl. eauto.
  - split; [simpl; lia |]. simpl. exists older, ((newer ++ [row])%list).
    rewrite Husers, app_assoc. auto.
  - split; [exact Hseq |]. simpl. exists (map f older), (map f newer).
    rewrite Husers, map_app. split; [reflexivity |].
    apply Forall2_map_keep; [| exact Hold].
    intros x y (A & B & C & D & E & F). destruct (Hf y) as (A' & B' & C' & D' & E' & F').
    unfold Ecommerce_same_account. repeat split; congruence.
Qed.

Section StoreInvariants.
Context `{Libs}.

Lemma Dangun_run_wf evs db : Dangun_wf db -> Dangun_wf (Dangun.run evs db).
Proof.
  intros Hwf. pose proof (Dangun_run_moves evs db) as Hrun.
  induction Hrun as [| x y z Hstep _ IH]; [exact Hwf |].
  apply IH. eapply Dangun_step_wf; eauto.
Qed.

Lemma Ecommerce_run_wf evs db : Ecommerce_wf db -> Ecommerce_wf (Ecommerce.run evs db).
Proof.
  intros Hwf. pose proof (Ecommerce_run_moves evs db) as Hrun.
  induction Hrun as [| x y z Hstep _ IH]; [exact Hwf |].
  apply IH. eapply Ecommerce_step_wf; eauto.
Qed.

Lemma Dangun_run_kept evs db : Dangun_kept db (Dangun.run evs db).
Proof.
  apply (rtc_ind_r (R := Dangun_step) (fun db' => Dangun_kept db db') db); [| | apply Dangun_run_moves].
  - split; [lia |]. exists (Dangun.users db), []. rewrite app_nil_r. split; [reflexivity |].
    apply Forall2_refl_on. intros u. repeat split.
  - intros y z _ Hyz IH. eapply Dangun_step_kept; eauto.
Qed.

Lemma Ecommerce_run_kept evs db : Ecommerce_kept db (Ecommerce.run evs db).
Proof.
  apply (rtc_ind_r (R := Ecommerce_step) (fun db' => Ecommerce_kept db db') db);
    [| | apply Ecommerce_run_moves].
  - split; [lia |]. exists (Ecommerce.users db), []. rewrite app_nil_r. split; [reflexivity |].
    apply Forall2_refl_on. intros u. repeat split.
  - intros y z _ Hyz IH. eapply Ecommerce_step_kept; eauto.
Qed.

(** X1.  The keys of the users table hold in every store the applications
    can reach: after any sequence of requests from a well-formed store (the
    empty one, for instance) ids are pairwise distinct and below the next
    sequence value, usernames are pairwise distinct, and in the e-commerce
    variant provider identifiers are pairwise distinct. *)
Theorem stores_stay_well_formed :
  Dangun_wf Dangun.empty_db /\ Ecommerce_wf Ecommerce.empty_db /\
  (forall evs db, Dangun_wf db -> Dangun_wf (Dangun.run evs db)) /\
  (forall evs db, Ecommerce_wf db -> Ecommerce_wf (Ecommerce.run evs db)).
Proof.
  split; [| split; [| split]].
  - repeat split; constructor.
  - repeat split; constructor.
  - apply Dangun_run_wf.
  - apply Ecommerce_run_wf.
Qed.

(** X2.  No sequence of requests deletes a user or changes a user's id,
    username, password hash, creation time (or, in the e-commerce variant,
    provider tag or provider identifier): the rows of the store it started
    from are all still there, in place, with those columns as they were, and
    the id sequence never goes back. *)
Theorem accounts_are_never_lost_or_rekeyed :
  (forall evs db, Dangun_kept db (Dangun.run evs db)) /\
  (forall evs db, Ecommerce_kept db (Ecommerce.run evs db)).
Proof. split; [apply Dangun_run_kept | apply Ecommerce_run_kept]. Qed.

End StoreInvariants.

(** * Login, and the session it opens *)

Definition credentials_present (req : Request) : bool :=
  truthy (field req "username") && truthy (field req "password").

Section LoginRuns.
Context `{Libs}.

Lemma Dangun_login_unparsed w req db :
  nullish (body req) = true ->
  Dangun.post_auth_login w req db = (db, fail 500 msg_server_error).
Proof.
  intros Hb. unfold Dangun.post_auth_login, try_catch, bind, lift.
  destruct (body req); try discriminate; reflexivity.
Qed.

Lemma Dangun_login_missing w req db :
  nullish (body req) = false -> credentials_present req = false ->
  Dangun.post_auth_login w req db = (db, fail 400 msg_credentials_required).
Proof.
  intros Hb Hc. unfold Dangun.post_auth_login, try_catch, bind, lift, ret.
  rewrite !(get_parsed _ _ Hb). fold (field req "username") (field req "password").
  unfold credentials_present in Hc.
  destruct (truthy (field req "username")), (truthy (field req "password"));
    try discriminate; reflexivity.
Qed.

Lemma Dangun_login_run w req db :
  nullish (body req) = false -> credentials_present req = true ->
  Dangun.post_auth_login w req db =
    (db,
     match List.filter (fun u => match prepareValue (field req "username") with
                                 | Some un => String.eqb (Dangun.username u) un
                                 | None => false
                                 end) (Dangun.users db) with
     | [] => fail 401 msg_bad_credentials
     | user :: _ =>
         match compare (field req "password") (Some (Dangun.password user)) with
         | Throw e => server_error e
         | Ok valid =>
             if valid
             then success (JObj [("token", JStr (Dangun.sign_user w user));
                                 ("user", Dangun.row_public user)])
             else fail 401 msg_bad_credentials
         end
     end).
Proof.
  intros Hb Hc. unfold Dangun.post_auth_login, try_catch, bind, lift, ret.
  rewrite !(get_parsed _ _ Hb). fold (field req "username") (field req "password").
  unfold credentials_present in Hc. apply andb_true_iff in Hc as [-> ->]. simpl.
  destruct (List.filter _ (Dangun.users db)) as [| user rest]; [reflexivity |].
  destruct (compare _ _) as [[|] | e]; reflexivity.
Qed.

Lemma Ecommerce_login_unparsed w req db :
  nullish (body req) = true ->
  Ecommerce.post_auth_login w req db = (db, fail 500 msg_server_error).
Proof.
  intros Hb. unfold Ecommerce.post_auth_login, try_catch, bind, lift.
  destruct (body req); try discriminate; reflexivity.
Qed.

Lemma Ecommerce_login_missing w req db :
  nullish (body req) = false -> credentials_present req = false ->
  Ecommerce.post_auth_login w req db = (db, fail 400 msg_credentials_required).
Proof.
  intros Hb Hc. unfold Ecommerce.post_auth_login, try_catch, bind, lift, ret.
  rewrite !(get_parsed _ _ Hb). fold (field req "username") (field req "password").
  unfold credentials_present in Hc.
  destruct (truthy (field req "username")), (truthy (field req "password"));
    try discriminate; reflexivity.
Qed.

Lemma Ecommerce_login_run w req db :
  nullish (body req) = false -> credentials_present req = true ->
  Ecommerce.post_auth_login w req db =
    (db,
     match List.filter (fun u => match prepareValue (field req "username") with
                                 | Some un => Ecommerce.same_key (Ecommerce.username u) un
                                              && String.eqb (Ecommerce.provider u) "local"
                                 | None => false
                                 end) (Ecommerce.users db) with
     | [] => fail 401 msg_bad_credentials
     | user :: _ =>
         match compare (field req "password") (Ecommerce.password user) with
         | Throw e => server_error e
         | Ok valid =>
             if valid
             then match Ecommerce.generateToken w (Some user), Ecommerce.sanitizeUser (Some user) with
                  | Ok token, Ok view => success (JObj [("token", JStr token); ("user", view)])
                  | _, _ => fail 500 msg_server_error
                  end
             else fail 401 msg_bad_credentials
         end
     end).
Proof.
  intros Hb Hc. unfold Ecommerce.post_auth_login, try_catch, bind, lift, ret.
  rewrite !(get_parsed _ _ Hb). fold (field req "username") (field req "password").
  unfold credentials_present in Hc. apply andb_true_iff in Hc as [-> ->]. simpl.
  destruct (List.filter _ (Ecommerce.users db)) as [| user rest]; [reflexivity |].
  destruct (compare _ _) as [[|] | e]; reflexivity.
Qed.

Lemma compare_true (v : JsVal) (h : option string) :
  compare v h = Ok true ->
  exists pw hash, v = JStr pw /\ h = Some hash /\ bcrypt_compare pw hash = true.
Proof.
  destruct v; try discriminate. destruct h as [hash |]; try discriminate.
  simpl. intros E. injection E as E. eauto.
Qed.

(** X3.  Login is sound and read-only.  It never changes the store; and
    when it answers 200, the store holds a row under the username given (a
    row of provider "local", in the e-commerce variant, so never an account
    created by the federated login) whose stored hash verifies the password
    given, and the response carries a token signed for that row and its
    public view. *)
Theorem login_is_sound :
  (forall (w : Dangun.World) req db,
      let out := Dangun.post_auth_login w req db in
      fst out = db /\
      (status_of (snd out) = Some 200 ->
       exists u name pw,
         In u (Dangun.users db) /\
         prepareValue (field req "username") = Some name /\ Dangun.username u = name /\
         field req "password" = JStr pw /\ bcrypt_compare pw (Dangun.password u) = true /\
         snd out = success (JObj [("token", JStr (Dangun.sign_user w u));
                                  ("user", Dangun.row_public u)]))) /\
  (forall (w : Ecommerce.World) req db,
      let out := Ecommerce.post_auth_login w req db in
      fst out = db /\
      (status_of (snd out) = Some 200 ->
       exists u name pw hash token view,
         In u (Ecommerce.users db) /\
         prepareValue (field req "username") = Some name /\
         Ecommerce.username u = Some name /\ Ecommerce.provider u = "local" /\
         field req "password" = JStr pw /\ Ecommerce.password u = Some hash /\
         bcrypt_compare pw hash = true /\
         Ecommerce.generateToken w (Some u) = Ok token /\
         Ecommerce.sanitizeUser (Some u) = Ok view /\
         snd out = success (JObj [("token", JStr token); ("user", view)]))).
Proof.
  split.
  - intros w req db out. unfold out.
    destruct (nullish (body req)) eqn:Hb.
    { rewrite Dangun_login_unparsed by exact Hb. split; [reflexivity | discriminate]. }
    destruct (credentials_present req) eqn:Hc.
    2:{ rewrite Dangun_login_missing by assumption. split; [reflexivity | discriminate]. }
    rewrite Dangun_login_run by assumption. split; [reflexivity |]. cbn [snd].
    destruct (List.filter _ (Dangun.users db)) as [| u rest] eqn:E; [discriminate |].
    apply filter_head in E as [Hin Hu].
    destruct (prepareValue (field req "username")) as [name |]; [| discriminate].
    apply String.eqb_eq in Hu.
    destruct (compare _ _) as [[|] | e] eqn:Ecmp; try discriminate.
    intros _. apply compare_true in Ecmp as (pw & hash & Hpw & Hhash & Hok).
    injection Hhash as <-.
    exists u, name, pw. repeat split; assumption.
  - intros w req db out. unfold out.
    destruct (nullish (body req)) eqn:Hb.
    { rewrite Ecommerce_login_unparsed by exact Hb. split; [reflexivity | discriminate]. }
    destruct (credentials_present req) eqn:Hc.
    2:{ rewrite Ecommerce_login_missing by assumption. split; [reflexivity | discriminate]. }
    rewrite Ecommerce_login_run by assumption. split; [reflexivity |]. cbn [snd].
    destruct (List.filter _ (Ecommerce.users db)) as [| u rest] eqn:E; [discriminate |].
    apply filter_head in E as [Hin Hu].
    destruct (prepareValue (field req "username")) as [name |]; [| discriminate].
    apply local_account_spec in Hu as [Hname Hprov].
    destruct (compare _ _) as [[|] | e] eqn:Ecmp; try discriminate.
    intros _. apply compare_true in Ecmp as (pw & hash & Hpw & Hhash & Hok).
    exists u, name, pw, hash. do 2 eexists. repeat split; try eassumption; reflexivity.
Qed.

End LoginRuns.

Lemma NoDup_map_eq {A B} (f : A -> B) (l : list A) (a b : A) :
  NoDup (map f l) -> In a l -> In b l -> f a = f b -> a = b.
Proof.
  induction l as [| x l IH]; simpl; [tauto |].
  intros Hnd Ha Hb Hab. apply NoDup_cons in Hnd as [Hx Hnd].
  rewrite list_elem_of_In in Hx.
  destruct Ha as [-> | Ha], Hb as [-> | Hb]; auto.
  - exfalso. apply Hx. rewrite Hab. apply in_map. exact Hb.
  - exfalso. apply Hx. rewrite <- Hab. apply in_map. exact Ha.
Qed.

Lemma NoDup_omap_eq {A B} (f : A -> option B) (l : list A) (a b : A) (k : B) :
  NoDup (omap f l) -> In a l -> In b l -> f a = Some k -> f b = Some k -> a = b.
Proof.
  induction l as [| x l IH]; [simpl; tauto |].
  change (omap f (x :: l)) with (match f x with Some y => y :: omap f l | None => omap f l end).
  intros Hnd Ha Hb Hfa Hfb.
  assert (Hin : forall c, In c l -> f c = Some k -> In k (omap f l)).
  { intros c Hc Hfc. apply list_elem_of_In, list_elem_of_omap. exists c.
    split; [apply list_elem_of_In, Hc | exact Hfc]. }
  destruct Ha as [-> | Ha], Hb as [-> | Hb]; auto.
  - rewrite Hfa in Hnd. apply NoDup_cons in Hnd as [Hx _]. rewrite list_elem_of_In in Hx.
    exfalso. apply Hx. eapply Hin; eauto.
  - rewrite Hfb in Hnd. apply NoDup_cons in Hnd as [Hx _]. rewrite list_elem_of_In in Hx.
    exfalso. apply Hx. eapply Hin; eauto.
  - apply IH; auto. destruct (f x); [apply NoDup_cons in Hnd as [_ Hnd] |]; exact Hnd.
Qed.

Lemma Forall2_last_kept {A} (R : A -> A -> Prop) (l : list A) (x : A) (k k' : list A) :
  Forall2 R ((l ++ [x])%list) k -> exists y, In y ((k ++ k')%list) /\ R x y.
Proof.
  intros HF. apply Forall2_app_inv_l in HF as (k1 & k2 & _ & Hx & ->).
  apply Forall2_cons_inv_l in Hx as (y & k3 & Hxy & _ & ->).
  exists y. split; [| exact Hxy]. apply in_or_app. left. apply in_or_app. right. left. reflexivity.
Qed.

Section Sessions.
Context `{Libs}.

(** What a register that answers 200 has done. *)
Lemma Dangun_register_created w req db :
  status_of (snd (Dangun.post_auth_register w req db)) = Some 200 ->
  exists pw name nick,
    nullish (body req) = false /\ required_present req = true /\
    field req "password" = JStr pw /\
    prepareValue (field req "username") = Some name /\
    let u := Dangun.mkUser (Dangun.users_id_seq db) name (bcrypt_hash pw (Dangun.salt w)) nick
               (Some Dangun.default_location) None (Dangun.db_now w) in
    Dangun.post_auth_register w req db =
      (Dangun.mkDB (Dangun.users db ++ [u]) (Dangun.users_id_seq db + 1),
       success (JObj [("token", JStr (Dangun.sign_user w u)); ("user", Dangun.row_register u)])).
Proof.
  destruct (nullish (body req)) eqn:Hb.
  { rewrite Dangun_register_unparsed by exact Hb. discriminate. }
  destruct (required_present req) eqn:Hp.
  2:{ rewrite Dangun_register_missing by assumption. discriminate. }
  rewrite Dangun_register_run by assumption.
  destruct (field req "password") as [| | b | n | pw | xs | fs] eqn:Hpw; simpl; try discriminate.
  unfold Dangun.insert_user.
  destruct (prepareValue (field req "username")) as [name |]; [| discriminate].
  destruct (prepareValue (field req "nickname")) as [nick |]; [| discriminate].
  destruct (existsb _ _); [discriminate |].
  intros _. exists pw, name, nick. repeat split.
Qed.

Lemma Ecommerce_register_created w req db :
  status_of (snd (Ecommerce.post_auth_register w req db)) = Some 200 ->
  exists pw name nick,
    nullish (body req) = false /\ required_present req = true /\
    field req "password" = JStr pw /\ (6 <= String.length pw)%nat /\
    prepareValue (field req "username") = Some name /\
    let u := Ecommerce.mkUser (Ecommerce.users_id_seq db) (Some name)
               (Some (bcrypt_hash pw (Ecommerce.salt w))) nick
               (prepareValue (js_or (field req "email") JNull))
               (prepareValue (js_or (field req "phone") JNull))
               None None "local" (Ecommerce.db_now w) in
    exists token view,
      Ecommerce.generateToken w (Some u) = Ok token /\ Ecommerce.sanitizeUser (Some u) = Ok view /\
      Ecommerce.post_auth_register w req db =
        (Ecommerce.mkDB (Ecommerce.users db ++ [u]) (Ecommerce.users_id_seq db + 1),
         success (JObj [("token", JStr token); ("user", view)])).
Proof.
  destruct (nullish (body req)) eqn:Hb.
  { rewrite Ecommerce_register_unparsed by exact Hb. discriminate. }
  destruct (required_present req) eqn:Hp.
  2:{ rewrite Ecommerce_register_missing by assumption. discriminate. }
  rewrite Ecommerce_register_run by assumption.
  destruct (js_lt _ 6) eqn:Hlt; [discriminate |].
  destruct (field req "password") as [| | b | n | pw | xs | fs] eqn:Hpw; try discriminate.
  unfold hash, Ecommerce.insert_local, Ecommerce.insert_row.
  destruct (prepareValue_truthy (field req "username")) as [name Hname].
  { apply required_present_guard in Hp. tauto. }
  rewrite Hname.
  destruct (prepareValue (field req "nickname")) as [nick |]; [| discriminate].
  destruct (Ecommerce.violates_unique _ _); [discriminate |].
  intros _. exists pw, name, nick. repeat split.
  - simpl in Hlt. apply Z.ltb_ge in Hlt. lia.
  - do 2 eexists. repeat split.
Qed.

End Sessions.

Section RegisterThenLogin.
Context `{Libs}.

Lemma Dangun_registered_then w1 req1 db0 evs :
  Dangun_wf db0 ->
  status_of (snd (Dangun.post_auth_register w1 req1 db0)) = Some 200 ->
  let db := Dangun.run evs (fst (Dangun.post_auth_register w1 req1 db0)) in
  exists pw name u,
    required_present req1 = true /\ field req1 "password" = JStr pw /\
    prepareValue (field req1 "username") = Some name /\
    Dangun_wf db /\ In u (Dangun.users db) /\
    Dangun.id u = Dangun.users_id_seq db0 /\ Dangun.username u = name /\
    Dangun.password u = bcrypt_hash pw (Dangun.salt w1).
Proof.
  intros Hwf Hok db.
  destruct (Dangun_register_created w1 req1 db0 Hok) as (pw & name & nick & _ & Hp & Hpw & Hname & Hrun).
  pose proof (Dangun_run_wf [(Dangun.Register, w1, req1)] db0 Hwf) as Hwf1. simpl in Hwf1.
  pose proof (Dangun_run_wf evs _ Hwf1) as Hwf2. fold db in Hwf2.
  destruct (Dangun_run_kept evs (fst (Dangun.post_auth_register w1 req1 db0)))
    as (_ & older & newer & Husers & Hold). fold db in Husers.
  rewrite Hrun in Hold. simpl in Hold.
  destruct (Forall2_last_kept _ _ _ _ newer Hold) as (u & Hin & Hid & Hun & Hpass & _).
  rewrite <- Husers in Hin. simpl in Hid, Hun, Hpass.
  exists pw, name, u.
  exact (conj Hp (conj Hpw (conj Hname (conj Hwf2 (conj Hin (conj Hid (conj Hun Hpass))))))).
Qed.

Lemma Ecommerce_registered_then w1 req1 db0 evs :
  Ecommerce_wf db0 ->
  status_of (snd (Ecommerce.post_auth_register w1 req1 db0)) = Some 200 ->
  let db := Ecommerce.run evs (fst (Ecommerce.post_auth_register w1 req1 db0)) in
  exists pw name u,
    required_present req1 = true /\ field req1 "password" = JStr pw /\
    prepareValue (field req1 "username") = Some name /\
    Ecommerce_wf db /\ In u (Ecommerce.users db) /\
    Ecommerce.id u = Ecommerce.users_id_seq db0 /\ Ecommerce.username u = Some name /\
    Ecommerce.provider u = "local" /\
    Ecommerce.password u = Some (bcrypt_hash pw (Ecommerce.salt w1)).
Proof.
  intros Hwf Hok db.
  destruct (Ecommerce_register_created w1 req1 db0 Hok)
    as (pw & name & nick & _ & Hp & Hpw & _ & Hname & token & view & _ & _ & Hrun).
  pose proof (Ecommerce_run_wf [(Ecommerce.Register, w1, req1)] db0 Hwf) as Hwf1. simpl in Hwf1.
  pose proof (Ecommerce_run_wf evs _ Hwf1) as Hwf2. fold db in Hwf2.
  destruct (Ecommerce_run_kept evs (fst (Ecommerce.post_auth_register w1 req1 db0)))
    as (_ & older & newer & Husers & Hold). fold db in Husers.
  rewrite Hrun in Hold. simpl in Hold.
  destruct (Forall2_last_kept _ _ _ _ newer Hold) as (u & Hin & Hid & Hun & Hpass & _ & Hprov & _).
  rewrite <- Husers in Hin. simpl in Hid, Hun, Hpass, Hprov.
  exists pw, name, u.
  exact (conj Hp (conj Hpw (conj Hname (conj Hwf2 (conj Hin (conj Hid (conj Hun (conj Hprov Hpass)))))))).
Qed.

(** X4.  Register, then login.  After a register has answered 200 on a
    well-formed store, and whatever requests were served since, a login
    with the same username and password answers 200 with a token and the
    view of the account registered (the row whose id the register handed
    out), provided the hash written at registration verifies its own
    password. *)
Theorem login_after_register :
  (forall (w1 w2 : Dangun.World) req1 req2 db0 evs pw,
      Dangun_wf db0 ->
      status_of (snd (Dangun.post_auth_register w1 req1 db0)) = Some 200 ->
      field req1 "password" = JStr pw ->
      bcrypt_compare pw (bcrypt_hash pw (Dangun.salt w1)) = true ->
      nullish (body req2) = false ->
      field req2 "username" = field req1 "username" -> field req2 "password" = JStr pw ->
      let db := Dangun.run evs (fst (Dangun.post_auth_register w1 req1 db0)) in
      exists u,
        In u (Dangun.users db) /\ Dangun.id u = Dangun.users_id_seq db0 /\
        Dangun.post_auth_login w2 req2 db =
          (db, success (JObj [("token", JStr (Dangun.sign_user w2 u));
                              ("user", Dangun.row_public u)]))) /\
  (forall (w1 w2 : Ecommerce.World) req1 req2 db0 evs pw,
      Ecommerce_wf db0 ->
      status_of (snd (Ecommerce.post_auth_register w1 req1 db0)) = Some 200 ->
      field req1 "password" = JStr pw ->
      bcrypt_compare pw (bcrypt_hash pw (Ecommerce.salt w1)) = true ->
      nullish (body req2) = false ->
      field req2 "username" = field req1 "username" -> field req2 "password" = JStr pw ->
      let db := Ecommerce.run evs (fst (Ecommerce.post_auth_register w1 req1 db0)) in
      exists u token view,
        In u (Ecommerce.users db) /\ Ecommerce.id u = Ecommerce.users_id_seq db0 /\
        Ecommerce.generateToken w2 (Some u) = Ok token /\
        Ecommerce.sanitizeUser (Some u) = Ok view /\
        Ecommerce.post_auth_login w2 req2 db =
          (db, success (JObj [("token", JStr token); ("user", view)]))).
Proof.
  split.
  - intros w1 w2 req1 req2 db0 evs pw Hwf Hok Hpw1 Hbcrypt Hb2 Hu2 Hpw2 db.
    destruct (Dangun_registered_then w1 req1 db0 evs Hwf Hok)
      as (pw' & name & u & Hp & Hpw' & Hname & (_ & Hnd & _) & Hin & Hid & Hun & Hpass).
    fold db in Hnd, Hin.
    assert (pw' = pw) as -> by congruence.
    apply required_present_guard in Hp as (Htu & Htp & _).
    assert (Hc : credentials_present req2 = true).
    { unfold credentials_present. rewrite Hu2, Htu, Hpw2, <- Hpw1, Htp. reflexivity. }
    exists u. split; [exact Hin |]. split; [exact Hid |].
    rewrite (Dangun_login_run w2 req2 db Hb2 Hc), Hu2, Hname.
    destruct (filter_cons_of (fun r => String.eqb (Dangun.username r) name) (Dangun.users db) u Hin)
      as (u' & rest & E); [apply String.eqb_eq, Hun |].
    rewrite E. apply filter_head in E as [Hin' Hun']. apply String.eqb_eq in Hun'.
    assert (u' = u) as ->.
    { apply (NoDup_map_eq Dangun.username (Dangun.users db)); auto. congruence. }
    rewrite Hpw2, Hpass. simpl. rewrite Hbcrypt. reflexivity.
  - intros w1 w2 req1 req2 db0 evs pw Hwf Hok Hpw1 Hbcrypt Hb2 Hu2 Hpw2 db.
    destruct (Ecommerce_registered_then w1 req1 db0 evs Hwf Hok)
      as (pw' & name & u & Hp & Hpw' & Hname & (_ & Hnd & _) & Hin & Hid & Hun & Hprov & Hpass).
    fold db in Hnd, Hin.
    assert (pw' = pw) as -> by congruence.
    apply required_present_guard in Hp as (Htu & Htp & _).
    assert (Hc : credentials_present req2 = true).
    { unfold credentials_present. rewrite Hu2, Htu, Hpw2, <- Hpw1, Htp. reflexivity. }
    exists u. do 2 eexists. split; [exact Hin |]. split; [exact Hid |].
    split; [reflexivity |]. split; [reflexivity |].
    rewrite (Ecommerce_login_run w2 req2 db Hb2 Hc), Hu2, Hname.
    destruct (filter_cons_of
                (fun r => Ecommerce.same_key (Ecommerce.username r) name
                          && String.eqb (Ecommerce.provider r) "local")
                (Ecommerce.users db) u Hin) as (u' & rest & E).
    { apply local_account_spec. split; assumption. }
    rewrite E. apply filter_head in E as [Hin' Hun']. apply local_account_spec in Hun' as [Hun' _].
    assert (u' = u) as ->.
    { apply (NoDup_omap_eq Ecommerce.username (Ecommerce.users db) u' u name); auto. }
    rewrite Hpw2, Hpass. simpl. rewrite Hbcrypt. reflexivity.
Qed.

End RegisterThenLogin.

Section Me.
Context `{Libs}.

Lemma Dangun_me_run req db p :
  user req = Some p ->
  Dangun.me_handler req db =
    (db, match List.filter (fun u => Dangun.id u =? c_id (p_claims p)) (Dangun.users db) with
         | [] => fail 404 msg_user_not_found
         | row :: _ => success (Dangun.row_me row)
         end).
Proof.
  intros Hu. unfold Dangun.me_handler, try_catch, bind, lift, ret, Dangun.user_id. rewrite Hu. simpl.
  destruct (List.filter _ _); reflexivity.
Qed.

Lemma Ecommerce_me_run req db p :
  user req = Some p ->
  Ecommerce.me_handler req db =
    (db, match List.filter (fun u => Ecommerce.id u =? c_id (p_claims p)) (Ecommerce.users db) with
         | [] => fail 404 msg_user_not_found
         | row :: _ =>
             match Ecommerce.sanitizeUser (Some row) with
             | Ok view => success view
             | Throw e => server_error e
             end
         end).
Proof.
  intros Hu. unfold Ecommerce.me_handler, try_catch, bind, lift, ret, Ecommerce.user_id.
  rewrite Hu. simpl. destruct (List.filter _ _); reflexivity.
Qed.

Lemma Dangun_me_reads w req db : fst (Dangun.get_auth_me w req db) = db.
Proof.
  unfold Dangun.get_auth_me, protected. destruct (auth _ _ req) as [r | req']; [reflexivity |].
  unfold Dangun.me_handler, try_catch, bind, lift, ret, Dangun.user_id.
  destruct (user req'); simpl; [| reflexivity]. destruct (List.filter _ _); reflexivity.
Qed.

Lemma Ecommerce_me_reads w req db : fst (Ecommerce.get_auth_me w req db) = db.
Proof.
  unfold Ecommerce.get_auth_me, protected. destruct (auth _ _ req) as [r | req']; [reflexivity |].
  unfold Ecommerce.me_handler, try_catch, bind, lift, ret, Ecommerce.user_id.
  destruct (user req'); simpl; [| reflexivity]. destruct (List.filter _ _); reflexivity.
Qed.

Lemma Dangun_me_of w req db header tok p :
  authorization req = Some header -> startsWith header "Bearer " = true ->
  split " " header !! 1%nat = Some tok ->
  jwt_check tok (Dangun.JWT_SECRET w) (Dangun.now_ms w) = inr p ->
  Dangun.get_auth_me w req db =
    (db, match List.filter (fun u => Dangun.id u =? c_id (p_claims p)) (Dangun.users db) with
         | [] => fail 404 msg_user_not_found
         | row :: _ => success (Dangun.row_me row)
         end).
Proof.
  intros Hh Hs Ht Hc. unfold Dangun.get_auth_me, protected.
  rewrite (auth_bearer _ _ _ _ Hh Hs), Ht. simpl. rewrite Hc.
  apply Dangun_me_run. reflexivity.
Qed.

Lemma Ecommerce_me_of w req db header tok p :
  authorization req = Some header -> startsWith header "Bearer " = true ->
  split " " header !! 1%nat = Some tok ->
  jwt_check tok (Ecommerce.JWT_SECRET w) (Ecommerce.now_ms w) = inr p ->
  Ecommerce.get_auth_me w req db =
    (db, match List.filter (fun u => Ecommerce.id u =? c_id (p_claims p)) (Ecommerce.users db) with
         | [] => fail 404 msg_user_not_found
         | row :: _ =>
             match Ecommerce.sanitizeUser (Some row) with
             | Ok view => success view
             | Throw e => server_error e
             end
         end).
Proof.
  intros Hh Hs Ht Hc. unfold Ecommerce.get_auth_me, protected.
  rewrite (auth_bearer _ _ _ _ Hh Hs), Ht. simpl. rewrite Hc.
  apply Ecommerce_me_run. reflexivity.
Qed.

Lemma Dangun_me_row w req db header tok p u :
  authorization req = Some header -> startsWith header "Bearer " = true ->
  split " " header !! 1%nat = Some tok ->
  jwt_check tok (Dangun.JWT_SECRET w) (Dangun.now_ms w) = inr p ->
  Dangun_wf db -> In u (Dangun.users db) -> Dangun.id u = c_id (p_claims p) ->
  Dangun.get_auth_me w req db = (db, success (Dangun.row_me u)).
Proof.
  intros Hh Hs Ht Hc (Hnd & _) Hin Hid.
  rewrite (Dangun_me_of w req db header tok p Hh Hs Ht Hc).
  destruct (filter_cons_of (fun r => Dangun.id r =? c_id (p_claims p)) (Dangun.users db) u Hin)
    as (u' & rest & E); [apply Z.eqb_eq, Hid |].
  rewrite E. apply filter_head in E as [Hin' Hid']. apply Z.eqb_eq in Hid'.
  assert (u' = u) as -> by (apply (NoDup_map_eq Dangun.id (Dangun.users db)); auto; congruence).
  reflexivity.
Qed.

Lemma Ecommerce_me_row w req db header tok p u :
  authorization req = Some header -> startsWith header "Bearer " = true ->
  split " " header !! 1%nat = Some tok ->
  jwt_check tok (Ecommerce.JWT_SECRET w) (Ecommerce.now_ms w) = inr p ->
  Ecommerce_wf db -> In u (Ecommerce.users db) -> Ecommerce.id u = c_id (p_claims p) ->
  exists view,
    Ecommerce.sanitizeUser (Some u) = Ok view /\
    Ecommerce.get_auth_me w req db = (db, success view).
Proof.
  intros Hh Hs Ht Hc (Hnd & _) Hin Hid.
  rewrite (Ecommerce_me_of w req db header tok p Hh Hs Ht Hc).
  destruct (filter_cons_of (fun r => Ecommerce.id r =? c_id (p_claims p)) (Ecommerce.users db) u Hin)
    as (u' & rest & E); [apply Z.eqb_eq, Hid |].
  rewrite E. apply filter_head in E as [Hin' Hid']. apply Z.eqb_eq in Hid'.
  assert (u' = u) as -> by (apply (NoDup_map_eq Ecommerce.id (Ecommerce.users db)); auto; congruence).
  eexists. split; reflexivity.
Qed.


(** X6.  The token a register hands out opens a session for the account it
    created.  Presented as a Bearer token to GET /api/auth/me, by a process
    with the same secret, less than 7 days (in whole seconds) after it was
    issued and whatever requests were served in between, it is answered 200
    with the current row of that account. *)
Theorem registered_token_opens_session :
  (forall (w1 w2 : Dangun.World) req1 req2 db0 evs header,
      Dangun_wf db0 ->
      status_of (snd (Dangun.post_auth_register w1 req1 db0)) = Some 200 ->
      Dangun.JWT_SECRET w2 = Dangun.JWT_SECRET w1 ->
      Dangun.now_ms w2 / 1000 < Dangun.now_ms w1 / 1000 + 7 * 24 * 60 * 60 ->
      authorization req2 = Some header -> startsWith header "Bearer " = true ->
      let db := Dangun.run evs (fst (Dangun.post_auth_register w1 req1 db0)) in
      exists token u1 u2,
        snd (Dangun.post_auth_register w1 req1 db0)
        = success (JObj [("token", JStr token); ("user", Dangun.row_register u1)]) /\
        (split " " header !! 1%nat = Some token ->
         In u2 (Dangun.users db) /\ Dangun_same_account u1 u2 /\
         Dangun.get_auth_me w2 req2 db = (db, success (Dangun.row_me u2)))) /\
  (forall (w1 w2 : Ecommerce.World) req1 req2 db0 evs header,
      Ecommerce_wf db0 ->
      status_of (snd (Ecommerce.post_auth_register w1 req1 db0)) = Some 200 ->
      Ecommerce.JWT_SECRET w2 = Ecommerce.JWT_SECRET w1 ->
      Ecommerce.now_ms w2 / 1000 < Ecommerce.now_ms w1 / 1000 + 7 * 24 * 60 * 60 ->
      authorization req2 = Some header -> startsWith header "Bearer " = true ->
      let db := Ecommerce.run evs (fst (Ecommerce.post_auth_register w1 req1 db0)) in
      exists token view1 u1 u2 view2,
        Ecommerce.sanitizeUser (Some u1) = Ok view1 /\
        snd (Ecommerce.post_auth_register w1 req1 db0)
        = success (JObj [("token", JStr token); ("user", view1)]) /\
        (split " " header !! 1%nat = Some token ->
         In u2 (Ecommerce.users db) /\ Ecommerce_same_account u1 u2 /\
         Ecommerce.sanitizeUser (Some u2) = Ok view2 /\
         Ecommerce.get_auth_me w2 req2 db = (db, success view2))).
Proof.
  split.
  - intros w1 w2 req1 req2 db0 evs header Hwf Hok Hsecret Hfresh Hh Hs db.
    destruct (Dangun_register_created w1 req1 db0 Hok)
      as (pw & name & nick & _ & _ & _ & _ & Hrun).
    set (u1 := Dangun.mkUser _ _ _ _ _ _ _) in Hrun.
    pose proof (Dangun_run_wf [(Dangun.Register, w1, req1)] db0 Hwf) as Hwf1. simpl in Hwf1.
    pose proof (Dangun_run_wf evs _ Hwf1) as Hwf2. fold db in Hwf2.
    destruct (Dangun_run_kept evs (fst (Dangun.post_auth_register w1 req1 db0)))
      as (_ & older & newer & Husers & Hold). fold db in Husers.
    rewrite Hrun in Hold. simpl in Hold.
    destruct (Forall2_last_kept _ _ _ _ newer Hold) as (u2 & Hin & Hsame).
    rewrite <- Husers in Hin.
    exists (Dangun.sign_user w1 u1), u1, u2. split; [rewrite Hrun; reflexivity |].
    intros Htok. split; [exact Hin |]. split; [exact Hsame |].
    apply (Dangun_me_row w2 req2 db header (Dangun.sign_user w1 u1)
             (mkPayload (mkClaims (Dangun.id u1) (Some (Dangun.username u1)) (Dangun.nickname u1) None)
                (Dangun.now_ms w1 / 1000) (Dangun.now_ms w1 / 1000 + expiresIn_7d))); auto.
    + unfold Dangun.sign_user. rewrite Hsecret, jwt_check_sign.
      unfold expiresIn_7d, seconds_7d.
      destruct (Z.leb_spec (Dangun.now_ms w1 / 1000 + 7 * 24 * 60 * 60) (Dangun.now_ms w2 / 1000));
        [lia | reflexivity].
    + destruct Hsame as [Hid _]. exact Hid.
  - intros w1 w2 req1 req2 db0 evs header Hwf Hok Hsecret Hfresh Hh Hs db.
    destruct (Ecommerce_register_created w1 req1 db0 Hok)
      as (pw & name & nick & _ & _ & _ & _ & _ & Hrun).
    set (u1 := Ecommerce.mkUser _ _ _ _ _ _ _ _ _ _) in Hrun.
    destruct Hrun as (token & view1 & Htoken & Hview1 & Hrun).
    pose proof (Ecommerce_run_wf [(Ecommerce.Register, w1, req1)] db0 Hwf) as Hwf1. simpl in Hwf1.
    pose proof (Ecommerce_run_wf evs _ Hwf1) as Hwf2. fold db in Hwf2.
    destruct (Ecommerce_run_kept evs (fst (Ecommerce.post_auth_register w1 req1 db0)))
      as (_ & older & newer & Husers & Hold). fold db in Husers.
    rewrite Hrun in Hold. simpl in Hold.
    destruct (Forall2_last_kept _ _ _ _ newer Hold) as (u2 & Hin & Hsame).
    rewrite <- Husers in Hin.
    assert (Hview2 : exists view2, Ecommerce.sanitizeUser (Some u2) = Ok view2) by (eexists; reflexivity).
    destruct Hview2 as [view2 Hview2].
    exists token, view1, u1, u2, view2. split; [exact Hview1 |]. split; [rewrite Hrun; reflexivity |].
    intros Htok. split; [exact Hin |]. split; [exact Hsame |]. split; [exact Hview2 |].
    injection Htoken as Htoken.
    destruct (Ecommerce_me_row w2 req2 db header token
                (mkPayload (mkClaims (Ecommerce.id u1) (Ecommerce.username u1) (Ecommerce.nickname u1)
                              (Some (Ecommerce.provider u1)))
                   (Ecommerce.now_ms w1 / 1000) (Ecommerce.now_ms w1 / 1000 + expiresIn_7d)) u2)
      as (view & Hview & Hme); auto.
    + rewrite <- Htoken, Hsecret, jwt_check_sign.
      unfold expiresIn_7d, seconds_7d.
      destruct (Z.leb_spec (Ecommerce.now_ms w1 / 1000 + 7 * 24 * 60 * 60) (Ecommerce.now_ms w2 / 1000));
        [lia | reflexivity].
    + destruct Hsame as [Hid _]. exact Hid.
    + rewrite Hme. congruence.
Qed.

End Me.

(** * The callback: failures and repeated logins *)

Lemma Forall_at {A} (P : A -> Prop) (l : list A) (x : A) : Forall P l -> In x l -> P x.
Proof. intros Hl Hx. rewrite Forall_forall in Hl. apply Hl, list_elem_of_In, Hx. Qed.

Section CallbackOutcomes.
Context `{Libs}.

Lemma callback_unparsed_query w req db :
  nullish (query req) = true ->
  Ecommerce.get_auth_kakao_callback w req db =
    (db, Ecommerce.login_error Ecommerce.msg_kakao_login_error).
Proof.
  intros Hq. unfold Ecommerce.get_auth_kakao_callback, try_catch, bind, lift.
  destruct (query req); try discriminate; reflexivity.
Qed.

Lemma callback_null_token_body w req db tokenData :
  truthy (get_opt (query req) "code") = true ->
  Ecommerce.kakao_token w = Ok tokenData -> nullish tokenData = true ->
  Ecommerce.get_auth_kakao_callback w req db =
    (db, Ecommerce.login_error Ecommerce.msg_kakao_login_error).
Proof.
  intros Hc Ht Hn. unfold Ecommerce.get_auth_kakao_callback, try_catch, bind, lift, ret.
  rewrite (get_opt_truthy _ _ Hc), Hc, Ht. destruct tokenData; try discriminate; reflexivity.
Qed.

Lemma callback_null_profile_body w req db tokenData ku :
  truthy (get_opt (query req) "code") = true ->
  Ecommerce.kakao_token w = Ok tokenData -> truthy (get_opt tokenData "access_token") = true ->
  Ecommerce.kakao_profile w = Ok ku -> nullish ku = true ->
  Ecommerce.get_auth_kakao_callback w req db =
    (db, Ecommerce.login_error Ecommerce.msg_kakao_login_error).
Proof.
  intros Hc Ht Ha Hp Hn. unfold Ecommerce.get_auth_kakao_callback, try_catch, bind, lift, ret.
  rewrite (get_opt_truthy _ _ Hc), Hc, Ht, (get_opt_truthy _ _ Ha), Ha, Hp.
  destruct ku; try discriminate; reflexivity.
Qed.

(** On a well-formed store, a callback that the provider has answered logs
    the user in. *)
Lemma callback_answered w req db ku :
  Ecommerce_wf db -> provider_answers w req ku ->
  exists token, snd (Ecommerce.get_auth_kakao_callback w req db) = success_redirect token.
Proof.
  intros (_ & _ & _ & Hseq) Hpa.
  destruct (prepareValue_truthy (kakaoNickname ku) (kakaoNickname_truthy ku)) as [nick Hnick].
  destruct (List.filter (fun u => Ecommerce.same_key (Ecommerce.kakao_id u) (kakaoId ku))
              (Ecommerce.users db)) as [| u0 rest] eqn:E.
  - destruct (callback_unknown w req db ku nick Hpa Hnick) as (token & _ & Hrun).
    + intros u Hin. split.
      * intros Hk. apply same_key_spec in Hk.
        assert (Hu : In u (List.filter (fun u => Ecommerce.same_key (Ecommerce.kakao_id u) (kakaoId ku))
                             (Ecommerce.users db))) by (apply filter_In; auto).
        rewrite E in Hu. destruct Hu.
      * pose proof (Forall_at _ _ u Hseq Hin) as Hlt. simpl in Hlt. lia.
    + exists token. rewrite Hrun. reflexivity.
  - apply filter_head in E as [Hin Hk]. apply same_key_spec in Hk.
    destruct (callback_known w req db ku nick Hpa Hnick) as (_ & u1 & token & _ & _ & _ & Hres); eauto.
Qed.

(** X7.  The callback has two outcomes on a well-formed store: it redirects
    to the success route with a token, or it leaves the store exactly as it
    was and redirects to the login route with an error message.  The second
    is what happens without a code (message: authentication failed), when
    the token exchange is answered without an access token (message: the
    provider's error description, else: token issue failed), and when a call
    to the provider raises or answers JSON null (message: error while
    processing the login). *)
Theorem callback_logs_in_or_leaves_store :
  forall (w : Ecommerce.World) req db,
    let out := Ecommerce.get_auth_kakao_callback w req db in
    (Ecommerce_wf db ->
     (exists token, snd out = success_redirect token) \/
     (fst out = db /\ exists msg, snd out = Ecommerce.login_error msg)) /\
    (nullish (query req) = false -> truthy (get_opt (query req) "code") = false ->
     out = (db, Ecommerce.login_error Ecommerce.msg_kakao_auth_failed)) /\
    (forall tokenData,
        truthy (get_opt (query req) "code") = true ->
        Ecommerce.kakao_token w = Ok tokenData -> nullish tokenData = false ->
        truthy (get_opt tokenData "access_token") = false ->
        out = (db, match Ecommerce.encode (js_or (get_opt tokenData "error_description")
                                             (JStr Ecommerce.msg_kakao_token_failed)) with
                   | Ok encoded => Ecommerce.login_error encoded
                   | Throw _ => Ecommerce.login_error Ecommerce.msg_kakao_login_error
                   end)) /\
    (truthy (get_opt (query req) "code") = true ->
     (exists e, Ecommerce.kakao_token w = Throw e) \/
     (exists tokenData e,
         Ecommerce.kakao_token w = Ok tokenData /\ truthy (get_opt tokenData "access_token") = true /\
         Ecommerce.kakao_profile w = Throw e) ->
     out = (db, Ecommerce.login_error Ecommerce.msg_kakao_login_error)).
Proof.
  intros w req db out. split; [| split; [| split]].
  - intros Hwf. unfold out.
    destruct (nullish (query req)) eqn:Hq.
    { right. rewrite callback_unparsed_query by exact Hq. eauto. }
    destruct (truthy (get_opt (query req) "code")) eqn:Hc.
    2:{ right. rewrite callback_without_code by assumption. eauto. }
    destruct (Ecommerce.kakao_token w) as [tokenData | e] eqn:Ht.
    2:{ right. rewrite callback_provider_raises; eauto. }
    destruct (nullish tokenData) eqn:Hn.
    { right. rewrite (callback_null_token_body w req db tokenData) by assumption. eauto. }
    destruct (truthy (get_opt tokenData "access_token")) eqn:Ha.
    2:{ right. rewrite (callback_token_refused w req db tokenData) by assumption.
        split; [reflexivity |]. destruct (Ecommerce.encode _); eauto. }
    destruct (Ecommerce.kakao_profile w) as [ku | e] eqn:Hp.
    2:{ right. rewrite callback_provider_raises; eauto 10. }
    destruct (nullish ku) eqn:Hk.
    { right. rewrite (callback_null_profile_body w req db tokenData ku) by assumption. eauto. }
    left. apply (callback_answered w req db ku Hwf).
    split; [exact Hc |]. split; [eauto |]. split; assumption.
  - apply callback_without_code.
  - intros tokenData. apply callback_token_refused.
  - apply callback_provider_raises.
Qed.

Lemma Forall2_length_eq {A B} (R : A -> B -> Prop) (l : list A) (k : list B) :
  Forall2 R l k -> length l = length k.
Proof. intros HF. induction HF; simpl; congruence. Qed.

(** X8.  The first federated login of a provider identifier creates one
    account, and every later login of the same identifier is a login to
    that account: whatever requests were served in between, it creates no
    row, and its token is signed for the row with the id handed out the
    first time, refreshed with the provider's current data. *)
Theorem federated_login_twice_is_one_account :
  forall (w1 w2 : Ecommerce.World) req1 req2 db0 evs ku1 ku2 nick2,
    Ecommerce_wf db0 ->
    provider_answers w1 req1 ku1 ->
    (forall u, In u (Ecommerce.users db0) -> Ecommerce.kakao_id u <> Some (kakaoId ku1)) ->
    provider_answers w2 req2 ku2 -> kakaoId ku2 = kakaoId ku1 ->
    prepareValue (kakaoNickname ku2) = Some nick2 ->
    let db := Ecommerce.run evs (fst (Ecommerce.get_auth_kakao_callback w1 req1 db0)) in
    let out2 := Ecommerce.get_auth_kakao_callback w2 req2 db in
    exists u token,
      In u (Ecommerce.users db) /\ Ecommerce.id u = Ecommerce.users_id_seq db0 /\
      Ecommerce.kakao_id u = Some (kakaoId ku1) /\ Ecommerce.provider u = "kakao" /\
      length (Ecommerce.users (fst out2)) = length (Ecommerce.users db) /\
      Ecommerce.generateToken w2
        (Some (Ecommerce.set_kakao nick2 (prepareValue (kakaoProfileImage ku2))
                 (prepareValue (kakaoEmail ku2)) u)) = Ok token /\
      snd out2 = success_redirect token.
Proof.
  intros w1 w2 req1 req2 db0 evs ku1 ku2 nick2 Hwf Hpa1 Hnew Hpa2 Hsame Hnick2 db out2.
  destruct (prepareValue_truthy (kakaoNickname ku1) (kakaoNickname_truthy ku1)) as [nick1 Hnick1].
  destruct (callback_unknown w1 req1 db0 ku1 nick1 Hpa1 Hnick1) as (token1 & _ & Hrun1).
  { intros u Hin. split; [apply Hnew, Hin |].
    destruct Hwf as (_ & _ & _ & Hseq). pose proof (Forall_at _ _ u Hseq Hin) as Hlt.
    simpl in Hlt. lia. }
  pose proof (Ecommerce_run_wf [(Ecommerce.KakaoCallback, w1, req1)] db0 Hwf) as Hwf1. simpl in Hwf1.
  pose proof (Ecommerce_run_wf evs _ Hwf1) as Hwf2. fold db in Hwf2.
  destruct (Ecommerce_run_kept evs (fst (Ecommerce.get_auth_kakao_callback w1 req1 db0)))
    as (_ & older & newer & Husers & Hold). fold db in Husers.
  rewrite Hrun1 in Hold. simpl in Hold.
  destruct (Forall2_last_kept _ _ _ _ newer Hold) as (u & Hin & Hid & _ & _ & Hk & Hprov & _).
  rewrite <- Husers in Hin. simpl in Hid, Hk, Hprov.
  destruct (callback_known w2 req2 db ku2 nick2 Hpa2 Hnick2) as (Hrows & u0 & token & Hin0 & Hk0 & Htok & Hres).
  { exists u. rewrite Hsame. auto. }
  assert (u0 = u) as ->.
  { destruct Hwf2 as (_ & _ & Hnd & _).
    apply (NoDup_omap_eq Ecommerce.kakao_id (Ecommerce.users db) u0 u (kakaoId ku1)); auto.
    rewrite <- Hsame. exact Hk0. }
  exists u, token. repeat split; try assumption.
  symmetry. apply (Forall2_length_eq _ _ _ Hrows).
Qed.

End CallbackOutcomes.

(** * The gate's reading of the header *)

(** No space occurs in [s]. *)
Fixpoint spaceless (s : string) : bool :=
  match s with
  | EmptyString => true
  | String c r => negb (Ascii.eqb c " ") && spaceless r
  end.

Lemma split_spaceless (tok : string) :
  spaceless tok = true -> split " " tok = [tok].
Proof.
  induction tok as [| c r IH]; simpl; [reflexivity |].
  intros Hs. apply andb_true_iff in Hs as [Hc Hr]. apply negb_true_iff in Hc.
  rewrite Hc, (IH Hr). reflexivity.
Qed.

Lemma split_spaceless_then (tok rest : string) :
  spaceless tok = true -> split " " (tok +:+ String " " rest) = tok :: split " " rest.
Proof.
  induction tok as [| c r IH]; intros Hs.
  - reflexivity.
  - simpl in Hs. apply andb_true_iff in Hs as [Hc Hr]. apply negb_true_iff in Hc.
    change (String c r +:+ String " " rest) with (String c (r +:+ String " " rest)).
    simpl. rewrite Hc, (IH Hr). reflexivity.
Qed.

Lemma startsWith_bearer (s : string) : startsWith ("Bearer " +:+ s) "Bearer " = true.
Proof. unfold startsWith. cbv [String.append]. simpl. destruct s; reflexivity. Qed.

Section GateHeader.
Context `{Libs}.

(** X9.  The gate takes as token exactly the text between the first and
    the second space of a Bearer header.  Whatever follows a second space is
    ignored: the header is accepted or refused as the token alone would be.
    A header with two spaces after the scheme presents the empty token. *)
Theorem gate_reads_the_second_word (secret : string) (now : Z) (req : Request) (tok rest : string) :
  spaceless tok = true ->
  let verdict (presented : string) :=
    match jwt_verify (Some presented) secret now with
    | Ok p => Next (set_user req p)
    | Throw _ => Respond (fail 401 msg_invalid_token)
    end in
  (authorization req = Some ("Bearer " +:+ tok) -> auth secret now req = verdict tok) /\
  (authorization req = Some ("Bearer " +:+ (tok +:+ String " " rest)) ->
   auth secret now req = verdict tok) /\
  (authorization req = Some ("Bearer " +:+ String " " rest) -> auth secret now req = verdict "").
Proof.
  intros Hs verdict. split; [| split]; intros Hh.
  - rewrite (auth_bearer _ _ _ _ Hh (startsWith_bearer _)).
    cbv [String.append]. simpl. rewrite (split_spaceless tok Hs). reflexivity.
  - rewrite (auth_bearer _ _ _ _ Hh (startsWith_bearer _)).
    change ("Bearer " +:+ (tok +:+ String " " rest))
      with (String "B" (String "e" (String "a" (String "r" (String "e" (String "r"
             (String " " (tok +:+ String " " rest)))))))).
    simpl. rewrite (split_spaceless_then tok rest Hs). reflexivity.
  - rewrite (auth_bearer _ _ _ _ Hh (startsWith_bearer _)).
    cbv [String.append]. simpl. reflexivity.
Qed.

End GateHeader.

(** * Registration in the e-commerce variant *)

Section ShopRegister.
Context `{Libs}.


End ShopRegister.

(** * The response envelope *)

(** A JSON response is an object whose [success] member is [true] exactly
    when the status is 200, and which carries a [message] string whenever it
    is not. *)
Definition enveloped (r : Response) : Prop :=
  match r with
  | ResJson st (JObj fs) =>
      assoc "success" fs = Some (JBool (st =? 200)) /\
      (st <> 200 -> exists msg, assoc "message" fs = Some (JStr msg))
  | ResJson _ _ => False
  | ResRedirect _ => True
  end.

(** An enveloped JSON response with one of the statuses [sts]. *)
Definition json_with (sts : list Z) (r : Response) : Prop :=
  enveloped r /\ exists st, status_of r = Some st /\ In st sts.

Definition Dangun_statuses (route : Dangun.Route) : list Z :=
  match route with
  | Dangun.Register => [200; 400; 409; 500]
  | Dangun.Login => [200; 400; 401; 500]
  | Dangun.Me => [200; 401; 404; 500]
  | Dangun.Profile => [200; 401; 500]
  end.

Definition Ecommerce_answer (route : Ecommerce.Route) (r : Response) : Prop :=
  match route with
  | Ecommerce.Register => json_with [200; 400; 409; 500] r
  | Ecommerce.Login => json_with [200; 400; 401; 500] r
  | Ecommerce.Me => json_with [200; 401; 404; 500] r
  | Ecommerce.Profile => json_with [200; 401; 500] r
  | Ecommerce.KakaoCallback => exists location, r = ResRedirect location
  end.

Lemma json_with_fail (sts : list Z) (st : Z) (msg : string) :
  st <> 200 -> In st sts -> json_with sts (fail st msg).
Proof.
  intros Hne Hin. split.
  - simpl. split; [| eauto]. apply Z.eqb_neq in Hne. rewrite Hne. reflexivity.
  - exists st. auto.
Qed.

Lemma json_with_success (sts : list Z) (data : JsVal) :
  In 200 sts -> json_with sts (success data).
Proof.
  intros Hin. split.
  - simpl. split; [reflexivity |]. intros Hne. contradiction.
  - exists 200. auto.
Qed.

Lemma json_with_register_catch (sts : list Z) (e : Exn) :
  In 409 sts -> In 500 sts -> json_with sts (register_catch e).
Proof.
  intros H409 H500. destruct e; try (apply json_with_fail; [lia | exact H500]).
  unfold register_catch.
  destruct (String.eqb code "23505"); apply json_with_fail; auto; lia.
Qed.

(** Close a branch that answers. *)
Ltac answer_json :=
  first [ apply json_with_success; simpl; tauto
        | apply json_with_fail; [lia | simpl; tauto] ].

Ltac walk close :=
  repeat first
    [ apply hoare_ret; close
    | eapply hoare_bind; [apply hoare_true | intros ? _]
    | match goal with
      | |- hoare _ (if ?c then _ else _) _ => destruct c
      | |- hoare _ (match ?x with _ => _ end) _ => destruct x
      end ].

Section Envelope.
Context `{Libs}.

Lemma Dangun_handle_enveloped route w req :
  answers (fun _ : Dangun.DB => True) (Dangun.handle route w req) (json_with (Dangun_statuses route)).
Proof.
  destruct route; simpl.
  - apply answers_try_catch; [walk answer_json |].
    intros e. apply json_with_register_catch; simpl; tauto.
  - apply answers_try_catch; [walk answer_json | intros e; answer_json].
  - apply answers_protected; try answer_json. intros req'.
    apply answers_try_catch; [walk answer_json | intros e; answer_json].
  - apply answers_protected; try answer_json. intros req'.
    apply answers_try_catch; [walk answer_json | intros e; answer_json].
Qed.

Lemma Ecommerce_handle_enveloped route w req :
  answers (fun _ : Ecommerce.DB => True) (Ecommerce.handle route w req) (Ecommerce_answer route).
Proof.
  destruct route; simpl.
  - apply answers_try_catch; [walk answer_json |].
    intros e. apply json_with_register_catch; simpl; tauto.
  - apply answers_try_catch; [walk answer_json | intros e; answer_json].
  - intros db _. split; [exact I |]. apply callback_only_redirects.
  - apply answers_protected; try answer_json. intros req'.
    apply answers_try_catch; [walk answer_json | intros e; answer_json].
  - apply answers_protected; try answer_json. intros req'.
    apply answers_try_catch; [walk answer_json | intros e; answer_json].
Qed.

(** X11.  Every response of the auth routes keeps the envelope: a JSON
    object whose [success] is [true] exactly when the status is 200 and
    which carries a [message] string otherwise.  Register only answers 200,
    400, 409 or 500; login 200, 400, 401 or 500; profile read 200, 401, 404
    or 500; profile update 200, 401 or 500; the federated callback only
    redirects. *)
Theorem responses_keep_the_envelope :
  (forall route w req db,
      json_with (Dangun_statuses route) (snd (Dangun.handle route w req db))) /\
  (forall route w req db,
      Ecommerce_answer route (snd (Ecommerce.handle route w req db))).
Proof.
  split.
  - intros route w req db. apply (Dangun_handle_enveloped route w req db I).
  - intros route w req db. apply (Ecommerce_handle_enveloped route w req db I).
Qed.

End Envelope.

(** * The to-do application ([todo-app-01])

    The second application of [dangun_01/server.js].  Its gate [auth] has the
    text of the other variants with its own messages; register and login
    work on [todo_app_01_users] and know no nickname; the four item routes
    work on [todo_app_01_todos], whose rows refer to [todo_app_01_users].
    The payload this application signs is [{ id, username }]: in [Claims],
    whose nickname member it lacks, that member is the empty string; the
    routes read [req.user.id] only.  [req.params.id] is the [id] argument
    of the routes that have one. *)

(** PostgreSQL's input functions for the parameter types the item queries
    infer; they raise on text they do not accept. *)
Class PgInput : Type := {
  (** a text parameter read as INTEGER *)
  pg_int4in : string -> Res Z;
  (** a text parameter read as BOOLEAN *)
  pg_boolin : string -> Res bool
}.

Module TodoApp.

(** A row of [todo_app_01_users]. *)
Record User : Type := mkUser {
  u_id : Z;
  u_username : string;
  u_password : string;
  u_created_at : Z
}.

(** A row of [todo_app_01_todos]. *)
Record Todo : Type := mkTodo {
  id : Z;
  user_id : Z;
  title : string;
  completed : option bool;
  created_at : Z
}.

Record DB : Type := mkDB {
  users : list User;
  users_id_seq : Z;         (* next value of the SERIAL sequence of the users *)
  todos : list Todo;
  todos_id_seq : Z          (* next value of the SERIAL sequence of the items *)
}.

Record World : Type := mkWorld {
  env_JWT_SECRET : option string;   (* process.env.JWT_SECRET *)
  now_ms : Z;                       (* Date.now() *)
  db_now : Z;                       (* NOW() *)
  salt : string                     (* the salt bcrypt draws *)
}.

Definition JWT_SECRET (w : World) : string :=
  secret_or (env_JWT_SECRET w) "todo-app-01-secret-key".

Definition msg_token_required : string := "Token required".
Definition msg_invalid_token : string := "Invalid token".
Definition msg_server_error : string := "Server error".
Definition msg_credentials_required : string := "Username and password required".
Definition msg_username_exists : string := "Username already exists".
Definition msg_invalid_credentials : string := "Invalid credentials".
Definition msg_title_required : string := "Title required".
Definition msg_todo_not_found : string := "Todo not found".

(** [auth(req, res, next)] *)
Definition auth `{Libs} (JWT_SECRET : string) (now_ms : Z) (req : Request) : Outcome :=
  match authorization req with
  | None => Respond (fail 401 msg_token_required)
  | Some header =>
      if String.eqb header "" || negb (startsWith header "Bearer ")
      then Respond (fail 401 msg_token_required)
      else
        match jwt_verify (split " "%char header !! 1%nat) JWT_SECRET now_ms with
        | Ok decoded => Next (set_user req decoded)
        | Throw _ => Respond (fail 401 msg_invalid_token)
        end
  end.

(** A route [app.METHOD(path, auth, handler)]. *)
Definition protected `{Libs} (JWT_SECRET : string) (now_ms : Z)
    (handler : Request -> DB -> DB * Response) (req : Request) (db : DB) : DB * Response :=
  match auth JWT_SECRET now_ms req with
  | Respond r => (db, r)
  | Next req' => handler req' db
  end.

Definition server_error (_ : Exn) : Response := fail 500 msg_server_error.

(** [INSERT INTO todo_app_01_users (username, password) VALUES ($1, $2)
    RETURNING id, username].  The sequence value is consumed also when the
    insert fails. *)
Definition insert_user (w : World) (uname : option string) (pw : string) : M DB User :=
  fun db =>
    let new_id := users_id_seq db in
    let db1 := mkDB (users db) (new_id + 1) (todos db) (todos_id_seq db) in
    match uname with
    | Some un =>
        if existsb (fun u => (u_id u =? new_id) || String.eqb (u_username u) un) (users db)
        then (db1, Throw (PgError "23505"))
        else
          let row := mkUser new_id un pw (db_now w) in
          (mkDB (users db ++ [row]) (new_id + 1) (todos db) (todos_id_seq db), Ok row)
    | None => (db1, Throw (PgError "23502"))
    end.

(** [SELECT * FROM todo_app_01_users WHERE username = $1] *)
Definition select_by_username (uname : option string) : M DB (list User) :=
  fun db =>
    (db, Ok (List.filter (fun u => match uname with
                              | Some un => String.eqb (u_username u) un
                              | None => false
                              end) (users db))).

(** [{ id: user.id, username: user.username }] *)
Definition row_user (u : User) : JsVal :=
  JObj [("id", JNum (u_id u)); ("username", JStr (u_username u))].

(** [jwt.sign({ id, username }, JWT_SECRET, { expiresIn: '7d' })] *)
Definition sign_user `{Libs} (w : World) (u : User) : string :=
  jwt_sign (mkClaims (u_id u) (Some (u_username u)) "" None)
    (JWT_SECRET w) expiresIn_7d (now_ms w).

(** The [catch] block of register. *)
Definition register_catch (e : Exn) : Response :=
  match e with
  | PgError code =>
      if String.eqb code "23505" then fail 409 msg_username_exists
      else fail 500 msg_server_error
  | _ => fail 500 msg_server_error
  end.

(** [app.post('/api/auth/register', ...)] *)
Definition post_auth_register `{Libs} (w : World) (req : Request) : DB -> DB * Response :=
  try_catch
    (do username <- lift (get (body req) "username") ;
     do password <- lift (get (body req) "password") ;
     if negb (truthy username) || negb (truthy password)
     then ret (fail 400 msg_credentials_required)
     else
       do hashed <- lift (hash password (salt w)) ;
       do user <- insert_user w (prepareValue username) hashed ;
       let token := sign_user w user in
       ret (success (JObj [("token", JStr token); ("user", row_user user)])))
    register_catch.

(** [app.post('/api/auth/login', ...)] *)
Definition post_auth_login `{Libs} (w : World) (req : Request) : DB -> DB * Response :=
  try_catch
    (do username <- lift (get (body req) "username") ;
     do password <- lift (get (body req) "password") ;
     if negb (truthy username) || negb (truthy password)
     then ret (fail 400 msg_credentials_required)
     else
       do rows <- select_by_username (prepareValue username) ;
       match rows with
       | [] => ret (fail 401 msg_invalid_credentials)
       | user :: _ =>
           do valid <- lift (compare password (Some (u_password user))) ;
           if negb valid then ret (fail 401 msg_invalid_credentials)
           else
             let token := sign_user w user in
             ret (success (JObj [("token", JStr token); ("user", row_user user)]))
       end)
    server_error.

(** [req.user.id] *)
Definition req_user_id (req : Request) : Res Z :=
  match user req with
  | Some p => Ok (c_id (p_claims p))
  | None => Throw TypeError
  end.

(** [WHERE user_id = $1] *)
Definition owned_by (uid : Z) (t : Todo) : bool := user_id t =? uid.

(** [WHERE id = $ AND user_id = $] *)
Definition hit (tid uid : Z) (t : Todo) : bool := (id t =? tid) && (user_id t =? uid).

(** [ORDER BY created_at DESC] *)
Definition newer_first (a b : Todo) : Prop := created_at b <= created_at a.

#[global] Instance newer_first_dec : RelDecision newer_first.
Proof. intros a b. unfold newer_first. apply Z_le_dec. Defined.

(** [SELECT * FROM todo_app_01_todos WHERE user_id = $1 ORDER BY created_at
    DESC].  PostgreSQL leaves the order of rows with equal timestamps open;
    here it is the one of the merge sort. *)
Definition select_todos (uid : Z) : M DB (list Todo) :=
  fun db => (db, Ok (merge_sort newer_first (List.filter (owned_by uid) (todos db)))).

(** [INSERT INTO todo_app_01_todos (user_id, title) VALUES ($1, $2)
    RETURNING *]: the id is drawn from the sequence (also when the insert
    fails), [completed] and [created_at] take their defaults; the primary
    key is checked, then the reference to the users table. *)
Definition insert_todo (w : World) (uid : Z) (ttl : option string) : M DB Todo :=
  fun db =>
    let new_id := todos_id_seq db in
    let db1 := mkDB (users db) (users_id_seq db) (todos db) (new_id + 1) in
    match ttl with
    | None => (db1, Throw (PgError "23502"))
    | Some t =>
        if existsb (fun x => id x =? new_id) (todos db)
        then (db1, Throw (PgError "23505"))
        else if negb (existsb (fun u => u_id u =? uid) (users db))
        then (db1, Throw (PgError "23503"))
        else
          let row := mkTodo new_id uid t (Some false) (db_now w) in
          (mkDB (users db) (users_id_seq db) (todos db ++ [row]) (new_id + 1), Ok row)
    end.

(** A nullable BOOLEAN parameter. *)
Definition bool_param `{PgInput} (p : option string) : Res (option bool) :=
  match p with
  | None => Ok None
  | Some s =>
      match pg_boolin s with
      | Ok b => Ok (Some b)
      | Throw e => Throw e
      end
  end.

Definition coalesce_bool (p col : option bool) : option bool :=
  match p with
  | Some b => Some b
  | None => col
  end.

Definition set_todo (ttl : option string) (done : option bool) (t : Todo) : Todo :=
  mkTodo (id t) (user_id t) (coalesce ttl (title t)) (coalesce_bool done (completed t))
    (created_at t).

(** [UPDATE todo_app_01_todos SET title = COALESCE($1, title), completed =
    COALESCE($2, completed) WHERE id = $3 AND user_id = $4 RETURNING *] *)
Definition update_todo `{PgInput} (ttl done : option string) (id_param : string) (uid : Z)
    : M DB (list Todo) :=
  fun db =>
    match bool_param done, pg_int4in id_param with
    | Throw e, _ => (db, Throw e)
    | _, Throw e => (db, Throw e)
    | Ok c, Ok tid =>
        let todos' := map (fun t => if hit tid uid t then set_todo ttl c t else t) (todos db) in
        (mkDB (users db) (users_id_seq db) todos' (todos_id_seq db),
         Ok (List.filter (hit tid uid) todos'))
    end.

(** [DELETE FROM todo_app_01_todos WHERE id = $1 AND user_id = $2
    RETURNING *] *)
Definition delete_todo `{PgInput} (id_param : string) (uid : Z) : M DB (list Todo) :=
  fun db =>
    match pg_int4in id_param with
    | Throw e => (db, Throw e)
    | Ok tid =>
        (mkDB (users db) (users_id_seq db)
           (List.filter (fun t => negb (hit tid uid t)) (todos db)) (todos_id_seq db),
         Ok (List.filter (hit tid uid) (todos db)))
    end.

(** A row as the driver returns it for [SELECT *] and [RETURNING *]. *)
Definition row_json (t : Todo) : JsVal :=
  JObj [("id", JNum (id t)); ("user_id", JNum (user_id t)); ("title", JStr (title t));
        ("completed", match completed t with Some b => JBool b | None => JNull end);
        ("created_at", JNum (created_at t))].

(** The handler of [app.get('/api/todos', auth, ...)] *)
Definition get_todos_handler (req : Request) : DB -> DB * Response :=
  try_catch
    (do uid <- lift (req_user_id req) ;
     do rows <- select_todos uid ;
     ret (success (JArr (map row_json rows))))
    server_error.

(** The handler of [app.post('/api/todos', auth, ...)] *)
Definition post_todos_handler `{Libs} (w : World) (req : Request) : DB -> DB * Response :=
  try_catch
    (do title <- lift (get (body req) "title") ;
     if negb (truthy title) then ret (fail 400 msg_title_required)
     else
       do uid <- lift (req_user_id req) ;
       do row <- insert_todo w uid (prepareValue title) ;
       ret (success (row_json row)))
    server_error.

(** The handler of [app.put('/api/todos/:id', auth, ...)] *)
Definition put_todo_handler `{Libs} `{PgInput} (id_param : string) (req : Request)
    : DB -> DB * Response :=
  try_catch
    (do title <- lift (get (body req) "title") ;
     do completed <- lift (get (body req) "completed") ;
     do uid <- lift (req_user_id req) ;
     do rows <- update_todo (prepareValue title) (prepareValue completed) id_param uid ;
     match rows with
     | [] => ret (fail 404 msg_todo_not_found)
     | row :: _ => ret (success (row_json row))
     end)
    server_error.

(** The handler of [app.delete('/api/todos/:id', auth, ...)] *)
Definition delete_todo_handler `{PgInput} (id_param : string) (req : Request)
    : DB -> DB * Response :=
  try_catch
    (do uid <- lift (req_user_id req) ;
     do rows <- delete_todo id_param uid ;
     match rows with
     | [] => ret (fail 404 msg_todo_not_found)
     | row :: _ => ret (success (row_json row))
     end)
    server_error.

(** The item routes of the application, with [req.params.id] where the path
    has it. *)
Inductive Route : Type :=
| ListTodos
| CreateTodo
| UpdateTodo (id_param : string)
| DeleteTodo (id_param : string).

Definition handler `{Libs} `{PgInput} (r : Route) (w : World) : Request -> DB -> DB * Response :=
  match r with
  | ListTodos => get_todos_handler
  | CreateTodo => post_todos_handler w
  | UpdateTodo id_param => put_todo_handler id_param
  | DeleteTodo id_param => delete_todo_handler id_param
  end.

Definition handle `{Libs} `{PgInput} (r : Route) (w : World) (req : Request)
    : DB -> DB * Response :=
  protected (JWT_SECRET w) (now_ms w) (handler r w) req.

(** The routes of the application. *)
Inductive Endpoint : Type :=
| Register
| Login
| Item (r : Route).

Definition app `{Libs} `{PgInput} (e : Endpoint) (w : World) (req : Request)
    : DB -> DB * Response :=
  match e with
  | Register => post_auth_register w req
  | Login => post_auth_login w req
  | Item r => handle r w req
  end.

(** The store after a sequence of requests. *)
Fixpoint run `{Libs} `{PgInput} (evs : list (Endpoint * World * Request)) (db : DB) : DB :=
  match evs with
  | [] => db
  | (e, w, req) :: rest => run rest (fst (app e w req db))
  end.

(** The database right after [initDB]. *)
Definition empty_db : DB := mkDB [] 1 [] 1.

End TodoApp.

(** ** The item routes: the store *)

Lemma json_wire_row (t : TodoApp.Todo) : json_wire (TodoApp.row_json t) = TodoApp.row_json t.
Proof. unfold TodoApp.row_json. destruct (TodoApp.completed t) as [b |]; reflexivity. Qed.

Lemma json_wire_rows (rows : list TodoApp.Todo) :
  json_wire (JArr (map TodoApp.row_json rows)) = JArr (map TodoApp.row_json rows).
Proof.
  simpl. f_equal. rewrite map_map. apply map_ext. intros t.
  rewrite json_wire_row. reflexivity.
Qed.

Definition TodoApp_keeps_keys (f : TodoApp.Todo -> TodoApp.Todo) : Prop :=
  forall t, TodoApp.id (f t) = TodoApp.id t /\ TodoApp.user_id (f t) = TodoApp.user_id t /\
            TodoApp.created_at (f t) = TodoApp.created_at t.

(** What one request of the caller [uid] can do to the store. *)
Inductive TodoApp_step (uid : Z) (db : TodoApp.DB) : TodoApp.DB -> Prop :=
| TodoApp_same : TodoApp_step uid db db
| TodoApp_burn :
    TodoApp_step uid db
      (TodoApp.mkDB (TodoApp.users db) (TodoApp.users_id_seq db) (TodoApp.todos db) (TodoApp.todos_id_seq db + 1))
| TodoApp_insert row :
    TodoApp.id row = TodoApp.todos_id_seq db ->
    TodoApp.user_id row = uid ->
    existsb (fun u => TodoApp.u_id u =? uid) (TodoApp.users db) = true ->
    existsb (fun x => TodoApp.id x =? TodoApp.todos_id_seq db) (TodoApp.todos db) = false ->
    TodoApp_step uid db
      (TodoApp.mkDB (TodoApp.users db) (TodoApp.users_id_seq db) (TodoApp.todos db ++ [row]) (TodoApp.todos_id_seq db + 1))
| TodoApp_update f tid :
    TodoApp_keeps_keys f ->
    TodoApp_step uid db
      (TodoApp.mkDB (TodoApp.users db) (TodoApp.users_id_seq db)
         (map (fun t => if TodoApp.hit tid uid t then f t else t) (TodoApp.todos db))
         (TodoApp.todos_id_seq db))
| TodoApp_delete tid :
    TodoApp_step uid db
      (TodoApp.mkDB (TodoApp.users db) (TodoApp.users_id_seq db)
         (List.filter (fun t => negb (TodoApp.hit tid uid t)) (TodoApp.todos db))
         (TodoApp.todos_id_seq db)).

Lemma TodoApp_db_eta (db : TodoApp.DB) :
  TodoApp.mkDB (TodoApp.users db) (TodoApp.users_id_seq db) (TodoApp.todos db)
    (TodoApp.todos_id_seq db) = db.
Proof. destruct db; reflexivity. Qed.

(** What a register can do to the store. *)
Inductive TodoApp_joins (db : TodoApp.DB) : TodoApp.DB -> Prop :=
| TodoApp_refused :
    TodoApp_joins db
      (TodoApp.mkDB (TodoApp.users db) (TodoApp.users_id_seq db + 1) (TodoApp.todos db)
         (TodoApp.todos_id_seq db))
| TodoApp_joined row :
    TodoApp.u_id row = TodoApp.users_id_seq db ->
    (forall u, In u (TodoApp.users db) ->
               TodoApp.u_id u <> TodoApp.u_id row /\ TodoApp.u_username u <> TodoApp.u_username row) ->
    TodoApp_joins db
      (TodoApp.mkDB (TodoApp.users db ++ [row]) (TodoApp.users_id_seq db + 1) (TodoApp.todos db)
         (TodoApp.todos_id_seq db)).

Lemma TodoApp_set_todo_keeps ttl c : TodoApp_keeps_keys (TodoApp.set_todo ttl c).
Proof. intros t. simpl. auto. Qed.

Section TodoMoves.
Context `{Libs} `{PgInput}.

(** The gate either answers on an untouched store or hands the request,
    with the decoded payload, to the handler. *)
Lemma TodoApp_gate r w req db :
  (exists msg, TodoApp.handle r w req db = (db, fail 401 msg) /\
     forall req', TodoApp.auth (TodoApp.JWT_SECRET w) (TodoApp.now_ms w) req <> Next req') \/
  (exists p, TodoApp.auth (TodoApp.JWT_SECRET w) (TodoApp.now_ms w) req = Next (set_user req p) /\
     TodoApp.handle r w req db = TodoApp.handler r w (set_user req p) db).
Proof.
  unfold TodoApp.handle, TodoApp.protected.
  destruct (TodoApp.auth (TodoApp.JWT_SECRET w) (TodoApp.now_ms w) req) as [r0 | req'] eqn:Ha.
  - left. unfold TodoApp.auth in Ha.
    destruct (authorization req) as [header |].
    + destruct (String.eqb header "" || negb (startsWith header "Bearer ")).
      * injection Ha as <-. eexists. split; [reflexivity | discriminate].
      * destruct (jwt_verify _ _ _); [discriminate |].
        injection Ha as <-. eexists. split; [reflexivity | discriminate].
    + injection Ha as <-. eexists. split; [reflexivity | discriminate].
  - right. unfold TodoApp.auth in Ha.
    destruct (authorization req) as [header |]; [| discriminate].
    destruct (String.eqb header "" || negb (startsWith header "Bearer ")); [discriminate |].
    destruct (jwt_verify _ _ _) as [p |]; [| discriminate].
    injection Ha as <-. exists p. split; reflexivity.
Qed.

Lemma TodoApp_handler_moves r w req db p :
  user req = Some p ->
  TodoApp_step (c_id (p_claims p)) db (fst (TodoApp.handler r w req db)).
Proof.
  intros Hu. destruct r as [| | idp | idp]; simpl.
  - unfold TodoApp.get_todos_handler, try_catch, bind, lift, TodoApp.req_user_id.
    rewrite Hu. simpl. constructor.
  - unfold TodoApp.post_todos_handler, try_catch, bind, lift, TodoApp.req_user_id.
    destruct (get (body req) "title") as [ttl | e]; simpl; [| constructor].
    destruct (truthy ttl); simpl; [| constructor].
    rewrite Hu. simpl. unfold TodoApp.insert_todo.
    destruct (prepareValue ttl) as [t |]; simpl; [| constructor].
    destruct (existsb _ (TodoApp.todos db)) eqn:Hpk; simpl; [constructor |].
    destruct (existsb _ (TodoApp.users db)) eqn:Hfk; simpl; [| constructor].
    apply TodoApp_insert; auto.
  - unfold TodoApp.put_todo_handler, try_catch, bind, lift, TodoApp.req_user_id.
    destruct (get (body req) "title") as [ttl | e]; simpl; [| constructor].
    destruct (get (body req) "completed") as [done | e]; simpl; [| constructor].
    rewrite Hu. simpl. unfold TodoApp.update_todo.
    destruct (TodoApp.bool_param (prepareValue done)) as [c | e]; simpl; [| constructor].
    destruct (pg_int4in idp) as [tid | e]; simpl; [| constructor].
    match goal with
    | |- context [List.filter ?f ?l] => destruct (List.filter f l)
    end; simpl; apply TodoApp_update, TodoApp_set_todo_keeps.
  - unfold TodoApp.delete_todo_handler, try_catch, bind, lift, TodoApp.req_user_id.
    rewrite Hu. simpl. unfold TodoApp.delete_todo.
    destruct (pg_int4in idp) as [tid | e]; simpl; [| constructor].
    match goal with
    | |- context [match List.filter ?f ?l with _ => _ end] => destruct (List.filter f l)
    end; simpl; apply TodoApp_delete.
Qed.

(** One request: the store is untouched, or the gate has passed a payload
    and the store moves by a step of its identity. *)
Lemma TodoApp_handle_moves r w req db :
  fst (TodoApp.handle r w req db) = db \/
  exists p, TodoApp.auth (TodoApp.JWT_SECRET w) (TodoApp.now_ms w) req = Next (set_user req p) /\
            TodoApp_step (c_id (p_claims p)) db (fst (TodoApp.handle r w req db)).
Proof.
  destruct (TodoApp_gate r w req db) as [(msg & -> & _) | (p & Ha & ->)].
  - left. reflexivity.
  - right. exists p. split; [exact Ha |]. apply TodoApp_handler_moves. reflexivity.
Qed.

Lemma TodoApp_register_moves w req db :
  fst (TodoApp.post_auth_register w req db) = db \/
  TodoApp_joins db (fst (TodoApp.post_auth_register w req db)).
Proof.
  unfold TodoApp.post_auth_register, try_catch, bind, lift, ret.
  destruct (get (body req) "username") as [un | e]; simpl; [| auto].
  destruct (get (body req) "password") as [pw | e]; simpl; [| auto].
  destruct (negb (truthy un) || negb (truthy pw)); simpl; [auto |].
  destruct (hash pw (TodoApp.salt w)) as [hashed | e]; simpl; [| auto].
  unfold TodoApp.insert_user.
  destruct (prepareValue un) as [name |]; simpl; [| right; constructor].
  destruct (existsb _ (TodoApp.users db)) eqn:Hex; simpl; [right; constructor |].
  right. apply TodoApp_joined; [reflexivity |].
  intros u Hu. simpl.
  assert (Hu' : (TodoApp.u_id u =? TodoApp.users_id_seq db) || String.eqb (TodoApp.u_username u) name
                = false).
  { destruct ((TodoApp.u_id u =? TodoApp.users_id_seq db) || String.eqb (TodoApp.u_username u) name)
      eqn:E; [| reflexivity].
    assert (Hc : existsb (fun u => (TodoApp.u_id u =? TodoApp.users_id_seq db)
                                   || String.eqb (TodoApp.u_username u) name) (TodoApp.users db) = true)
      by (apply existsb_exists; eauto).
    congruence. }
  apply orb_false_iff in Hu' as [Hid Hname].
  split; [lia |]. apply String.eqb_neq. exact Hname.
Qed.

Lemma TodoApp_login_reads w req db : fst (TodoApp.post_auth_login w req db) = db.
Proof.
  unfold TodoApp.post_auth_login, try_catch, bind, lift, ret, TodoApp.select_by_username.
  destruct (get (body req) "username") as [un | e]; simpl; [| reflexivity].
  destruct (get (body req) "password") as [pw | e]; simpl; [| reflexivity].
  destruct (negb (truthy un) || negb (truthy pw)); simpl; [reflexivity |].
  destruct (List.filter _ (TodoApp.users db)) as [| user rest]; simpl; [reflexivity |].
  destruct (compare pw _) as [[|] | e]; reflexivity.
Qed.

(** One request to the application. *)
Lemma TodoApp_app_moves e w req db :
  fst (TodoApp.app e w req db) = db \/
  TodoApp_joins db (fst (TodoApp.app e w req db)) \/
  exists p, TodoApp.auth (TodoApp.JWT_SECRET w) (TodoApp.now_ms w) req = Next (set_user req p) /\
            TodoApp_step (c_id (p_claims p)) db (fst (TodoApp.app e w req db)).
Proof.
  destruct e as [| | r]; simpl.
  - destruct (TodoApp_register_moves w req db); auto.
  - left. apply TodoApp_login_reads.
  - destruct (TodoApp_handle_moves r w req db); auto.
Qed.

End TodoMoves.

(** The users are well formed: primary key and UNIQUE key hold, and the
    sequence is ahead of every id. *)
Definition TodoApp_users_wf (db : TodoApp.DB) : Prop :=
  NoDup (map TodoApp.u_id (TodoApp.users db)) /\
  NoDup (map TodoApp.u_username (TodoApp.users db)) /\
  Forall (fun u => TodoApp.u_id u < TodoApp.users_id_seq db) (TodoApp.users db).

(** The items are well formed: item ids are distinct and below the
    sequence, and every item refers to a row of the users table. *)
Definition TodoApp_items_wf (db : TodoApp.DB) : Prop :=
  NoDup (map TodoApp.id (TodoApp.todos db)) /\
  Forall (fun t => TodoApp.id t < TodoApp.todos_id_seq db) (TodoApp.todos db) /\
  Forall (fun t => exists u, In u (TodoApp.users db) /\ TodoApp.u_id u = TodoApp.user_id t)
    (TodoApp.todos db).

Definition TodoApp_wf (db : TodoApp.DB) : Prop := TodoApp_users_wf db /\ TodoApp_items_wf db.

(** The id [tid] has been issued and no item has it. *)
Definition TodoApp_gone (tid : Z) (db : TodoApp.DB) : Prop :=
  tid < TodoApp.todos_id_seq db /\ ~ In tid (map TodoApp.id (TodoApp.todos db)).

Lemma map_keys_keep {A B} (key : A -> B) (g : A -> A) (l : list A) :
  (forall x, key (g x) = key x) -> map key (map g l) = map key l.
Proof. intros Hg. rewrite map_map. apply map_ext. exact Hg. Qed.

Lemma NoDup_map_filter {A B} (key : A -> B) (g : A -> bool) (l : list A) :
  NoDup (map key l) -> NoDup (map key (List.filter g l)).
Proof.
  induction l as [| x l IH]; simpl; [auto |].
  intros Hnd. apply NoDup_cons in Hnd as [Hx Hnd].
  destruct (g x); simpl; [| auto].
  apply NoDup_cons. split; [| auto].
  intros Hin. apply Hx. apply list_elem_of_In in Hin. apply list_elem_of_In.
  apply in_map_iff in Hin as (y & Hy & Hin). apply filter_In in Hin as [Hin _].
  apply in_map_iff. eauto.
Qed.

Lemma Forall_filter_keep {A} (P : A -> Prop) (g : A -> bool) (l : list A) :
  Forall P l -> Forall P (List.filter g l).
Proof.
  intros Hl. induction Hl as [| x l Hx Hl IH]; simpl; [constructor |].
  destruct (g x); [constructor |]; auto.
Qed.

Lemma existsb_In {A} (g : A -> bool) (l : list A) :
  existsb g l = true <-> exists x, In x l /\ g x = true.
Proof. apply existsb_exists. Qed.

Lemma TodoApp_hit_owner tid uid t : TodoApp.hit tid uid t = true -> TodoApp.user_id t = uid.
Proof. unfold TodoApp.hit. intros Hh. apply andb_true_iff in Hh as [_ Hh]. lia. Qed.

Lemma TodoApp_step_wf uid db db' : TodoApp_step uid db db' -> TodoApp_wf db -> TodoApp_wf db'.
Proof.
  intros Hstep (Hus & Hnd & Hlt & Hfk). split; [destruct Hstep; exact Hus |].
  destruct Hstep as [| | row Hid Hu Hex Hpk | f tid Hf | tid].
  - exact (conj Hnd (conj Hlt Hfk)).
  - refine (conj Hnd (conj _ Hfk)). simpl.
    eapply Forall_impl; [exact Hlt |]. simpl. intros t Ht. lia.
  - unfold TodoApp_items_wf. simpl. rewrite map_app. simpl. split; [| split].
    + apply NoDup_snoc; [exact Hnd |]. intros Hin.
      apply in_map_iff in Hin as (y & Hy & Hin).
      pose proof (Forall_at _ _ _ Hlt Hin) as Hlty. simpl in Hlty. lia.
    + apply Forall_app. split.
      * eapply Forall_impl; [exact Hlt |]. simpl. intros t Ht. lia.
      * constructor; [lia | constructor].
    + apply Forall_app. split; [exact Hfk |].
      constructor; [| constructor].
      apply existsb_exists in Hex as (u & Hu1 & Hu2). exists u. split; [exact Hu1 | lia].
  - unfold TodoApp_items_wf. simpl. split; [| split].
    + rewrite map_keys_keep; [exact Hnd |].
      intros t. destruct (TodoApp.hit tid uid t); [apply Hf | reflexivity].
    + apply Forall_map. eapply Forall_impl; [exact Hlt |]. simpl. intros t Ht.
      destruct (TodoApp.hit tid uid t); [| exact Ht].
      destruct (Hf t) as (-> & _). exact Ht.
    + apply Forall_map. eapply Forall_impl; [exact Hfk |]. simpl. intros t Ht.
      destruct (TodoApp.hit tid uid t); [| exact Ht].
      destruct (Hf t) as (_ & -> & _). exact Ht.
  - unfold TodoApp_items_wf. simpl. split; [| split].
    + apply NoDup_map_filter, Hnd.
    + apply Forall_filter_keep, Hlt.
    + apply Forall_filter_keep, Hfk.
Qed.

Lemma TodoApp_joins_wf db db' : TodoApp_joins db db' -> TodoApp_wf db -> TodoApp_wf db'.
Proof.
  intros Hstep ((Hid & Hun & Hseq) & Hnd & Hlt & Hfk). destruct Hstep as [| row Hrow Hfree].
  - split; [| exact (conj Hnd (conj Hlt Hfk))]. refine (conj Hid (conj Hun _)). simpl.
    eapply Forall_impl; [exact Hseq |]. simpl. intros u Hu. lia.
  - split.
    + unfold TodoApp_users_wf. simpl. rewrite !map_app. simpl. split; [| split].
      * apply NoDup_snoc; [exact Hid |]. intros Hin. apply in_map_iff in Hin as (u & Hu & Hin).
        destruct (Hfree u Hin) as [Hne _]. congruence.
      * apply NoDup_snoc; [exact Hun |]. intros Hin. apply in_map_iff in Hin as (u & Hu & Hin).
        destruct (Hfree u Hin) as [_ Hne]. congruence.
      * apply Forall_app. split.
        -- eapply Forall_impl; [exact Hseq |]. simpl. intros u Hu. lia.
        -- constructor; [lia | constructor].
    + refine (conj Hnd (conj Hlt _)). simpl.
      eapply Forall_impl; [exact Hfk |]. simpl. intros t (u & Hu & Ht).
      exists u. split; [apply in_app_iff; left; exact Hu | exact Ht].
Qed.

(** No move removes or changes a users row. *)
Lemma TodoApp_step_users uid db db' : TodoApp_step uid db db' -> TodoApp.users db' = TodoApp.users db.
Proof. intros []; reflexivity. Qed.

Lemma TodoApp_joins_users db db' u :
  TodoApp_joins db db' -> In u (TodoApp.users db) -> In u (TodoApp.users db').
Proof. intros [] Hu; simpl; [exact Hu |]. apply in_app_iff. left. exact Hu. Qed.

Lemma TodoApp_joins_todos db db' : TodoApp_joins db db' ->
  TodoApp.todos db' = TodoApp.todos db /\ TodoApp.todos_id_seq db' = TodoApp.todos_id_seq db.
Proof. intros []; split; reflexivity. Qed.

Lemma TodoApp_not_owned other uid t :
  other <> uid -> TodoApp.user_id t = uid -> TodoApp.owned_by other t = false.
Proof. unfold TodoApp.owned_by. intros Hne Hu. apply Z.eqb_neq. lia. Qed.

(** A step of [uid] leaves the items of everybody else as they are. *)
Lemma TodoApp_step_others uid db db' other :
  TodoApp_step uid db db' -> other <> uid ->
  List.filter (TodoApp.owned_by other) (TodoApp.todos db') =
  List.filter (TodoApp.owned_by other) (TodoApp.todos db).
Proof.
  intros Hstep Hne. destruct Hstep as [| | row Hid Hu Hex Hpk | f tid Hf | tid]; simpl; try reflexivity.
  - rewrite List.filter_app. simpl.
    rewrite (TodoApp_not_owned other uid row Hne Hu). apply app_nil_r.
  - induction (TodoApp.todos db) as [| t l IH]; simpl; [reflexivity |].
    destruct (TodoApp.hit tid uid t) eqn:Hh.
    + apply TodoApp_hit_owner in Hh.
      rewrite (TodoApp_not_owned other uid t Hne Hh).
      rewrite (TodoApp_not_owned other uid (f t) Hne); [exact IH |].
      destruct (Hf t) as (_ & -> & _). exact Hh.
    + destruct (TodoApp.owned_by other t); rewrite IH; reflexivity.
  - induction (TodoApp.todos db) as [| t l IH]; simpl; [reflexivity |].
    destruct (TodoApp.hit tid uid t) eqn:Hh; simpl.
    + apply TodoApp_hit_owner in Hh.
      rewrite (TodoApp_not_owned other uid t Hne Hh). exact IH.
    + destruct (TodoApp.owned_by other t); rewrite IH; reflexivity.
Qed.

(** An id that has been issued and is free stays free. *)
Lemma TodoApp_step_gone uid db db' tid :
  TodoApp_step uid db db' -> TodoApp_gone tid db -> TodoApp_gone tid db'.
Proof.
  intros Hstep [Hlt Hfree]. destruct Hstep as [| | row Hid Hu Hex Hpk | f tid' Hf | tid']; simpl.
  - split; assumption.
  - split; simpl; [lia | exact Hfree].
  - split; simpl; [lia |]. rewrite map_app. simpl. intros Hin.
    apply in_app_iff in Hin as [Hin | [Hin | []]]; [contradiction | lia].
  - split; simpl; [exact Hlt |]. rewrite map_keys_keep; [exact Hfree |].
    intros t. destruct (TodoApp.hit tid' uid t); [apply Hf | reflexivity].
  - split; simpl; [exact Hlt |]. intros Hin. apply Hfree.
    apply in_map_iff in Hin as (y & Hy & Hin). apply filter_In in Hin as [Hin _].
    apply in_map_iff. eauto.
Qed.

Lemma TodoApp_joins_gone db db' tid :
  TodoApp_joins db db' -> TodoApp_gone tid db -> TodoApp_gone tid db'.
Proof.
  intros Hj [Hlt Hfree]. destruct (TodoApp_joins_todos _ _ Hj) as [Ht Hs].
  unfold TodoApp_gone. rewrite Ht, Hs. split; assumption.
Qed.

Section TodoStore.
Context `{Libs} `{PgInput}.

Lemma TodoApp_run_ind (I : TodoApp.DB -> Prop) :
  (forall db db', TodoApp_joins db db' -> I db -> I db') ->
  (forall uid db db', TodoApp_step uid db db' -> I db -> I db') ->
  forall evs db, I db -> I (TodoApp.run evs db).
Proof.
  intros Hjoin Hstep evs.
  induction evs as [| [[e w] req] evs IH]; intros db Hdb; simpl; [exact Hdb |].
  apply IH. destruct (TodoApp_app_moves e w req db) as [-> | [Hj | (p & _ & Hs)]]; [exact Hdb | |].
  - eapply Hjoin; eauto.
  - eapply Hstep; eauto.
Qed.

Lemma TodoApp_empty_wf : TodoApp_wf TodoApp.empty_db.
Proof. repeat split; simpl; constructor. Qed.

Lemma TodoApp_run_wf evs db : TodoApp_wf db -> TodoApp_wf (TodoApp.run evs db).
Proof.
  apply (TodoApp_run_ind TodoApp_wf).
  - intros d d' Hs Hd. eapply TodoApp_joins_wf; eauto.
  - intros uid d d' Hs Hd. eapply TodoApp_step_wf; eauto.
Qed.

Lemma TodoApp_run_users evs db u : In u (TodoApp.users db) -> In u (TodoApp.users (TodoApp.run evs db)).
Proof.
  apply (TodoApp_run_ind (fun d => In u (TodoApp.users d))).
  - intros d d' Hs Hd. eapply TodoApp_joins_users; eauto.
  - intros uid d d' Hs Hd. rewrite (TodoApp_step_users _ _ _ Hs). exact Hd.
Qed.

(** X12.  The database of the to-do application stays well formed under
    any sequence of requests to its six routes: user ids and usernames stay
    distinct, item ids stay distinct, both sequences stay ahead of the ids
    issued, and every item keeps referring to a row of the users table;
    the empty database is well formed; and no request removes or changes a
    users row. *)
Theorem todo_store_stays_well_formed :
  TodoApp_wf TodoApp.empty_db /\
  (forall evs db, TodoApp_wf db -> TodoApp_wf (TodoApp.run evs db)) /\
  (forall evs db u, In u (TodoApp.users db) -> In u (TodoApp.users (TodoApp.run evs db))).
Proof.
  split; [exact TodoApp_empty_wf |]. split.
  - intros evs db. apply TodoApp_run_wf.
  - intros evs db u. apply TodoApp_run_users.
Qed.

(** X13.  A request changes no item of an identity it does not carry a valid
    token for: whatever the route (of the six), the id in the path and the
    body, the items of [owner] are the same rows in the same order
    afterwards, unless the gate has accepted the request with a payload whose
    id is [owner]. *)
Theorem todo_items_change_only_for_their_owner e w req db owner :
  (forall p, TodoApp.auth (TodoApp.JWT_SECRET w) (TodoApp.now_ms w) req = Next (set_user req p) ->
             c_id (p_claims p) <> owner) ->
  List.filter (TodoApp.owned_by owner) (TodoApp.todos (fst (TodoApp.app e w req db))) =
  List.filter (TodoApp.owned_by owner) (TodoApp.todos db).
Proof.
  intros Hother.
  destruct (TodoApp_app_moves e w req db) as [-> | [Hj | (p & Ha & Hs)]]; [reflexivity | |].
  - destruct (TodoApp_joins_todos _ _ Hj) as [-> _]. reflexivity.
  - eapply TodoApp_step_others; [exact Hs |]. intros ->. exact (Hother p Ha eq_refl).
Qed.

Lemma TodoApp_run_gone evs db tid : TodoApp_gone tid db -> TodoApp_gone tid (TodoApp.run evs db).
Proof.
  apply (TodoApp_run_ind (TodoApp_gone tid)).
  - intros d d' Hs Hg. eapply TodoApp_joins_gone; eauto.
  - intros uid d d' Hs Hg. eapply TodoApp_step_gone; eauto.
Qed.

(** X14.  Item ids are never reused: an id that has been issued and that no
    item has (never stored, or deleted) is the id of no item after any
    sequence of requests. *)
Theorem todo_ids_are_never_reused evs db tid :
  tid < TodoApp.todos_id_seq db ->
  ~ In tid (map TodoApp.id (TodoApp.todos db)) ->
  ~ In tid (map TodoApp.id (TodoApp.todos (TodoApp.run evs db))).
Proof.
  intros Hlt Hfree.
  apply (TodoApp_run_gone evs db tid). split; assumption.
Qed.

End TodoStore.

(** ** The item routes: what a caller gets *)

(** The gate accepts the request, with a payload whose id is [uid]. *)
Definition TodoApp_caller `{Libs} (w : TodoApp.World) (req : Request) (uid : Z) : Prop :=
  exists p, TodoApp.auth (TodoApp.JWT_SECRET w) (TodoApp.now_ms w) req = Next (set_user req p) /\
            c_id (p_claims p) = uid.

(** [res.json({ success: true, data })] as it is sent, [data] being rows. *)
Definition sent (data : JsVal) : Response :=
  ResJson 200 (JObj [("success", JBool true); ("data", data)]).

(** The rows a response shows: its [data], or the elements of [data] when
    it is an array. *)
Definition items_of (r : Response) : list JsVal :=
  match data_of r with
  | Some (JArr xs) => xs
  | Some v => [v]
  | None => []
  end.

#[global] Instance newer_first_total : Total TodoApp.newer_first.
Proof. intros a b. unfold TodoApp.newer_first. lia. Qed.

#[global] Instance newer_first_transitive : Transitive TodoApp.newer_first.
Proof. intros a b c. unfold TodoApp.newer_first. lia. Qed.

Lemma success_row (t : TodoApp.Todo) : success (TodoApp.row_json t) = sent (TodoApp.row_json t).
Proof.
  unfold success, res_json, sent. f_equal.
  change (json_wire (JObj [("success", JBool true); ("data", TodoApp.row_json t)]))
    with (JObj [("success", JBool true); ("data", json_wire (TodoApp.row_json t))]).
  rewrite json_wire_row. reflexivity.
Qed.

Lemma success_rows (rows : list TodoApp.Todo) :
  success (JArr (map TodoApp.row_json rows)) = sent (JArr (map TodoApp.row_json rows)).
Proof.
  unfold success, res_json, sent. f_equal.
  change (json_wire (JObj [("success", JBool true); ("data", JArr (map TodoApp.row_json rows))]))
    with (JObj [("success", JBool true); ("data", json_wire (JArr (map TodoApp.row_json rows)))]).
  rewrite json_wire_rows. reflexivity.
Qed.

Lemma filter_all {A} (g : A -> bool) (l : list A) :
  (forall x, In x l -> g x = true) -> List.filter g l = l.
Proof.
  induction l as [| x l IH]; simpl; intros Hg; [reflexivity |].
  rewrite (Hg x (or_introl eq_refl)). f_equal. apply IH. auto.
Qed.

Lemma map_unchanged {A} (g : A -> A) (l : list A) :
  (forall x, In x l -> g x = x) -> map g l = l.
Proof.
  induction l as [| x l IH]; simpl; intros Hg; [reflexivity |].
  rewrite (Hg x (or_introl eq_refl)). f_equal. apply IH. auto.
Qed.

Lemma filter_map_comm {A B} (f : B -> bool) (g : A -> B) (l : list A) :
  List.filter f (map g l) = map g (List.filter (fun x => f (g x)) l).
Proof.
  induction l as [| x l IH]; simpl; [reflexivity |].
  destruct (f (g x)); simpl; rewrite IH; reflexivity.
Qed.

Lemma filter_key_unique {A} (key : A -> Z) (l : list A) (t : A) :
  NoDup (map key l) -> In t l -> List.filter (fun x => key x =? key t) l = [t].
Proof.
  induction l as [| x l IH]; simpl; [tauto |].
  intros Hnd Hin. pose proof Hnd as Hnd0. apply NoDup_cons in Hnd as [Hx Hnd].
  rewrite list_elem_of_In in Hx.
  destruct (Z.eqb_spec (key x) (key t)) as [E | E].
  - assert (x = t) as ->.
    { apply (NoDup_map_eq key (x :: l)); simpl; auto. }
    f_equal. apply filter_nil. intros y Hy. apply Z.eqb_neq. intros Ey.
    apply Hx. rewrite <- Ey. apply in_map. exact Hy.
  - destruct Hin as [-> | Hin]; [congruence |]. auto.
Qed.

(** With distinct ids, [WHERE id = $ AND user_id = $] with the keys of a
    stored item selects by id. *)
Lemma TodoApp_hit_by_id (l : list TodoApp.Todo) (t x : TodoApp.Todo) :
  NoDup (map TodoApp.id l) -> In t l -> In x l ->
  TodoApp.hit (TodoApp.id t) (TodoApp.user_id t) x = Z.eqb (TodoApp.id x) (TodoApp.id t).
Proof.
  intros Hnd Ht Hx. unfold TodoApp.hit.
  destruct (Z.eqb_spec (TodoApp.id x) (TodoApp.id t)) as [E | E]; [| reflexivity].
  rewrite (NoDup_map_eq TodoApp.id l x t Hnd Hx Ht E). simpl. apply Z.eqb_refl.
Qed.

(** No stored item has the id [tid] and the owner [uid]. *)
Definition TodoApp_not_mine (tid uid : Z) (db : TodoApp.DB) : Prop :=
  forall t, In t (TodoApp.todos db) -> TodoApp.id t = tid -> TodoApp.user_id t <> uid.

Lemma TodoApp_miss tid uid db t :
  TodoApp_not_mine tid uid db -> In t (TodoApp.todos db) -> TodoApp.hit tid uid t = false.
Proof.
  intros Hnm Hin. unfold TodoApp.hit.
  destruct (Z.eqb_spec (TodoApp.id t) tid) as [E | E]; [| reflexivity].
  simpl. apply Z.eqb_neq. exact (Hnm t Hin E).
Qed.

Section TodoRuns.
Context `{Libs} `{PgInput}.

Lemma TodoApp_caller_handle r w req db uid :
  TodoApp_caller w req uid ->
  exists p, c_id (p_claims p) = uid /\
            TodoApp.handle r w req db = TodoApp.handler r w (set_user req p) db.
Proof.
  intros (p & Ha & Hp). exists p. split; [exact Hp |].
  unfold TodoApp.handle, TodoApp.protected. rewrite Ha. reflexivity.
Qed.

Lemma TodoApp_list_run req db p :
  user req = Some p ->
  TodoApp.get_todos_handler req db =
    (db, sent (JArr (map TodoApp.row_json
                       (merge_sort TodoApp.newer_first
                          (List.filter (TodoApp.owned_by (c_id (p_claims p))) (TodoApp.todos db)))))).
Proof.
  intros Hu. unfold TodoApp.get_todos_handler, try_catch, bind, lift, ret, TodoApp.req_user_id,
    TodoApp.select_todos.
  rewrite Hu. cbn -[success]. rewrite success_rows. reflexivity.
Qed.

Lemma TodoApp_create_run w req db p ttl text :
  user req = Some p -> get (body req) "title" = Ok ttl -> truthy ttl = true ->
  prepareValue ttl = Some text ->
  TodoApp.post_todos_handler w req db =
    match TodoApp.insert_todo w (c_id (p_claims p)) (Some text) db with
    | (db', Ok row) => (db', sent (TodoApp.row_json row))
    | (db', Throw _) => (db', fail 500 TodoApp.msg_server_error)
    end.
Proof.
  intros Hu Hg Ht Hp. unfold TodoApp.post_todos_handler, try_catch, bind, lift, ret,
    TodoApp.req_user_id.
  rewrite Hg, Ht, Hu, Hp. cbn -[success fail TodoApp.insert_todo].
  destruct (TodoApp.insert_todo w (c_id (p_claims p)) (Some text) db) as [db' [row | e]];
    [rewrite success_row |]; reflexivity.
Qed.

Lemma TodoApp_update_run idp req db p tid c :
  user req = Some p -> nullish (body req) = false -> pg_int4in idp = Ok tid ->
  TodoApp.bool_param (prepareValue (field req "completed")) = Ok c ->
  let uid := c_id (p_claims p) in
  let todos' := map (fun t => if TodoApp.hit tid uid t
                              then TodoApp.set_todo (prepareValue (field req "title")) c t
                              else t) (TodoApp.todos db) in
  TodoApp.put_todo_handler idp req db =
    (TodoApp.mkDB (TodoApp.users db) (TodoApp.users_id_seq db) todos' (TodoApp.todos_id_seq db),
     match List.filter (TodoApp.hit tid uid) todos' with
     | [] => fail 404 TodoApp.msg_todo_not_found
     | row :: _ => sent (TodoApp.row_json row)
     end).
Proof.
  intros Hu Hb Hid Hc. simpl.
  unfold TodoApp.put_todo_handler, try_catch, bind, lift, ret, TodoApp.req_user_id,
    TodoApp.update_todo.
  rewrite !(get_parsed _ _ Hb), Hu. cbn -[success fail prepareValue TodoApp.bool_param].
  fold (field req "completed"). fold (field req "title").
  rewrite Hc, Hid. cbn -[success fail prepareValue].
  match goal with
  | |- context [match List.filter ?f ?l with _ => _ end] => destruct (List.filter f l)
  end; [| rewrite success_row]; reflexivity.
Qed.

Lemma TodoApp_delete_run idp req db p tid :
  user req = Some p -> pg_int4in idp = Ok tid ->
  let uid := c_id (p_claims p) in
  TodoApp.delete_todo_handler idp req db =
    (TodoApp.mkDB (TodoApp.users db) (TodoApp.users_id_seq db)
       (List.filter (fun t => negb (TodoApp.hit tid uid t)) (TodoApp.todos db))
       (TodoApp.todos_id_seq db),
     match List.filter (TodoApp.hit tid uid) (TodoApp.todos db) with
     | [] => fail 404 TodoApp.msg_todo_not_found
     | row :: _ => sent (TodoApp.row_json row)
     end).
Proof.
  intros Hu Hid. simpl.
  unfold TodoApp.delete_todo_handler, try_catch, bind, lift, ret, TodoApp.req_user_id,
    TodoApp.delete_todo.
  rewrite Hu. cbn -[success fail]. rewrite Hid. cbn -[success fail].
  destruct (List.filter _ (TodoApp.todos db)); [| rewrite success_row]; reflexivity.
Qed.

End TodoRuns.

Lemma In_Permutation {A} (l l' : list A) (x : A) : l ≡ₚ l' -> In x l <-> In x l'.
Proof.
  intros Hp. rewrite <- !list_elem_of_In. split; intros Hx.
  - rewrite <- Hp. exact Hx.
  - rewrite Hp. exact Hx.
Qed.

Section TodoItems.
Context `{Libs} `{PgInput}.

Lemma TodoApp_listing req db p :
  user req = Some p ->
  exists rows,
    TodoApp.get_todos_handler req db = (db, sent (JArr (map TodoApp.row_json rows))) /\
    rows ≡ₚ List.filter (TodoApp.owned_by (c_id (p_claims p))) (TodoApp.todos db) /\
    StronglySorted TodoApp.newer_first rows.
Proof.
  intros Hu. eexists. split; [apply TodoApp_list_run, Hu |]. split.
  - apply merge_sort_Permutation.
  - apply StronglySorted_merge_sort; typeclasses eauto.
Qed.


Lemma TodoApp_insert_fresh w uid text db :
  TodoApp_wf db ->
  (exists u, In u (TodoApp.users db) /\ TodoApp.u_id u = uid) ->
  let row := TodoApp.mkTodo (TodoApp.todos_id_seq db) uid text (Some false) (TodoApp.db_now w) in
  TodoApp.insert_todo w uid (Some text) db =
    (TodoApp.mkDB (TodoApp.users db) (TodoApp.users_id_seq db) (TodoApp.todos db ++ [row]) (TodoApp.todos_id_seq db + 1),
     Ok row).
Proof.
  intros (_ & Hnd & Hlt & Hfk) (u & Hu & Huid). simpl. unfold TodoApp.insert_todo.
  assert (Hpk : existsb (fun x => TodoApp.id x =? TodoApp.todos_id_seq db) (TodoApp.todos db) = false).
  { apply not_true_is_false. intros Hex. apply existsb_exists in Hex as (x & Hx & Hid).
    pose proof (Forall_at _ _ _ Hlt Hx) as Hltx. simpl in Hltx. lia. }
  assert (Hex : existsb (fun u => TodoApp.u_id u =? uid) (TodoApp.users db) = true).
  { apply existsb_exists. exists u. split; [exact Hu | lia]. }
  rewrite Hpk, Hex. reflexivity.
Qed.



Lemma TodoApp_delete_miss id_param req db p tid :
  user req = Some p -> pg_int4in id_param = Ok tid ->
  TodoApp_not_mine tid (c_id (p_claims p)) db ->
  TodoApp.delete_todo_handler id_param req db = (db, fail 404 TodoApp.msg_todo_not_found).
Proof.
  intros Hu Hid Hnm. rewrite (TodoApp_delete_run id_param req db p tid Hu Hid).
  rewrite filter_all, filter_nil, TodoApp_db_eta; [reflexivity | |].
  - intros t Ht. eapply TodoApp_miss; eauto.
  - intros t Ht. rewrite (TodoApp_miss _ _ _ _ Hnm Ht). reflexivity.
Qed.

Lemma TodoApp_update_miss id_param req db p tid c :
  user req = Some p -> nullish (body req) = false -> pg_int4in id_param = Ok tid ->
  TodoApp.bool_param (prepareValue (field req "completed")) = Ok c ->
  TodoApp_not_mine tid (c_id (p_claims p)) db ->
  TodoApp.put_todo_handler id_param req db = (db, fail 404 TodoApp.msg_todo_not_found).
Proof.
  intros Hu Hb Hid Hdone Hnm.
  rewrite (TodoApp_update_run id_param req db p tid c Hu Hb Hid Hdone).
  rewrite map_unchanged.
  - rewrite filter_nil, TodoApp_db_eta; [reflexivity |].
    intros t Ht. eapply TodoApp_miss; eauto.
  - intros t Ht. rewrite (TodoApp_miss _ _ _ _ Hnm Ht). reflexivity.
Qed.


Lemma TodoApp_update_own (l : list TodoApp.Todo) (t : TodoApp.Todo)
    (g : TodoApp.Todo -> TodoApp.Todo) :
  NoDup (map TodoApp.id l) -> In t l -> TodoApp_keeps_keys g ->
  let h := fun x => if TodoApp.hit (TodoApp.id t) (TodoApp.user_id t) x then g x else x in
  map h l = map (fun x => if TodoApp.id x =? TodoApp.id t then g t else x) l /\
  List.filter (TodoApp.hit (TodoApp.id t) (TodoApp.user_id t)) (map h l) = [g t].
Proof.
  intros Hnd Ht Hg h. split.
  - apply map_ext_in. intros x Hx. unfold h. rewrite (TodoApp_hit_by_id l t x Hnd Ht Hx).
    destruct (Z.eqb_spec (TodoApp.id x) (TodoApp.id t)) as [E | E]; [| reflexivity].
    rewrite (NoDup_map_eq TodoApp.id l x t Hnd Hx Ht E). reflexivity.
  - rewrite filter_map_comm.
    rewrite (List.filter_ext_in _ (fun x => TodoApp.id x =? TodoApp.id t)).
    + rewrite (filter_key_unique TodoApp.id l t Hnd Ht). simpl. unfold h.
      rewrite (TodoApp_hit_by_id l t t Hnd Ht Ht), Z.eqb_refl. reflexivity.
    + intros x Hx. unfold h. destruct (TodoApp.hit (TodoApp.id t) (TodoApp.user_id t) x) eqn:Hh.
      * rewrite <- (TodoApp_hit_by_id l t x Hnd Ht Hx). unfold TodoApp.hit.
        destruct (Hg x) as (-> & -> & _). reflexivity.
      * rewrite <- (TodoApp_hit_by_id l t x Hnd Ht Hx). reflexivity.
Qed.

Lemma TodoApp_delete_own (l : list TodoApp.Todo) (t : TodoApp.Todo) :
  NoDup (map TodoApp.id l) -> In t l ->
  List.filter (fun x => negb (TodoApp.hit (TodoApp.id t) (TodoApp.user_id t) x)) l =
    List.filter (fun x => negb (TodoApp.id x =? TodoApp.id t)) l /\
  List.filter (TodoApp.hit (TodoApp.id t) (TodoApp.user_id t)) l = [t].
Proof.
  intros Hnd Ht. split.
  - apply List.filter_ext_in. intros x Hx. rewrite (TodoApp_hit_by_id l t x Hnd Ht Hx). reflexivity.
  - rewrite (List.filter_ext_in _ (fun x => TodoApp.id x =? TodoApp.id t)).
    + apply filter_key_unique; assumption.
    + intros x Hx. apply (TodoApp_hit_by_id l t x Hnd Ht Hx).
Qed.


(** X20.  [DELETE /api/todos/:id] on an item of the caller answers 200 with
    the deleted row and removes that item and no other; the same request
    again answers 404, and after any further requests no item has the
    id. *)
Theorem todo_delete_removes_the_item w req db uid id_param t :
  TodoApp_wf db -> TodoApp_caller w req uid ->
  pg_int4in id_param = Ok (TodoApp.id t) ->
  In t (TodoApp.todos db) -> TodoApp.user_id t = uid ->
  let db' := TodoApp.mkDB (TodoApp.users db) (TodoApp.users_id_seq db)
               (List.filter (fun x => negb (TodoApp.id x =? TodoApp.id t)) (TodoApp.todos db))
               (TodoApp.todos_id_seq db) in
  TodoApp.handle (TodoApp.DeleteTodo id_param) w req db = (db', sent (TodoApp.row_json t)) /\
  (forall x, In x (TodoApp.todos db') <-> In x (TodoApp.todos db) /\ x <> t) /\
  TodoApp.handle (TodoApp.DeleteTodo id_param) w req db' =
    (db', fail 404 TodoApp.msg_todo_not_found) /\
  forall evs, ~ In (TodoApp.id t) (map TodoApp.id (TodoApp.todos (TodoApp.run evs db'))).
Proof.
  intros (_ & Hnd & Hlt & _) Hc Hid Hin Hown db'.
  assert (Hfree : ~ In (TodoApp.id t) (map TodoApp.id (TodoApp.todos db'))).
  { unfold db'. simpl. intros Hx. apply in_map_iff in Hx as (x & Hx & Hxin).
    apply filter_In in Hxin as [_ Hne]. rewrite Hx, Z.eqb_refl in Hne. discriminate. }
  split; [| split; [| split]].
  - destruct (TodoApp_caller_handle (TodoApp.DeleteTodo id_param) w req db uid Hc) as (p & Hp & ->).
    simpl. rewrite (TodoApp_delete_run id_param (set_user req p) db p (TodoApp.id t) eq_refl Hid).
    rewrite Hp, <- Hown.
    destruct (TodoApp_delete_own (TodoApp.todos db) t Hnd Hin) as [-> ->]. reflexivity.
  - intros x. unfold db'. simpl. rewrite filter_In. split.
    + intros [Hx Hne]. split; [exact Hx |]. intros ->. rewrite Z.eqb_refl in Hne. discriminate.
    + intros [Hx Hne]. split; [exact Hx |].
      destruct (Z.eqb_spec (TodoApp.id x) (TodoApp.id t)) as [E | E]; [| reflexivity].
      exfalso. apply Hne. eapply NoDup_map_eq; eauto.
  - destruct (TodoApp_caller_handle (TodoApp.DeleteTodo id_param) w req db' uid Hc) as (p & Hp & ->).
    apply (TodoApp_delete_miss id_param (set_user req p) db' p (TodoApp.id t) eq_refl Hid).
    intros x Hx Hxid. exfalso. apply Hfree. rewrite <- Hxid. apply in_map. exact Hx.
  - intros evs. apply (TodoApp_run_gone evs db' (TodoApp.id t)).
    split; [| exact Hfree]. unfold db'. simpl.
    exact (Forall_at _ _ _ Hlt Hin).
Qed.

End TodoItems.

(** ** The item routes: responses *)

(** Every row that the response shows belongs to [uid]. *)
Definition shows_only (uid : Z) (r : Response) : Prop :=
  forall x, In x (items_of r) -> get x "user_id" = Ok (JNum uid).

Definition TodoApp_statuses (r : TodoApp.Route) : list Z :=
  match r with
  | TodoApp.ListTodos => [200; 401; 500]
  | TodoApp.CreateTodo => [200; 400; 401; 500]
  | TodoApp.UpdateTodo _ => [200; 401; 404; 500]
  | TodoApp.DeleteTodo _ => [200; 401; 404; 500]
  end.

Definition TodoApp_app_statuses (e : TodoApp.Endpoint) : list Z :=
  match e with
  | TodoApp.Register => [200; 400; 409; 500]
  | TodoApp.Login => [200; 400; 401; 500]
  | TodoApp.Item r => TodoApp_statuses r
  end.

Lemma shows_only_fail uid st msg : shows_only uid (fail st msg).
Proof. intros x Hx. destruct Hx. Qed.

Lemma shows_only_row uid row :
  TodoApp.user_id row = uid -> shows_only uid (success (TodoApp.row_json row)).
Proof.
  intros <- x Hx. rewrite success_row in Hx. destruct Hx as [<- | []]. reflexivity.
Qed.

Lemma shows_only_rows uid rows :
  (forall row, In row rows -> TodoApp.user_id row = uid) ->
  shows_only uid (success (JArr (map TodoApp.row_json rows))).
Proof.
  intros Hrows x Hx. rewrite success_rows in Hx. simpl in Hx.
  apply in_map_iff in Hx as (row & <- & Hrow). rewrite <- (Hrows row Hrow). reflexivity.
Qed.

Section TodoResponses.
Context `{Libs} `{PgInput}.

Lemma TodoApp_handler_shows r w req db p :
  user req = Some p ->
  shows_only (c_id (p_claims p)) (snd (TodoApp.handler r w req db)).
Proof.
  intros Hu. destruct r as [| | idp | idp]; simpl.
  - rewrite (TodoApp_list_run req db p Hu). simpl. rewrite <- success_rows.
    apply shows_only_rows. intros row Hrow.
    apply (In_Permutation _ _ _ (merge_sort_Permutation _ _)) in Hrow.
    apply filter_In in Hrow as [_ Hrow]. unfold TodoApp.owned_by in Hrow. lia.
  - unfold TodoApp.post_todos_handler, try_catch, bind, lift, ret, TodoApp.req_user_id.
    destruct (get (body req) "title") as [ttl | e]; cbn -[success fail]; [| apply shows_only_fail].
    destruct (truthy ttl); cbn -[success fail]; [| apply shows_only_fail].
    rewrite Hu. cbn -[success fail]. unfold TodoApp.insert_todo.
    destruct (prepareValue ttl) as [t |]; cbn -[success fail]; [| apply shows_only_fail].
    destruct (existsb _ (TodoApp.todos db)); cbn -[success fail]; [apply shows_only_fail |].
    destruct (existsb _ (TodoApp.users db)); cbn -[success fail]; [| apply shows_only_fail].
    apply shows_only_row. reflexivity.
  - unfold TodoApp.put_todo_handler, try_catch, bind, lift, ret, TodoApp.req_user_id.
    destruct (get (body req) "title") as [ttl | e]; cbn -[success fail]; [| apply shows_only_fail].
    destruct (get (body req) "completed") as [done | e]; cbn -[success fail];
      [| apply shows_only_fail].
    rewrite Hu. cbn -[success fail]. unfold TodoApp.update_todo.
    destruct (TodoApp.bool_param (prepareValue done)) as [c | e]; cbn -[success fail];
      [| apply shows_only_fail].
    destruct (pg_int4in idp) as [tid | e]; cbn -[success fail]; [| apply shows_only_fail].
    match goal with
    | |- context [match List.filter ?f ?l with _ => _ end] =>
        pose proof (fun row (Hrow : In row (List.filter f l)) => proj2 (proj1 (filter_In f row l) Hrow))
          as Hrows;
        destruct (List.filter f l) as [| row rest]
    end; cbn -[success fail]; [apply shows_only_fail |].
    apply shows_only_row. eapply TodoApp_hit_owner. apply Hrows. left. reflexivity.
  - unfold TodoApp.delete_todo_handler, try_catch, bind, lift, ret, TodoApp.req_user_id.
    rewrite Hu. cbn -[success fail]. unfold TodoApp.delete_todo.
    destruct (pg_int4in idp) as [tid | e]; cbn -[success fail]; [| apply shows_only_fail].
    match goal with
    | |- context [match List.filter ?f ?l with _ => _ end] =>
        pose proof (fun row (Hrow : In row (List.filter f l)) => proj2 (proj1 (filter_In f row l) Hrow))
          as Hrows;
        destruct (List.filter f l) as [| row rest]
    end; cbn -[success fail]; [apply shows_only_fail |].
    apply shows_only_row. eapply TodoApp_hit_owner. apply Hrows. left. reflexivity.
Qed.

(** X21.  No response of the item routes shows an item of somebody else:
    every row in the [data] of a response, whatever the route, the id in the
    path and the body, carries as [user_id] the id of the payload with which
    the gate accepted the request. *)
Theorem todo_responses_show_only_own_items r w req db x :
  In x (items_of (snd (TodoApp.handle r w req db))) ->
  exists p,
    TodoApp.auth (TodoApp.JWT_SECRET w) (TodoApp.now_ms w) req = Next (set_user req p) /\
    get x "user_id" = Ok (JNum (c_id (p_claims p))).
Proof.
  intros Hx. destruct (TodoApp_gate r w req db) as [(msg & Hr & _) | (p & Ha & Hr)];
    rewrite Hr in Hx.
  - destruct Hx.
  - exists p. split; [exact Ha |].
    exact (TodoApp_handler_shows r w (set_user req p) db p eq_refl x Hx).
Qed.

Lemma TodoApp_handler_enveloped r w req :
  answers (fun _ : TodoApp.DB => True) (TodoApp.handler r w req) (json_with (TodoApp_statuses r)).
Proof.
  destruct r as [| | idp | idp]; simpl.
  - apply answers_try_catch; [walk answer_json | intros e; answer_json].
  - apply answers_try_catch; [walk answer_json | intros e; answer_json].
  - apply answers_try_catch; [walk answer_json | intros e; answer_json].
  - apply answers_try_catch; [walk answer_json | intros e; answer_json].
Qed.

Lemma TodoApp_handle_enveloped r w req db :
  json_with (TodoApp_statuses r) (snd (TodoApp.handle r w req db)).
Proof.
  destruct (TodoApp_gate r w req db) as [(msg & -> & _) | (p & _ & ->)].
  - simpl. apply json_with_fail; [lia |]. destruct r; simpl; tauto.
  - apply (TodoApp_handler_enveloped r w (set_user req p) db I).
Qed.

Lemma TodoApp_register_catch_enveloped e : json_with [200; 400; 409; 500] (TodoApp.register_catch e).
Proof.
  destruct e; try answer_json. unfold TodoApp.register_catch.
  destruct (String.eqb code "23505"); answer_json.
Qed.

(** X22.  Every response of the to-do application keeps the envelope: a
    JSON object whose [success] is [true] exactly when the status is 200 and
    which carries a [message] string otherwise.  Register only answers 200,
    400, 409 or 500; login 200, 400, 401 or 500; the listing 200, 401 or
    500; creation 200, 400, 401 or 500; update and deletion 200, 401, 404 or
    500. *)
Theorem todo_responses_keep_the_envelope e w req db :
  json_with (TodoApp_app_statuses e) (snd (TodoApp.app e w req db)).
Proof.
  destruct e as [| | r]; simpl.
  - assert (Ha : answers (fun _ : TodoApp.DB => True) (TodoApp.post_auth_register w req)
                   (json_with [200; 400; 409; 500])).
    { apply answers_try_catch; [walk answer_json | apply TodoApp_register_catch_enveloped]. }
    apply (Ha db I).
  - assert (Ha : answers (fun _ : TodoApp.DB => True) (TodoApp.post_auth_login w req)
                   (json_with [200; 400; 401; 500])).
    { apply answers_try_catch; [walk answer_json | intros e; answer_json]. }
    apply (Ha db I).
  - apply TodoApp_handle_enveloped.
Qed.

End TodoResponses.


(** ** The account routes of the to-do application *)

Section TodoAccounts.
Context `{Libs} `{PgInput}.

Lemma TodoApp_register_run w req db :
  nullish (body req) = false -> credentials_present req = true ->
  TodoApp.post_auth_register w req db =
    match hash (field req "password") (TodoApp.salt w) with
    | Throw e => (db, TodoApp.register_catch e)
    | Ok hashed =>
        match TodoApp.insert_user w (prepareValue (field req "username")) hashed db with
        | (db', Ok user) =>
            (db', success (JObj [("token", JStr (TodoApp.sign_user w user));
                                 ("user", TodoApp.row_user user)]))
        | (db', Throw e) => (db', TodoApp.register_catch e)
        end
    end.
Proof.
  intros Hb Hc. unfold TodoApp.post_auth_register, try_catch, bind, lift, ret.
  rewrite !(get_parsed _ _ Hb). fold (field req "username") (field req "password").
  unfold credentials_present in Hc. apply andb_true_iff in Hc as [-> ->].
  cbn -[success fail hash TodoApp.insert_user TodoApp.register_catch].
  destruct (hash _ _) as [hashed | e]; [| reflexivity].
  destruct (TodoApp.insert_user _ _ _ _) as [db' [user | e]]; reflexivity.
Qed.

Lemma TodoApp_register_missing w req db :
  nullish (body req) = false -> credentials_present req = false ->
  TodoApp.post_auth_register w req db = (db, fail 400 TodoApp.msg_credentials_required).
Proof.
  intros Hb Hc. unfold TodoApp.post_auth_register, try_catch, bind, lift, ret.
  rewrite !(get_parsed _ _ Hb). fold (field req "username") (field req "password").
  unfold credentials_present in Hc.
  destruct (truthy (field req "username")), (truthy (field req "password"));
    try discriminate; reflexivity.
Qed.

Lemma TodoApp_register_unparsed w req db :
  nullish (body req) = true ->
  TodoApp.post_auth_register w req db = (db, fail 500 TodoApp.msg_server_error).
Proof.
  intros Hb. unfold TodoApp.post_auth_register, try_catch, bind, lift.
  destruct (body req); try discriminate; reflexivity.
Qed.

Lemma TodoApp_insert_free w name pw db :
  (forall u, In u (TodoApp.users db) ->
             TodoApp.u_id u <> TodoApp.users_id_seq db /\ TodoApp.u_username u <> name) ->
  let row := TodoApp.mkUser (TodoApp.users_id_seq db) name pw (TodoApp.db_now w) in
  TodoApp.insert_user w (Some name) pw db =
    (TodoApp.mkDB (TodoApp.users db ++ [row]) (TodoApp.users_id_seq db + 1) (TodoApp.todos db)
       (TodoApp.todos_id_seq db), Ok row).
Proof.
  intros Hfree. simpl. unfold TodoApp.insert_user.
  destruct (existsb _ (TodoApp.users db)) eqn:Hex; [| reflexivity].
  exfalso. apply existsb_exists in Hex as (u & Hu & Hkey).
  destruct (Hfree u Hu) as [Hid Hname]. apply orb_true_iff in Hkey as [Hk | Hk].
  - lia.
  - apply String.eqb_eq in Hk. contradiction.
Qed.

Lemma TodoApp_insert_taken w name pw db :
  (exists u, In u (TodoApp.users db) /\ TodoApp.u_username u = name) ->
  TodoApp.insert_user w (Some name) pw db =
    (TodoApp.mkDB (TodoApp.users db) (TodoApp.users_id_seq db + 1) (TodoApp.todos db)
       (TodoApp.todos_id_seq db), Throw (PgError "23505")).
Proof.
  intros (u & Hu & Hname). unfold TodoApp.insert_user.
  destruct (existsb _ (TodoApp.users db)) eqn:Hex; [reflexivity |].
  exfalso. apply not_true_iff_false in Hex. apply Hex. apply existsb_exists.
  exists u. split; [exact Hu |]. rewrite Hname, String.eqb_refl. apply orb_true_r.
Qed.

(** What a register that answers 200 has done. *)
Lemma TodoApp_register_created w req db :
  status_of (snd (TodoApp.post_auth_register w req db)) = Some 200 ->
  exists pw name,
    field req "password" = JStr pw /\ prepareValue (field req "username") = Some name /\
    let u := TodoApp.mkUser (TodoApp.users_id_seq db) name (bcrypt_hash pw (TodoApp.salt w))
               (TodoApp.db_now w) in
    TodoApp.post_auth_register w req db =
      (TodoApp.mkDB (TodoApp.users db ++ [u]) (TodoApp.users_id_seq db + 1) (TodoApp.todos db)
         (TodoApp.todos_id_seq db),
       success (JObj [("token", JStr (TodoApp.sign_user w u)); ("user", TodoApp.row_user u)])).
Proof.
  destruct (nullish (body req)) eqn:Hb.
  { rewrite TodoApp_register_unparsed by exact Hb. discriminate. }
  destruct (credentials_present req) eqn:Hp.
  2:{ rewrite TodoApp_register_missing by assumption. discriminate. }
  rewrite TodoApp_register_run by assumption.
  destruct (field req "password") as [| | b | n | pw | xs | fs] eqn:Hpw; simpl; try discriminate.
  unfold TodoApp.insert_user.
  destruct (prepareValue (field req "username")) as [name |]; [| discriminate].
  destruct (existsb _ _); [discriminate |].
  intros _. exists pw, name. repeat split.
Qed.


Lemma TodoApp_login_run w req db :
  nullish (body req) = false -> credentials_present req = true ->
  TodoApp.post_auth_login w req db =
    (db,
     match List.filter (fun u => match prepareValue (field req "username") with
                                 | Some un => String.eqb (TodoApp.u_username u) un
                                 | None => false
                                 end) (TodoApp.users db) with
     | [] => fail 401 TodoApp.msg_invalid_credentials
     | user :: _ =>
         match compare (field req "password") (Some (TodoApp.u_password user)) with
         | Throw e => TodoApp.server_error e
         | Ok valid =>
             if valid
             then success (JObj [("token", JStr (TodoApp.sign_user w user));
                                 ("user", TodoApp.row_user user)])
             else fail 401 TodoApp.msg_invalid_credentials
         end
     end).
Proof.
  intros Hb Hc. unfold TodoApp.post_auth_login, try_catch, bind, lift, ret.
  rewrite !(get_parsed _ _ Hb). fold (field req "username") (field req "password").
  unfold credentials_present in Hc. apply andb_true_iff in Hc as [-> ->]. simpl.
  destruct (List.filter _ (TodoApp.users db)) as [| user rest]; [reflexivity |].
  destruct (compare _ _) as [[|] | e]; reflexivity.
Qed.

Lemma TodoApp_login_missing w req db :
  nullish (body req) = false -> credentials_present req = false ->
  TodoApp.post_auth_login w req db = (db, fail 400 TodoApp.msg_credentials_required).
Proof.
  intros Hb Hc. unfold TodoApp.post_auth_login, try_catch, bind, lift, ret.
  rewrite !(get_parsed _ _ Hb). fold (field req "username") (field req "password").
  unfold credentials_present in Hc.
  destruct (truthy (field req "username")), (truthy (field req "password"));
    try discriminate; reflexivity.
Qed.

Lemma TodoApp_login_unparsed w req db :
  nullish (body req) = true ->
  TodoApp.post_auth_login w req db = (db, fail 500 TodoApp.msg_server_error).
Proof.
  intros Hb. unfold TodoApp.post_auth_login, try_catch, bind, lift.
  destruct (body req); try discriminate; reflexivity.
Qed.


End TodoAccounts.

Section TodoSessions.
Context `{Libs} `{PgInput}.

Lemma TodoApp_auth_bearer secret now req header tok p :
  authorization req = Some header -> startsWith header "Bearer " = true ->
  split " " header !! 1%nat = Some tok -> jwt_check tok secret now = inr p ->
  TodoApp.auth secret now req = Next (set_user req p).
Proof.
  intros Hh Hs Htok Hok. unfold TodoApp.auth.
  rewrite Hh, Hs, (startsWith_nonempty _ Hs), Htok. simpl. rewrite Hok. reflexivity.
Qed.


End TodoSessions.

Lemma TodoApp_account_discreet `{Libs} w (u : TodoApp.User) :
  discreet (success (JObj [("token", JStr (TodoApp.sign_user w u)); ("user", TodoApp.row_user u)])).
Proof. reflexivity. Qed.

Lemma TodoApp_row_discreet (t : TodoApp.Todo) : discreet (success (TodoApp.row_json t)).
Proof.
  rewrite success_row. unfold discreet, sent, TodoApp.row_json.
  destruct (TodoApp.completed t); reflexivity.
Qed.

Lemma has_member_arr (k : string) (xs : list JsVal) :
  (forall x, In x xs -> has_member k x = false) -> has_member k (JArr xs) = false.
Proof.
  induction xs as [| x xs IH]; intros Hxs; [reflexivity |].
  change (has_member k x || has_member k (JArr xs) = false).
  rewrite (Hxs x (or_introl eq_refl)), IH; [reflexivity |].
  intros y Hy. apply Hxs. right. exact Hy.
Qed.

Lemma TodoApp_rows_discreet (rows : list TodoApp.Todo) :
  discreet (success (JArr (map TodoApp.row_json rows))).
Proof.
  rewrite success_rows. unfold discreet, sent, exposes_password.
  change (false || false || (false || has_member "password" (JArr (map TodoApp.row_json rows))
                             || false) = false).
  rewrite has_member_arr; [reflexivity |].
  intros x Hx. apply in_map_iff in Hx as (t & <- & _).
  unfold TodoApp.row_json. destruct (TodoApp.completed t); reflexivity.
Qed.

Lemma TodoApp_register_catch_discreet (e : Exn) : discreet (TodoApp.register_catch e).
Proof.
  destruct e; try apply discreet_fail.
  unfold TodoApp.register_catch. destruct (String.eqb code "23505"); apply discreet_fail.
Qed.

Ltac answer_discreetly :=
  first [ apply discreet_fail | apply TodoApp_account_discreet
        | apply TodoApp_row_discreet | apply TodoApp_rows_discreet ].

Section TodoViews.
Context `{Libs} `{PgInput}.

Lemma TodoApp_handler_discreet r w req :
  answers (fun _ : TodoApp.DB => True) (TodoApp.handler r w req) discreet.
Proof.
  destruct r as [| | idp | idp]; simpl;
    (apply answers_try_catch; [walk answer_discreetly | intros e; apply discreet_fail]).
Qed.

(** X27.  No response of the to-do application, of any of its six routes,
    successful or not, has a member named [password] at any depth: the
    stored hash never leaves the server. *)
Theorem todo_responses_hide_password e w req db :
  discreet (snd (TodoApp.app e w req db)).
Proof.
  destruct e as [| | r]; simpl.
  - assert (Ha : answers (fun _ : TodoApp.DB => True) (TodoApp.post_auth_register w req) discreet).
    { apply answers_try_catch; [walk answer_discreetly | apply TodoApp_register_catch_discreet]. }
    apply (Ha db I).
  - assert (Ha : answers (fun _ : TodoApp.DB => True) (TodoApp.post_auth_login w req) discreet).
    { apply answers_try_catch; [walk answer_discreetly | intros e; apply discreet_fail]. }
    apply (Ha db I).
  - destruct (TodoApp_gate r w req db) as [(msg & -> & _) | (p & _ & ->)].
    + apply discreet_fail.
    + apply (TodoApp_handler_discreet r w (set_user req p) db I).
Qed.

End TodoViews.
(** * The lazy initializer of [dangun_01/server.js]

    [initDB] and the middleware on [/api] that runs it before every route.
    A process is [Cold] while [dbInitialized] is false; the table may then
    exist already (an earlier process created it) or not.  It is [Warm] once
    [dbInitialized] is true: the flag is only set after CREATE TABLE IF NOT
    EXISTS has succeeded and nothing drops the table, so a warm process has
    a table.  Requests are served one after the other. *)

Module DangunApi.

Definition msg_init_failed : string := "Database initialization failed".

Inductive Process : Type :=
| Cold (table : option Dangun.DB)
| Warm (table : Dangun.DB).

(** [initDB()]: the table the routes will work on.  [create] is the outcome
    of the CREATE TABLE IF NOT EXISTS query, should it be sent. *)
Definition initDB (create : Res unit) (s : Process) : Res Dangun.DB :=
  match s with
  | Warm db => Ok db
  | Cold table =>
      match create with
      | Ok _ => Ok (default Dangun.empty_db table)
      | Throw e => Throw e
      end
  end.

(** [app.use('/api', ...)] followed by the route. *)
Definition api `{Libs} (create : Res unit) (route : Dangun.Route) (w : Dangun.World)
    (req : Request) (s : Process) : Process * Response :=
  match initDB create s with
  | Ok db => let out := Dangun.handle route w req db in (Warm (fst out), snd out)
  | Throw _ => (s, fail 500 msg_init_failed)
  end.

Definition table_of (s : Process) : option Dangun.DB :=
  match s with
  | Cold table => table
  | Warm db => Some db
  end.

(** The process after a sequence of requests. *)
Fixpoint run `{Libs} (evs : list (Res unit * (Dangun.Route * Dangun.World * Request)))
    (s : Process) : Process :=
  match evs with
  | [] => s
  | (create, (r, w, req)) :: rest => run rest (fst (api create r w req s))
  end.

End DangunApi.

Section LazyInit.
Context `{Libs}.

Lemma DangunApi_run_warm evs db :
  DangunApi.run evs (DangunApi.Warm db) = DangunApi.Warm (Dangun.run (map snd evs) db).
Proof.
  revert db. induction evs as [| [create [[r w] req]] evs IH]; intros db; simpl; [reflexivity |].
  apply IH.
Qed.

Lemma DangunApi_run_wf evs s :
  (forall db, DangunApi.table_of s = Some db -> Dangun_wf db) ->
  forall db, DangunApi.table_of (DangunApi.run evs s) = Some db -> Dangun_wf db.
Proof.
  revert s. induction evs as [| [create [[r w] req]] evs IH]; intros s Hs; simpl; [exact Hs |].
  apply IH. unfold DangunApi.api.
  destruct s as [table | db0]; simpl.
  - destruct create as [[] | e]; simpl; [| exact Hs].
    intros db [= <-]. apply (Dangun_run_wf [(r, w, req)]).
    destruct table as [db0 |]; simpl; [apply Hs; reflexivity |].
    split; [| split]; simpl; constructor.
  - intros db [= <-]. apply (Dangun_run_wf [(r, w, req)]). apply Hs. reflexivity.
Qed.

(** X23.  Behind the lazy initializer: started without a table, the
    application only ever holds a well-formed users table, whatever requests
    arrive and whenever table creation fails; a request to a cold process
    whose table creation fails is answered 500 without running its route or
    changing anything, and creation is tried again by the next request; once
    a request has been served the process stays warm, and its further
    requests are those of the routes alone, table creation being never
    attempted again. *)
Theorem lazy_initializer_guards_the_routes :
  (forall evs db,
      DangunApi.table_of (DangunApi.run evs (DangunApi.Cold None)) = Some db -> Dangun_wf db) /\
  (forall e route w req table,
      DangunApi.api (Throw e) route w req (DangunApi.Cold table) =
        (DangunApi.Cold table, fail 500 DangunApi.msg_init_failed)) /\
  (forall u route w req table,
      DangunApi.api (Ok u) route w req (DangunApi.Cold table) =
        (DangunApi.Warm (fst (Dangun.handle route w req (default Dangun.empty_db table))),
         snd (Dangun.handle route w req (default Dangun.empty_db table)))) /\
  (forall evs db,
      DangunApi.run evs (DangunApi.Warm db) = DangunApi.Warm (Dangun.run (map snd evs) db)).
Proof.
  split; [| split; [| split]].
  - intros evs. apply DangunApi_run_wf. discriminate.
  - reflexivity.
  - reflexivity.
  - apply DangunApi_run_warm.
Qed.

End LazyInit.

(** * The properties at work, continued

    The item routes run with [Sample]'s libraries and with a reader of
    decimal numerals and of [true]/[false] for PostgreSQL's input
    functions. *)

Module TodoSample.

Fixpoint digits (s : string) (acc : Z) : option Z :=
  match s with
  | EmptyString => Some acc
  | String c r =>
      let n := Z.of_nat (nat_of_ascii c) - 48 in
      if (0 <=? n) && (n <=? 9) then digits r (10 * acc + n) else None
  end.

Definition int4in (s : string) : Res Z :=
  match s with
  | EmptyString => Throw (PgError "22P02")
  | _ =>
      match digits s 0 with
      | Some n => if n <=? 2147483647 then Ok n else Throw (PgError "22003")
      | None => Throw (PgError "22P02")
      end
  end.

Definition boolin (s : string) : Res bool :=
  if String.eqb s "true" then Ok true
  else if String.eqb s "false" then Ok false
  else Throw (PgError "22P02").

#[global] Instance pg_input : PgInput := {|
  pg_int4in := int4in;
  pg_boolin := boolin
|}.

End TodoSample.

Module MoreExamples.

Import Examples.

Ltac closed_NoDup :=
  repeat first
    [ apply NoDup_nil_2
    | apply NoDup_cons_2; [rewrite list_elem_of_In; simpl; intuition (discriminate || lia) |] ].

Ltac closed_Forall := repeat first [apply Forall_nil_2 | apply Forall_cons_2; [simpl; lia |]].

Lemma dangun_db_wf : Dangun_wf dangun_db.
Proof. split; [| split]; simpl; [closed_NoDup | closed_NoDup | closed_Forall]. Qed.

Lemma dangun_empty_wf : Dangun_wf Dangun.empty_db.
Proof. split; [| split]; simpl; [closed_NoDup | closed_NoDup | closed_Forall]. Qed.

Lemma shop_db_wf : Ecommerce_wf shop_db.
Proof.
  split; [| split; [| split]]; [closed_NoDup | | | closed_Forall].
  - vm_compute. closed_NoDup.
  - vm_compute. closed_NoDup.
Qed.

(** X1 at work: a register in the dangun variant and a first federated login
    in the e-commerce variant. *)
Lemma stores_stay_well_formed_witness :
  Dangun_wf (Dangun.run [(Dangun.Register, dangun_world 0,
                          request None (register_body "bob" "secret2" "Bob"))] dangun_db) /\
  Ecommerce_wf (Ecommerce.run [(Ecommerce.KakaoCallback, kakao_world (kakao_profile_of 777 "New"),
                                callback_request)] shop_db).
Proof.
  split.
  - apply (proj1 (proj2 (proj2 stores_stay_well_formed))). exact dangun_db_wf.
  - apply (proj2 (proj2 (proj2 stores_stay_well_formed))). exact shop_db_wf.
Defined.

(** X3 at work: alice logs in with her password. *)
Lemma login_is_sound_witness :
  exists u, In u (Dangun.users dangun_db) /\ Dangun.username u = "alice" /\
            bcrypt_compare "secret1" (Dangun.password u) = true.
Proof.
  destruct (proj2 (proj1 login_is_sound (dangun_world 0)
                     (request None (credentials_body "alice" "secret1")) dangun_db))
    as (u & name & pw & Hin & Hname & Hu & Hpw & Hcmp & _).
  - vm_compute. reflexivity.
  - exists u. vm_compute in Hname. injection Hname as <-.
    vm_compute in Hpw. injection Hpw as <-. auto.
Defined.

(** X4 at work: alice registers on the empty store and logs in. *)
Lemma login_after_register_witness :
  status_of (snd (Dangun.post_auth_login (dangun_world 5)
                    (request None (credentials_body "alice" "secret1"))
                    (fst (Dangun.post_auth_register (dangun_world 0)
                            (request None (register_body "alice" "secret1" "Alice"))
                            Dangun.empty_db))))
  = Some 200.
Proof.
  destruct (proj1 login_after_register (dangun_world 0) (dangun_world 5)
              (request None (register_body "alice" "secret1" "Alice"))
              (request None (credentials_body "alice" "secret1"))
              Dangun.empty_db [] "secret1") as (u & _ & _ & Hrun).
  - exact dangun_empty_wf.
  - vm_compute. reflexivity.
  - reflexivity.
  - vm_compute. reflexivity.
  - reflexivity.
  - reflexivity.
  - reflexivity.
  - cbn [Dangun.run] in Hrun. rewrite Hrun. reflexivity.
Defined.


(** X6 at work: the token alice gets on registering opens her profile a
    second later. *)
Lemma registered_token_opens_session_witness :
  status_of (snd (Dangun.get_auth_me (dangun_world 1000) (request (bearer alice_token) JUndefined)
                    (fst (Dangun.post_auth_register (dangun_world 0)
                            (request None (register_body "alice" "secret1" "Alice"))
                            Dangun.empty_db))))
  = Some 200.
Proof.
  destruct (proj1 registered_token_opens_session (dangun_world 0) (dangun_world 1000)
              (request None (register_body "alice" "secret1" "Alice"))
              (request (bearer alice_token) JUndefined)
              Dangun.empty_db [] ("Bearer " +:+ alice_token))
    as (token & u1 & u2 & Hreg & Hme).
  - exact dangun_empty_wf.
  - vm_compute. reflexivity.
  - reflexivity.
  - vm_compute. reflexivity.
  - reflexivity.
  - reflexivity.
  - assert (Htoken : token = alice_token).
    { apply (f_equal data_of) in Hreg. vm_compute in Hreg.
      injection Hreg as Htok _. symmetry. vm_compute. exact Htok. }
    destruct Hme as (_ & _ & Hrun).
    + rewrite Htoken. vm_compute. reflexivity.
    + cbn [Dangun.run] in Hrun. rewrite Hrun. reflexivity.
Defined.

(** X7 at work: a callback without [code]. *)
Lemma callback_logs_in_or_leaves_store_witness :
  Ecommerce.get_auth_kakao_callback (shop_world 0) (request None JUndefined) shop_db
  = (shop_db, Ecommerce.login_error Ecommerce.msg_kakao_auth_failed).
Proof.
  apply (proj1 (proj2 (callback_logs_in_or_leaves_store (shop_world 0) (request None JUndefined)
                         shop_db))); reflexivity.
Defined.

(** X8 at work: provider identifier 777 logs in twice. *)
Lemma federated_login_twice_witness :
  let w := kakao_world (kakao_profile_of 777 "New") in
  let db := fst (Ecommerce.get_auth_kakao_callback w callback_request shop_db) in
  length (Ecommerce.users (fst (Ecommerce.get_auth_kakao_callback w callback_request db))) = 2%nat.
Proof.
  intros w db.
  destruct (federated_login_twice_is_one_account w w callback_request callback_request shop_db []
              (kakao_profile_of 777 "New") (kakao_profile_of 777 "New") "New")
    as (u & token & _ & _ & _ & _ & Hlen & _).
  - exact shop_db_wf.
  - apply provider_answers_sample. reflexivity.
  - intros r [<- | []]. discriminate.
  - apply provider_answers_sample. reflexivity.
  - reflexivity.
  - reflexivity.
  - cbn [Ecommerce.run] in Hlen. fold w in Hlen. fold db in Hlen. rewrite Hlen. reflexivity.
Defined.

(** X9 at work: what follows the token in the header is not read. *)
Lemma gate_reads_the_second_word_witness :
  auth secret 1000
    (request (Some ("Bearer " +:+ (alice_token +:+ String " " "and more"))) JUndefined)
  = Next (set_user (request (Some ("Bearer " +:+ (alice_token +:+ String " " "and more")))
                      JUndefined) alice_payload).
Proof.
  rewrite (proj1 (proj2 (gate_reads_the_second_word secret 1000
                           (request (Some ("Bearer " +:+ (alice_token +:+ String " " "and more")))
                              JUndefined)
                           alice_token "and more" ltac:(vm_compute; reflexivity)))
             eq_refl).
  vm_compute. reflexivity.
Defined.


Definition todo_secret : string := "todo-app-01-secret-key".

Definition todo_token (c : Claims) : string := jwt_sign c todo_secret expiresIn_7d 0.

Definition todo_world : TodoApp.World := TodoApp.mkWorld None 1000 40 "salt".

Definition milk : TodoApp.Todo := TodoApp.mkTodo 1 1 "milk" (Some false) 10.
Definition bread : TodoApp.Todo := TodoApp.mkTodo 2 2 "bread" (Some false) 20.
Definition eggs : TodoApp.Todo := TodoApp.mkTodo 3 1 "eggs" (Some true) 30.

(** Alice (1) has two items, bob (2) one; the item 4 has been deleted. *)
Definition todo_db : TodoApp.DB :=
  TodoApp.mkDB [TodoApp.mkUser 1 "alice" "salt$secret1" 0; TodoApp.mkUser 2 "bob" "salt$secret2" 5] 3
    [milk; bread; eggs] 5.

(** A request of alice. *)
Definition as_alice (b : JsVal) : Request := request (bearer (todo_token alice_claims)) b.

Lemma todo_db_wf : TodoApp_wf todo_db.
Proof.
  split; (split; [| split]); simpl; [closed_NoDup | closed_NoDup | closed_Forall
                                    | closed_NoDup | closed_Forall |].
  repeat first [apply Forall_nil_2 | apply Forall_cons_2]; simpl; eauto.
Qed.

Lemma alice_calls (b : JsVal) : TodoApp_caller todo_world (as_alice b) 1.
Proof. exists alice_payload. split; [vm_compute |]; reflexivity. Qed.

Lemma ghost_calls (b : JsVal) :
  TodoApp_caller todo_world (request (bearer (todo_token ghost_claims)) b) 9.
Proof. exists ghost_payload. split; [vm_compute |]; reflexivity. Qed.

(** X12 at work: carol registers, alice adds an item and tries to delete
    bob's. *)
Lemma todo_store_stays_well_formed_witness :
  TodoApp_wf (TodoApp.run [(TodoApp.Register, todo_world,
                            request None (credentials_body "carol" "secret3"));
                           (TodoApp.Item TodoApp.CreateTodo, todo_world,
                            as_alice (JObj [("title", JStr "tea")]));
                           (TodoApp.Item (TodoApp.DeleteTodo "2"), todo_world, as_alice JUndefined)]
                todo_db).
Proof.
  apply (proj1 (proj2 todo_store_stays_well_formed)
           [(TodoApp.Register, todo_world, request None (credentials_body "carol" "secret3"));
            (TodoApp.Item TodoApp.CreateTodo, todo_world, as_alice (JObj [("title", JStr "tea")]));
            (TodoApp.Item (TodoApp.DeleteTodo "2"), todo_world, as_alice JUndefined)]
           todo_db todo_db_wf).
Defined.

(** X13 at work: alice asks to delete item 2, which is bob's. *)
Lemma todo_items_change_only_for_their_owner_witness :
  List.filter (TodoApp.owned_by 2)
    (TodoApp.todos (fst (TodoApp.app (TodoApp.Item (TodoApp.DeleteTodo "2")) todo_world
                           (as_alice JUndefined) todo_db)))
  = [bread].
Proof.
  rewrite (todo_items_change_only_for_their_owner (TodoApp.Item (TodoApp.DeleteTodo "2")) todo_world
             (as_alice JUndefined) todo_db 2).
  - reflexivity.
  - intros p Hp. vm_compute in Hp. injection Hp as <-. discriminate.
Defined.

(** X14 at work: the id 4 of a deleted item is not given to a new item. *)
Lemma todo_ids_are_never_reused_witness :
  ~ In 4 (map TodoApp.id
            (TodoApp.todos (TodoApp.run [(TodoApp.Item TodoApp.CreateTodo, todo_world,
                                          as_alice (JObj [("title", JStr "tea")]))] todo_db))).
Proof.
  apply (todo_ids_are_never_reused
           [(TodoApp.Item TodoApp.CreateTodo, todo_world, as_alice (JObj [("title", JStr "tea")]))]
           todo_db 4).
  - simpl. lia.
  - simpl. intuition lia.
Defined.




Lemma reads_numeral :
  pg_int4in "1" = Ok 1 /\ pg_int4in "2" = Ok 2 /\ pg_int4in "3" = Ok 3 /\ pg_int4in "4" = Ok 4.
Proof. repeat split. Qed.

Lemma reads_true : TodoApp.bool_param (prepareValue (JBool true)) = Ok (Some true).
Proof. reflexivity. Qed.

Lemma not_alices (tid : Z) : tid = 2 \/ tid = 4 -> TodoApp_not_mine tid 1 todo_db.
Proof. intros Htid t [<- | [<- | [<- | []]]]; simpl; intros; lia. Qed.



(** X20 at work: alice deletes "eggs", twice. *)
Lemma todo_delete_removes_the_item_witness :
  let db' := TodoApp.mkDB (TodoApp.users todo_db) 3 [milk; bread] 5 in
  TodoApp.handle (TodoApp.DeleteTodo "3") todo_world (as_alice JUndefined) todo_db
  = (db', sent (TodoApp.row_json eggs)) /\
  TodoApp.handle (TodoApp.DeleteTodo "3") todo_world (as_alice JUndefined) db'
  = (db', fail 404 TodoApp.msg_todo_not_found).
Proof.
  destruct (todo_delete_removes_the_item todo_world (as_alice JUndefined) todo_db 1 "3" eggs
              todo_db_wf (alice_calls _) (proj1 (proj2 (proj2 reads_numeral)))
              (or_intror (or_intror (or_introl eq_refl))) eq_refl)
    as (Hrun & _ & Hagain & _).
  split; [exact Hrun | exact Hagain].
Defined.

(** X21 at work: a row of alice's listing carries her id. *)
Lemma todo_responses_show_only_own_items_witness :
  exists p,
    TodoApp.auth (TodoApp.JWT_SECRET todo_world) (TodoApp.now_ms todo_world) (as_alice JUndefined)
    = Next (set_user (as_alice JUndefined) p) /\
    get (TodoApp.row_json milk) "user_id" = Ok (JNum (c_id (p_claims p))).
Proof.
  apply (todo_responses_show_only_own_items TodoApp.ListTodos todo_world (as_alice JUndefined)
           todo_db (TodoApp.row_json milk)).
  vm_compute. auto.
Defined.




(** X23 at work: the first request finds the database down, the second
    creates the table and registers alice, the third is served warm although
    table creation would fail. *)
Lemma lazy_initializer_witness :
  let alice := request None (register_body "alice" "secret1" "Alice") in
  let evs := [(Throw (PgError "08006"), (Dangun.Register, dangun_world 0, alice));
              (Ok tt, (Dangun.Register, dangun_world 1, alice));
              (Throw (PgError "08006"),
               (Dangun.Login, dangun_world 2, request None (credentials_body "alice" "secret1")))] in
  exists db,
    DangunApi.table_of (DangunApi.run evs (DangunApi.Cold None)) = Some db /\
    map Dangun.username (Dangun.users db) = ["alice"] /\ Dangun_wf db.
Proof.
  intros alice evs. eexists. split; [vm_compute; reflexivity |]. split; [reflexivity |].
  apply (proj1 lazy_initializer_guards_the_routes evs). vm_compute. reflexivity.
Defined.

End MoreExamples.
